(** * Lifting diary: data-access helpers, validation schemas and server actions

    A shallow embedding of
      - [src/db/schema.ts]          (tables, foreign keys, column types),
      - [src/data/workouts.ts]      (the workout helpers),
      - [lib/auth.ts]               (the [getCurrentUser] stub),
      - the two [actions.ts] files  ([createWorkoutAction], [updateWorkoutAction]).

    The helpers are [async] functions that run to completion one after the
    other; they are embedded in a state-and-exception monad [M] over a
    [World]: the stored database, the list of statements sent to it so far,
    the paths handed to [revalidatePath], and how many random identifiers
    and clock readings have been consumed.

    The relational store behind Drizzle is four lists of rows with the
    constraints that [schema.ts] declares: the primary key of [workouts], the
    NOT NULL foreign keys with their ON DELETE action, and what the column
    types take: a [text] without the character U+0000, a [varchar(n)] of at
    most [n] characters (an over-long value is cut when only spaces are
    lost), a 32-bit [integer], a [timestamp] that the database can read.
    What is not modelled: the textual syntax of [uuid] values (identifiers
    are opaque and taken to be well formed), and the order of rows that tie
    on the sort key of an ORDER BY.

    Instants are integers, milliseconds since the epoch; a [Date] object is
    an instant or invalid.  The length of a string is its number of
    characters.  What the platform decides (random UUIDs, the clock,
    [Date.parse], the local time zone with its changes of offset, which
    timestamps the database reads, the UUID check of the validation
    library, and whether Drizzle refuses an empty [set]) is collected in a
    [Runtime] record over which the development is parametric. *)

From Stdlib Require Import ZArith String Ascii List Lia.
From stdpp Require Import base tactics decidable option list sorting gmap strings.

Local Open Scope Z_scope.

(** ** Values *)

Definition Uuid := string.

(** An instant: milliseconds since the epoch.  A JavaScript [Date] is an
    [option Timestamp], [None] being the invalid date. *)
Definition Timestamp := Z.

(** A JavaScript [number].  [NFrac f] is a finite number that is not an
    integer and lies strictly between [f] and [f + 1]. *)
Inductive number :=
  | NInt (z : Z)
  | NFrac (f : Z)
  | NNaN
  | NInfinity (negative : bool).

(** ** Tables of [src/db/schema.ts] *)

Module users.
Record row := mk {
  id : Uuid;
  email : string;
  username : string;
  passwordHash : string;
  createdAt : Timestamp;
  updatedAt : Timestamp }.
End users.

Module workouts.
Record row := mk {
  id : Uuid;
  userId : Uuid;
  name : string;
  date : Timestamp;
  notes : option string;
  durationMinutes : option Z;
  createdAt : Timestamp;
  updatedAt : Timestamp }.
End workouts.

Module exercises.
Record row := mk {
  id : Uuid;
  workoutId : Uuid;
  templateId : option Uuid;
  exerciseName : string;
  exerciseType : option string;
  orderInWorkout : Z;
  notes : option string;
  createdAt : Timestamp;
  updatedAt : Timestamp }.
End exercises.

Module sets.
(** [weightKg] is in hundredths of a kilogram, [rpe] in tenths. *)
Record row := mk {
  id : Uuid;
  exerciseId : Uuid;
  setNumber : Z;
  reps : Z;
  weightKg : option Z;
  rpe : option Z;
  restSeconds : option Z;
  isWarmup : bool;
  isFailure : bool;
  notes : option string;
  createdAt : Timestamp;
  updatedAt : Timestamp }.
End sets.

(** The [onDelete] option of a [references(...)] clause. *)
Inductive ReferentialAction := cascade | setNull | noAction.

Definition workouts_userId_onDelete : ReferentialAction := cascade.
Definition exercises_workoutId_onDelete : ReferentialAction := cascade.
Definition exercises_templateId_onDelete : ReferentialAction := setNull.
Definition sets_exerciseId_onDelete : ReferentialAction := cascade.

(** [varchar('name', { length: 255 })] and friends. *)
Definition workouts_name_length : nat := 255.
Definition users_email_length : nat := 255.
Definition users_username_length : nat := 100.

Record Db := mkDb {
  tbl_users : list users.row;
  tbl_workouts : list workouts.row;
  tbl_exercises : list exercises.row;
  tbl_sets : list sets.row }.

Definition emptyDb : Db := mkDb [] [] [] [].

(** ** Errors *)

(** The conditions with which the database refuses a statement, under
    their names in the PostgreSQL manual (SQLSTATE 23505, 23503, 23502,
    22001, 22003, 22P02, 22021, 22007, 22008 and 22009). *)
Inductive PgViolation :=
  | unique_violation
  | foreign_key_violation
  | not_null_violation
  | string_data_right_truncation
  | numeric_value_out_of_range
  | invalid_text_representation
  | character_not_in_repertoire
  | invalid_datetime_format
  | datetime_field_overflow
  | invalid_time_zone_displacement_value.

(** A value as the database takes it, or the refusal. *)
Definition Pg (A : Type) : Type := PgViolation + A.

#[export] Instance Pg_ret : MRet Pg := fun A a => inr a.

#[export] Instance Pg_bind : MBind Pg := fun A B f m =>
  match m with
  | inl v => inl v
  | inr a => f a
  end.

Inductive ZodIssueCode := invalid_type | invalid_date | invalid_string | too_small | too_big.

(** [message] is [Some] when the schema gives its own message and [None]
    when the library's default message is used. *)
Record ZodIssue := mkIssue {
  path : list string;
  code : ZodIssueCode;
  message : option string }.

Inductive error :=
  | Error (msg : string)
  | TypeError
  | RangeError
  | ZodError (issues : list ZodIssue)
  | DatabaseError (v : PgViolation).

(** ** The world a request runs in *)

Inductive DbCall :=
  | SelectUsers
  | InsertUsers
  | QueryWorkouts
  | InsertWorkouts
  | UpdateWorkouts
  | DeleteWorkouts.

Record World := mkWorld {
  db : Db;
  uuidsDrawn : nat;
  clockReads : nat;
  calls : list DbCall;
  revalidated : list string }.

(** What the platform decides.
    - [gen_random_uuid n] and [clock n] are the [n]-th identifier drawn and
      the [n]-th reading of the clock.
    - [LocalTZA t isUTC] is the offset of the local time zone in
      milliseconds, as ECMAScript names it: at the instant [t] when [isUTC],
      and at the wall-clock time [t] otherwise, a wall-clock time that a
      change of offset skips or repeats being read with the offset before
      the change.
    - [timestamptz_in t] is what the database makes of the text that
      [toISOString()] gives for the instant [t]: [None] when it reads it,
      the refusal otherwise (a year of more than four digits, for one).
    - [zod_uuid s] is the test behind [z.string().uuid()], which differs
      between releases of the library.
    - [emptySetThrows]: whether the query layer refuses an update that
      assigns nothing. *)
Record Runtime := mkRuntime {
  gen_random_uuid : nat -> Uuid;
  clock : nat -> Timestamp;
  Date_parse : string -> option Timestamp;
  LocalTZA : Z -> bool -> Z;
  timestamptz_in : Timestamp -> option PgViolation;
  zod_uuid : string -> bool;
  emptySetThrows : bool }.

Inductive outcome (A : Type) :=
  | Returned (a : A)
  | Thrown (e : error).
Arguments Returned {A} a.
Arguments Thrown {A} e.

Definition M (A : Type) : Type := World -> outcome A * World.

#[export] Instance M_ret : MRet M := fun A a w => (Returned a, w).

#[export] Instance M_bind : MBind M := fun A B f m w =>
  match m w with
  | (Returned a, w') => f a w'
  | (Thrown e, w') => (Thrown e, w')
  end.

Definition throw {A} (e : error) : M A := fun w => (Thrown e, w).

Definition getDb : M Db := fun w => (Returned (db w), w).

Definition putDb (d : Db) : M unit := fun w =>
  (Returned tt, mkWorld d (uuidsDrawn w) (clockReads w) (calls w) (revalidated w)).

(** The world after one more call to the database has been issued. *)
Definition withCall (w : World) (c : DbCall) : World :=
  mkWorld (db w) (uuidsDrawn w) (clockReads w) (calls w ++ [c]) (revalidated w).

Definition logCall (c : DbCall) : M unit := fun w => (Returned tt, withCall w c).

Definition revalidatePath (p : string) : M unit := fun w =>
  (Returned tt, mkWorld (db w) (uuidsDrawn w) (clockReads w) (calls w) (revalidated w ++ [p])).

(** ** Relational reads: [db.query.workouts.findFirst / findMany]

    The [with: { exercises: { orderBy, with: { sets: { orderBy } } } }]
    clause attaches to each workout its exercises and to each exercise its
    sets, each list ordered by the given key. *)

Record ExerciseWithSets := mkEx {
  ex_row : exercises.row;
  ex_sets : list sets.row }.

Record WorkoutWithData := mkWd {
  wd_row : workouts.row;
  wd_exercises : list ExerciseWithSets }.

Definition asc {A} (key : A -> Z) : relation A := fun a b => key a <= key b.
Definition desc {A} (key : A -> Z) : relation A := fun a b => key b <= key a.

#[export] Instance asc_dec {A} (key : A -> Z) a b : Decision (asc key a b).
Proof. unfold asc. apply _. Defined.

#[export] Instance desc_dec {A} (key : A -> Z) a b : Decision (desc key a b).
Proof. unfold desc. apply _. Defined.

Definition setsOf (d : Db) (e : exercises.row) : list sets.row :=
  merge_sort (asc sets.setNumber)
    (filter (fun s => sets.exerciseId s = exercises.id e) (tbl_sets d)).

Definition exercisesOf (d : Db) (w : workouts.row) : list ExerciseWithSets :=
  (fun e => mkEx e (setsOf d e)) <$>
    merge_sort (asc exercises.orderInWorkout)
      (filter (fun e => exercises.workoutId e = workouts.id w) (tbl_exercises d)).

Definition withData (d : Db) (w : workouts.row) : WorkoutWithData :=
  mkWd w (exercisesOf d w).

Definition findMany (cond : workouts.row -> Prop) `{forall r, Decision (cond r)}
    (orderBy : relation workouts.row) `{forall a b, Decision (orderBy a b)}
    : M (list WorkoutWithData) :=
  logCall QueryWorkouts;;
  d ← getDb;
  mret (withData d <$> merge_sort orderBy (filter cond (tbl_workouts d))).

Definition findFirst (cond : workouts.row -> Prop) `{forall r, Decision (cond r)}
    : M (option WorkoutWithData) :=
  logCall QueryWorkouts;;
  d ← getDb;
  mret (withData d <$> head (filter cond (tbl_workouts d))).

(** ** Writes *)

(** What an [integer] column accepts from a JavaScript number, which the
    driver sends as its decimal text: digits for an integer below 10^21 in
    absolute value, the exponent form from there on. *)
Definition toInt4 (n : number) : PgViolation + Z :=
  match n with
  | NInt z =>
      if decide (- 2 ^ 31 <= z < 2 ^ 31) then inr z
      else if decide (Z.abs z < 10 ^ 21) then inl numeric_value_out_of_range
      else inl invalid_text_representation
  | _ => inl invalid_text_representation
  end.

Definition toInt4Opt (n : option number) : PgViolation + option Z :=
  match n with
  | None => inr None
  | Some n => match toInt4 n with inl v => inl v | inr z => inr (Some z) end
  end.

Definition fitsVarchar (n : nat) (s : string) : Prop := (String.length s <= n)%nat.

#[export] Instance fitsVarchar_dec n s : Decision (fitsVarchar n s).
Proof. unfold fitsVarchar. apply _. Defined.

Definition fitsVarcharOpt (n : nat) (o : option string) : Prop :=
  match o with
  | Some s => fitsVarchar n s
  | None => True
  end.

#[export] Instance fitsVarcharOpt_dec n o : Decision (fitsVarcharOpt n o).
Proof. destruct o; simpl; apply _. Defined.

(** Whether a string holds the character U+0000, which no [text] or
    [varchar] value can. *)
Definition hasNul (s : string) : bool :=
  existsb (Ascii.eqb "000"%char) (list_ascii_of_string s).

(** A string sent as the parameter of a statement. *)
Definition text_in (s : string) : Pg string :=
  if hasNul s then inl character_not_in_repertoire else inr s.

(** The value that a [varchar(n)] column keeps of a string: the string
    itself when it fits; its first [n] characters when all the characters
    after them are spaces; no value otherwise. *)
Definition varchar (n : nat) (s : string) : Pg string :=
  if decide (fitsVarchar n s) then inr s
  else if forallb (Ascii.eqb " "%char) (drop n (list_ascii_of_string s))
       then inr (string_of_list_ascii (take n (list_ascii_of_string s)))
       else inl string_data_right_truncation.

(** A parameter that the statement may leave out. *)
Definition optIn {A B} (f : A -> Pg B) (o : option A) : Pg (option B) :=
  match o with
  | None => inr None
  | Some a => match f a with inl v => inl v | inr b => inr (Some b) end
  end.

(** Rows of a child table when the parents with identifiers [gone] are
    deleted: the rows kept, or the violation that refuses the delete.  The
    foreign-key columns concerned are all NOT NULL. *)
Definition referentialDelete {R} (action : ReferentialAction) (fk : R -> Uuid)
    (gone : list Uuid) (rows : list R) : PgViolation + list R :=
  match action with
  | cascade => inr (filter (fun r => fk r ∉ gone) rows)
  | setNull =>
      if decide (Forall (fun r => fk r ∉ gone) rows) then inr rows
      else inl not_null_violation
  | noAction =>
      if decide (Forall (fun r => fk r ∉ gone) rows) then inr rows
      else inl foreign_key_violation
  end.

(** [DELETE FROM workouts WHERE cond RETURNING *] under the given actions of
    the two foreign keys that lead to the workouts table. *)
Definition pgDeleteWorkouts (onExercises onSets : ReferentialAction)
    (cond : workouts.row -> Prop) `{forall r, Decision (cond r)} (d : Db)
    : PgViolation + (list workouts.row * Db) :=
  let deleted := filter cond (tbl_workouts d) in
  let goneW := workouts.id <$> deleted in
  let goneE :=
    exercises.id <$> filter (fun e => exercises.workoutId e ∈ goneW) (tbl_exercises d) in
  match referentialDelete onExercises exercises.workoutId goneW (tbl_exercises d) with
  | inl v => inl v
  | inr es =>
      match referentialDelete onSets sets.exerciseId
              (if onExercises is cascade then goneE else []) (tbl_sets d) with
      | inl v => inl v
      | inr ss =>
          inr (deleted,
               mkDb (tbl_users d) (filter (fun r => ¬ cond r) (tbl_workouts d)) es ss)
      end
  end.

Definition deleteWorkouts (cond : workouts.row -> Prop) `{forall r, Decision (cond r)}
    : M (list workouts.row) :=
  logCall DeleteWorkouts;;
  d ← getDb;
  match pgDeleteWorkouts exercises_workoutId_onDelete sets_exerciseId_onDelete cond d with
  | inl v => throw (DatabaseError v)
  | inr (deleted, d') => putDb d';; mret deleted
  end.

(** The fields of [createWorkout]'s [data] parameter. *)
Record NewWorkout := mkNew {
  new_name : string;
  new_date : Timestamp;
  new_notes : option string;
  new_durationMinutes : option number }.

(** The fields of [updateWorkout]'s [data] parameter; [None] is [undefined]. *)
Record WorkoutUpdate := mkUpd {
  upd_name : option string;
  upd_date : option Timestamp;
  upd_notes : option string;
  upd_durationMinutes : option number }.

Section Helpers.

Variable rt : Runtime.

Definition drawUuid : M Uuid := fun w =>
  (Returned (gen_random_uuid rt (uuidsDrawn w)),
   mkWorld (db w) (S (uuidsDrawn w)) (clockReads w) (calls w) (revalidated w)).

Definition readClock : M Timestamp := fun w =>
  (Returned (clock rt (clockReads w)),
   mkWorld (db w) (uuidsDrawn w) (S (clockReads w)) (calls w) (revalidated w)).

(** A [Date] sent as a [timestamp] parameter. *)
Definition timestamptz (t : Timestamp) : Pg Timestamp :=
  match timestamptz_in rt t with
  | Some v => inl v
  | None => inr t
  end.

(** The parameters of an insert into [users].  The database reads them in
    order when the statement is bound, the first refusal ending it, and
    then casts them to the types of their columns.  The result is the email
    and the username as stored. *)
Definition usersValues (email username passwordHash : string) : Pg (string * string) :=
  text_in email;;
  text_in username;;
  text_in passwordHash;;
  email ← varchar users_email_length email;
  username ← varchar users_username_length username;
  mret (email, username).

(** [db.insert(users).values({ email, username, passwordHash }).returning()] *)
Definition insertUsers (email username passwordHash : string) : M (list users.row) :=
  logCall InsertUsers;;
  d ← getDb;
  newId ← drawUuid;
  now ← readClock;
  match usersValues email username passwordHash with
  | inl v => throw (DatabaseError v)
  | inr (email, username) =>
      if decide (newId ∈ users.id <$> tbl_users d
                 ∨ email ∈ users.email <$> tbl_users d
                 ∨ username ∈ users.username <$> tbl_users d)
      then throw (DatabaseError unique_violation)
      else
        let r := users.mk newId email username passwordHash now now in
        putDb (mkDb (tbl_users d ++ [r]) (tbl_workouts d) (tbl_exercises d) (tbl_sets d));;
        mret [r]
  end.

(** The parameters of an insert into [workouts], read in the order of the
    columns and then cast: the result is the name and the duration as
    stored. *)
Definition workoutsValues (name : string) (date : Timestamp) (notes : option string)
    (durationMinutes : option number) : Pg (string * option Z) :=
  text_in name;;
  timestamptz date;;
  optIn text_in notes;;
  minutes ← toInt4Opt durationMinutes;
  name ← varchar workouts_name_length name;
  mret (name, minutes).

(** [db.insert(workouts).values({ userId, name, date, notes, durationMinutes }).returning()] *)
Definition insertWorkouts (userId : Uuid) (name : string) (date : Timestamp)
    (notes : option string) (durationMinutes : option number)
    : M (list workouts.row) :=
  logCall InsertWorkouts;;
  d ← getDb;
  newId ← drawUuid;
  now ← readClock;
  match workoutsValues name date notes durationMinutes with
  | inl v => throw (DatabaseError v)
  | inr (name, minutes) =>
      if decide (newId ∈ workouts.id <$> tbl_workouts d)
      then throw (DatabaseError unique_violation)
      else if decide (userId ∉ users.id <$> tbl_users d)
      then throw (DatabaseError foreign_key_violation)
      else
        let r := workouts.mk newId userId name date notes minutes now now in
        putDb (mkDb (tbl_users d) (tbl_workouts d ++ [r]) (tbl_exercises d) (tbl_sets d));;
        mret [r]
  end.

(** The parameters of an update of [workouts]: the columns that [data]
    supplies, in the order of the columns, then the [updatedAt] that the
    column's [$onUpdate(() => new Date())] adds; the name is then cast to
    [varchar(255)].  The result is the name and the duration as stored. *)
Definition updateValues (data : WorkoutUpdate) (now : Timestamp)
    : Pg (option string * option Z) :=
  optIn text_in (upd_name data);;
  optIn timestamptz (upd_date data);;
  optIn text_in (upd_notes data);;
  minutes ← toInt4Opt (upd_durationMinutes data);
  timestamptz now;;
  name ← optIn (varchar workouts_name_length) (upd_name data);
  mret (name, minutes).

(** [data] with the name that the column keeps of it. *)
Definition asStored (data : WorkoutUpdate) (name : option string) : WorkoutUpdate :=
  mkUpd name (upd_date data) (upd_notes data) (upd_durationMinutes data).

(** One row after [SET]: the columns given in [data], and [updatedAt] from
    the column's [$onUpdate(() => new Date())]. *)
Definition applySet (data : WorkoutUpdate) (minutes : option Z) (now : Timestamp)
    (r : workouts.row) : workouts.row :=
  workouts.mk (workouts.id r) (workouts.userId r)
    (default (workouts.name r) (upd_name data))
    (default (workouts.date r) (upd_date data))
    (if upd_notes data is Some n then Some n else workouts.notes r)
    (if minutes is Some m then Some m else workouts.durationMinutes r)
    (workouts.createdAt r)
    now.

Definition noValues (data : WorkoutUpdate) : Prop :=
  upd_name data = None ∧ upd_date data = None ∧
  upd_notes data = None ∧ upd_durationMinutes data = None.

#[export] Instance noValues_dec data : Decision (noValues data).
Proof. unfold noValues. apply _. Defined.

(** [db.update(workouts).set(data).where(cond).returning()].  [set] drops
    the keys whose value is [undefined]; whether it then refuses an empty
    assignment with [Error("No values to set")] depends on the Drizzle
    release and is a parameter of the runtime. *)
Definition updateWorkouts (data : WorkoutUpdate)
    (cond : workouts.row -> Prop) `{forall r, Decision (cond r)}
    : M (list workouts.row) :=
  if decide (emptySetThrows rt = true ∧ noValues data)
  then throw (Error "No values to set")
  else
    now ← readClock;
    logCall UpdateWorkouts;;
    d ← getDb;
    match updateValues data now with
    | inl v => throw (DatabaseError v)
    | inr (name, minutes) =>
        let assign := applySet (asStored data name) minutes now in
        let upd := fun r => if decide (cond r) then assign r else r in
        putDb (mkDb (tbl_users d) (upd <$> tbl_workouts d) (tbl_exercises d) (tbl_sets d));;
        mret (assign <$> filter cond (tbl_workouts d))
    end.

(** ** [src/data/workouts.ts] *)

Definition NotFoundOrUnauthorized : error := Error "Workout not found or unauthorized".

(** The abstract operations of ECMAScript on time values. *)
Definition msPerDay : Z := 86400000.

Definition Day (t : Z) : Z := t `div` msPerDay.

Definition MakeTime (hour min sec ms : Z) : Z := ((hour * 60 + min) * 60 + sec) * 1000 + ms.

Definition MakeDate (day time : Z) : Z := day * msPerDay + time.

Definition LocalTime (t : Timestamp) : Z := t + LocalTZA rt t true.

Definition UTC (t : Z) : Z := t - LocalTZA rt t false.

Definition maxTime : Z := 8640000000000000.

(** [TimeClip(ToNumber(n))] *)
Definition timeClip (n : number) : option Timestamp :=
  match n with
  | NInt z => if decide (- maxTime <= z <= maxTime) then Some z else None
  | NFrac f =>
      if decide (- maxTime <= f < maxTime)
      then Some (if decide (0 <= f) then f else f + 1)
      else None
  | NNaN | NInfinity _ => None
  end.

(** The number of the local calendar day on which the instant [t] falls. *)
Definition localDay (t : Timestamp) : Z := Day (LocalTime t).

(** [d.setHours(h, m, s, ms)], the new time value of [d]: the given
    wall-clock time on the local calendar day of [d], turned back into an
    instant and clipped to the range of [Date]; an invalid date stays
    invalid. *)
Definition setHours (d : option Timestamp) (h m s ms : Z) : option Timestamp :=
  t ← d;
  timeClip (NInt (UTC (MakeDate (Day (LocalTime t)) (MakeTime h m s ms)))).

(** A [Date] that the query layer binds to a parameter: it calls
    [toISOString()], which throws on an invalid date. *)
Definition toISOString (d : option Timestamp) : M Timestamp :=
  match d with
  | Some t => mret t
  | None => throw RangeError
  end.

(** [new Date(date)] copies the date, so [setHours date ...] is the value of
    the copy after the call.  The two bounds become parameters of the
    query; the database refuses the statement when it cannot read one. *)
Definition getWorkoutsForUserByDate (userId : Uuid) (date : option Timestamp)
    : M (list WorkoutWithData) :=
  let startOfDay := setHours date 0 0 0 0 in
  let endOfDay := setHours date 23 59 59 999 in
  workoutsWithData ←
    (startOfDay ← toISOString startOfDay;
     endOfDay ← toISOString endOfDay;
     match timestamptz startOfDay, timestamptz endOfDay with
     | inr _, inr _ =>
         findMany
           (fun r => workouts.userId r = userId
                     ∧ startOfDay <= workouts.date r
                     ∧ workouts.date r <= endOfDay)
           (desc workouts.createdAt)
     | inl v, _ | inr _, inl v => logCall QueryWorkouts;; throw (DatabaseError v)
     end);
  mret workoutsWithData.

Definition getWorkoutById (workoutId userId : Uuid) : M WorkoutWithData :=
  workout ← findFirst
    (fun r => workouts.id r = workoutId ∧ workouts.userId r = userId);
  match workout with
  | None => throw NotFoundOrUnauthorized
  | Some workout => mret workout
  end.

Definition getAllWorkoutsForUser (userId : Uuid) : M (list WorkoutWithData) :=
  userWorkouts ← findMany (fun r => workouts.userId r = userId) (desc workouts.date);
  mret userWorkouts.

(** [newWorkouts[0]] is [head newWorkouts]; [None] is [undefined]. *)
Definition createWorkout (userId : Uuid) (data : NewWorkout) : M (option workouts.row) :=
  newWorkouts ← insertWorkouts userId
    (new_name data) (new_date data) (new_notes data) (new_durationMinutes data);
  mret (head newWorkouts).

Definition updateWorkout (workoutId userId : Uuid) (data : WorkoutUpdate)
    : M (option workouts.row) :=
  getWorkoutById workoutId userId;;
  updatedWorkouts ← updateWorkouts data
    (fun r => workouts.id r = workoutId ∧ workouts.userId r = userId);
  mret (head updatedWorkouts).

Definition deleteWorkout (workoutId userId : Uuid) : M workouts.row :=
  deletedWorkouts ← deleteWorkouts
    (fun r => workouts.id r = workoutId ∧ workouts.userId r = userId);
  match head deletedWorkouts with
  | None => throw NotFoundOrUnauthorized
  | Some deleted => mret deleted
  end.

(** ** [lib/auth.ts] *)

Definition TEMP_USER_EMAIL : string := "user@example.com".

(** [db.select().from(users).where(cond).limit(n)] *)
Definition selectUsers (cond : users.row -> Prop) `{forall r, Decision (cond r)}
    (limit : nat) : M (list users.row) :=
  logCall SelectUsers;;
  d ← getDb;
  mret (take limit (filter cond (tbl_users d))).

Definition getCurrentUser : M (option users.row) :=
  existingUsers ← selectUsers (fun u => users.email u = TEMP_USER_EMAIL) 1;
  if decide (0 < length existingUsers)%nat
  then mret (head existingUsers)
  else
    newUsers ← insertUsers TEMP_USER_EMAIL "testuser" "temporary_hash";
    mret (head newUsers).

(** [user.id]: reading a property of [undefined] throws. *)
Definition userIdOf (user : option users.row) : M Uuid :=
  match user with
  | Some u => mret (users.id u)
  | None => throw TypeError
  end.

(** ** Validation: the Zod schemas of the two [actions.ts] files *)

(** The values a server action can be handed in a field.  [JDate None] is an
    invalid [Date]. *)
Inductive JsValue :=
  | JUndefined
  | JNull
  | JBoolean (b : bool)
  | JNumber (n : number)
  | JString (s : string)
  | JDate (t : option Timestamp).

(** [o[k]]; a missing key reads as [undefined]. *)
Definition prop (o : gmap string JsValue) (k : string) : JsValue :=
  default JUndefined (o !! k).

Definition Schema (A : Type) : Type := list string -> JsValue -> list ZodIssue + A.

Definition isHexDigit (c : ascii) : bool :=
  let n := nat_of_ascii c in
  ((48 <=? n) && (n <=? 57) || (65 <=? n) && (n <=? 70) || (97 <=? n) && (n <=? 102))%nat.

(** Groups of hexadecimal digits of the given sizes, separated by hyphens:
    the pattern behind [z.string().uuid()] in the releases 3.23 to 3.25 of
    the library is 8-4-4-4-12.  Later releases also look at the version and
    variant digits, so the test is a parameter of the runtime and this one
    is the instance that the examples run on. *)
Fixpoint hexGroups (sizes : list nat) (s : list ascii) : bool :=
  match sizes with
  | [] => false
  | n :: rest =>
      forallb isHexDigit (take n s) && (length (take n s) =? n)%nat &&
      match rest, drop n s with
      | [], [] => true
      | _ :: _, "-"%char :: s' => hexGroups rest s'
      | _, _ => false
      end
  end.

Definition isUuid (s : string) : bool :=
  hexGroups [8; 4; 4; 4; 12]%nat (list_ascii_of_string s).

(** The checks of a string schema; [s_uuid] carries the library's test. *)
Inductive StringCheck :=
  | s_min (n : nat) (msg : option string)
  | s_max (n : nat) (msg : option string)
  | s_uuid (test : string -> bool) (msg : option string).

Definition stringCheck (p : list string) (s : string) (c : StringCheck) : list ZodIssue :=
  match c with
  | s_min n msg => if decide (String.length s < n)%nat then [mkIssue p too_small msg] else []
  | s_max n msg => if decide (n < String.length s)%nat then [mkIssue p too_big msg] else []
  | s_uuid test msg => if test s then [] else [mkIssue p invalid_string msg]
  end.

(** [z.string()] followed by its checks: a value of another type is one
    [invalid_type] issue; on a string every failing check adds its issue. *)
Definition z_string (checks : list StringCheck) : Schema string := fun p v =>
  match v with
  | JString s =>
      match concat (stringCheck p s <$> checks) with
      | [] => inr s
      | issues => inl issues
      end
  | _ => inl [mkIssue p invalid_type None]
  end.

Inductive NumberCheck :=
  | n_int
  | n_min (z : Z)
  | n_max (z : Z).

Definition numLt (n : number) (z : Z) : bool :=
  match n with
  | NInt x => bool_decide (x < z)
  | NFrac f => bool_decide (f < z)
  | NNaN => false
  | NInfinity negative => negative
  end.

Definition numGt (n : number) (z : Z) : bool :=
  match n with
  | NInt x => bool_decide (z < x)
  | NFrac f => bool_decide (z <= f)
  | NNaN => false
  | NInfinity negative => negb negative
  end.

Definition isInteger (n : number) : bool :=
  match n with
  | NInt _ => true
  | _ => false
  end.

Definition numberCheck (p : list string) (n : number) (c : NumberCheck) : list ZodIssue :=
  match c with
  | n_int => if isInteger n then [] else [mkIssue p invalid_type None]
  | n_min z => if numLt n z then [mkIssue p too_small None] else []
  | n_max z => if numGt n z then [mkIssue p too_big None] else []
  end.

Definition z_number (checks : list NumberCheck) : Schema number := fun p v =>
  match v with
  | JNumber NNaN => inl [mkIssue p invalid_type None]
  | JNumber n =>
      match concat (numberCheck p n <$> checks) with
      | [] => inr n
      | issues => inl issues
      end
  | _ => inl [mkIssue p invalid_type None]
  end.

(** [new Date(v)]; [None] is an invalid date. *)
Definition newDate (v : JsValue) : option Timestamp :=
  match v with
  | JUndefined => None
  | JNull => Some 0
  | JBoolean b => Some (if b then 1 else 0)
  | JNumber n => timeClip n
  | JString s => Date_parse rt s
  | JDate t => t
  end.

Definition z_coerce_date : Schema Timestamp := fun p v =>
  match newDate v with
  | Some t => inr t
  | None => inl [mkIssue p invalid_date None]
  end.

Definition optional {A} (s : Schema A) : Schema (option A) := fun p v =>
  match v with
  | JUndefined => inr None
  | _ => match s p v with inl issues => inl issues | inr a => inr (Some a) end
  end.

Inductive nullable (A : Type) :=
  | null
  | notNull (a : A).
Arguments null {A}.
Arguments notNull {A} a.

Definition z_nullable {A} (s : Schema A) : Schema (nullable A) := fun p v =>
  match v with
  | JNull => inr null
  | _ => match s p v with inl issues => inl issues | inr a => inr (notNull a) end
  end.

Definition field {A} (s : Schema A) (k : string) (input : gmap string JsValue)
    : list ZodIssue + A :=
  s [k] (prop input k).

Definition issuesOf {A} (r : list ZodIssue + A) : list ZodIssue :=
  match r with
  | inl issues => issues
  | inr _ => []
  end.

(** [schema.parse(input)] *)
Definition parse {A} (r : list ZodIssue + A) : M A :=
  match r with
  | inr a => mret a
  | inl issues => throw (ZodError issues)
  end.

Definition createWorkoutSchema (input : gmap string JsValue) : list ZodIssue + NewWorkout :=
  let name := field (z_string [s_min 1 (Some "Name is required"); s_max 255 None]) "name" input in
  let date := field z_coerce_date "date" input in
  let notes := field (optional (z_string [s_max 1000 None])) "notes" input in
  let durationMinutes :=
    field (optional (z_number [n_int; n_min 1; n_max 600])) "durationMinutes" input in
  match name, date, notes, durationMinutes with
  | inr n, inr d, inr t, inr m => inr (mkNew n d t m)
  | _, _, _, _ =>
      inl (issuesOf name ++ issuesOf date ++ issuesOf notes ++ issuesOf durationMinutes)
  end.

Record ValidatedUpdate := mkValidated {
  v_workoutId : string;
  v_name : option string;
  v_date : option Timestamp;
  v_notes : option string;
  v_durationMinutes : nullable (option number) }.

Definition updateWorkoutSchema (input : gmap string JsValue)
    : list ZodIssue + ValidatedUpdate :=
  let workoutId :=
    field (z_string [s_uuid (zod_uuid rt) (Some "Invalid workout ID")]) "workoutId" input in
  let name :=
    field (optional (z_string [s_min 1 (Some "Name is required"); s_max 255 None]))
      "name" input in
  let date := field (optional z_coerce_date) "date" input in
  let notes := field (optional (z_string [s_max 1000 None])) "notes" input in
  let durationMinutes :=
    field (z_nullable (optional (z_number [n_int; n_min 1; n_max 600])))
      "durationMinutes" input in
  match workoutId, name, date, notes, durationMinutes with
  | inr i, inr n, inr d, inr t, inr m => inr (mkValidated i n d t m)
  | _, _, _, _, _ =>
      inl (issuesOf workoutId ++ issuesOf name ++ issuesOf date ++ issuesOf notes
           ++ issuesOf durationMinutes)
  end.

(** ** The server actions *)

Definition createWorkoutAction (input : gmap string JsValue) : M (option workouts.row) :=
  validated ← parse (createWorkoutSchema input);
  user ← getCurrentUser;
  userId ← userIdOf user;
  workout ← createWorkout userId validated;
  revalidatePath "/dashboard";;
  mret workout.

(** [x ?? undefined] *)
Definition orUndefined {A} (x : nullable (option A)) : option A :=
  match x with
  | null => None
  | notNull a => a
  end.

Definition updateWorkoutAction (input : gmap string JsValue) : M (option workouts.row) :=
  validated ← parse (updateWorkoutSchema input);
  user ← getCurrentUser;
  userId ← userIdOf user;
  let workoutId := v_workoutId validated in
  let cleanedData :=
    mkUpd (v_name validated) (v_date validated) (v_notes validated)
      (orUndefined (v_durationMinutes validated)) in
  workout ← updateWorkout workoutId userId cleanedData;
  revalidatePath "/dashboard";;
  revalidatePath ("/dashboard/workout/" +:+ workoutId);;
  mret workout.

End Helpers.

Arguments null {A}.
Arguments notNull {A} a.

(** ** Integrity of a stored database

    The constraints that the database itself maintains: the primary key of
    [workouts] and the three NOT NULL foreign keys. *)

Record wfDb (d : Db) : Prop := mkWf {
  pk_workouts : NoDup (workouts.id <$> tbl_workouts d);
  fk_workouts_user :
    forall r, r ∈ tbl_workouts d -> workouts.userId r ∈ users.id <$> tbl_users d;
  fk_exercises_workout :
    forall e, e ∈ tbl_exercises d -> exercises.workoutId e ∈ workouts.id <$> tbl_workouts d;
  fk_sets_exercise :
    forall s, s ∈ tbl_sets d -> sets.exerciseId s ∈ exercises.id <$> tbl_exercises d }.

#[export] Instance wfDb_dec d : Decision (wfDb d).
Proof.
  destruct (decide
    (NoDup (workouts.id <$> tbl_workouts d)
     ∧ Forall (fun r => workouts.userId r ∈ users.id <$> tbl_users d) (tbl_workouts d)
     ∧ Forall (fun e => exercises.workoutId e ∈ workouts.id <$> tbl_workouts d)
         (tbl_exercises d)
     ∧ Forall (fun s => sets.exerciseId s ∈ exercises.id <$> tbl_exercises d)
         (tbl_sets d))) as [Hyes|Hno]; [left|right].
  - destruct Hyes as (Hpk & Hfu & Hfe & Hfs).
    constructor; [exact Hpk | | | ]; now apply Forall_forall.
  - intros [Hpk Hfu Hfe Hfs]. apply Hno. rewrite !Forall_forall. auto.
Defined.

(** ** The bounds of the validation layer, as the specification words them *)

(** Workout create: name 1 to 255 characters, required; date coercible to a
    date, required; notes at most 1000 characters, optional;
    durationMinutes an integer from 1 to 600, optional. *)
Definition createBounds (rt : Runtime) (input : gmap string JsValue) : Prop :=
  (exists n, prop input "name" = JString n ∧ (1 <= String.length n <= 255)%nat)
  ∧ is_Some (newDate rt (prop input "date"))
  ∧ (prop input "notes" = JUndefined
     ∨ exists s, prop input "notes" = JString s ∧ (String.length s <= 1000)%nat)
  ∧ (prop input "durationMinutes" = JUndefined
     ∨ exists z, prop input "durationMinutes" = JNumber (NInt z) ∧ 1 <= z <= 600).

(** The world after [insertWorkouts] has sent its statement, with [rows]
    as the workouts table. *)
Definition afterInsert (w : World) (rows : list workouts.row) : World :=
  mkWorld (mkDb (tbl_users (db w)) rows (tbl_exercises (db w)) (tbl_sets (db w)))
    (S (uuidsDrawn w)) (S (clockReads w)) (calls w ++ [InsertWorkouts]) (revalidated w).

(** The world after [getCurrentUser] found no user and sent its insert, with
    [rows] as the users table. *)
Definition afterProvision (w : World) (rows : list users.row) : World :=
  mkWorld (mkDb rows (tbl_workouts (db w)) (tbl_exercises (db w)) (tbl_sets (db w)))
    (S (uuidsDrawn w)) (S (clockReads w)) (calls w ++ [SelectUsers; InsertUsers])
    (revalidated w).

(** The row that [insertWorkouts] builds: identifier and both timestamps
    come from the database defaults. *)
Definition insertedRow (rt : Runtime) (w : World) (userId : Uuid) (name : string)
    (date : Timestamp) (notes : option string) (minutes : option Z) : workouts.row :=
  workouts.mk (gen_random_uuid rt (uuidsDrawn w)) userId name date notes minutes
    (clock rt (clockReads w)) (clock rt (clockReads w)).

(** The world after [deleteWorkouts] has sent its statement and the
    database has become [d]. *)
Definition afterDelete (w : World) (d : Db) : World :=
  mkWorld d (uuidsDrawn w) (clockReads w) (calls w ++ [DeleteWorkouts]) (revalidated w).

(** ** The effect of an update, as the specification words it

    [new] is [old] with the supplied fields replaced and [updatedAt] set to
    [now]; the identifier, the owner, [createdAt] and every field that was
    not supplied are as in [old].  A supplied name is replaced by what the
    [varchar(255)] column keeps of it. *)
Definition updatedFrom (data : WorkoutUpdate) (now : Timestamp)
    (old new : workouts.row) : Prop :=
  workouts.id new = workouts.id old
  ∧ workouts.userId new = workouts.userId old
  ∧ workouts.createdAt new = workouts.createdAt old
  ∧ workouts.updatedAt new = now
  ∧ match upd_name data with
    | Some n => varchar workouts_name_length n = inr (workouts.name new)
    | None => workouts.name new = workouts.name old
    end
  ∧ match upd_date data with
    | Some d => workouts.date new = d
    | None => workouts.date new = workouts.date old
    end
  ∧ match upd_notes data with
    | Some t => workouts.notes new = Some t
    | None => workouts.notes new = workouts.notes old
    end
  ∧ match upd_durationMinutes data with
    | Some n => exists z, n = NInt z ∧ workouts.durationMinutes new = Some z
    | None => workouts.durationMinutes new = workouts.durationMinutes old
    end.

(** The object a caller would hand to the action to submit [data]. *)
Definition rawOf (data : NewWorkout) : gmap string JsValue :=
  <["name" := JString (new_name data)]>
    (<["date" := JDate (Some (new_date data))]>
       (<["notes" := from_option JString JUndefined (new_notes data)]>
          (<["durationMinutes" := from_option JNumber JUndefined (new_durationMinutes data)]>
             ∅))).

(** The world after [updateWorkouts] has read the clock and sent its
    statement, with [rows] as the workouts table. *)
Definition afterUpdate (w : World) (rows : list workouts.row) : World :=
  mkWorld (mkDb (tbl_users (db w)) rows (tbl_exercises (db w)) (tbl_sets (db w)))
    (uuidsDrawn w) (S (clockReads w)) (calls w ++ [UpdateWorkouts]) (revalidated w).

(** ** The local calendar day, as the specification words it

    A zone has a fixed offset when its [LocalTZA] is constant. *)
Definition fixedOffset (rt : Runtime) (offset : Z) : Prop :=
  forall t isUTC, LocalTZA rt t isUTC = offset.

(** The local day with number [D] is regular in the zone of the runtime
    when the clock reads 00:00:00.000 and 23:59:59.999 of that day at the
    instants that ECMAScript assigns to these wall-clock times, reads one
    millisecond less and one millisecond more at the neighbouring instants
    (the offset does not change at either edge of the day), and the local
    calendar never steps back: a later instant falls on the same or on a
    later local day.  The offset may change in the course of the day. *)
Definition regularDay (rt : Runtime) (D : Z) : Prop :=
  let first := MakeDate D (MakeTime 0 0 0 0) in
  let last := MakeDate D (MakeTime 23 59 59 999) in
  LocalTime rt (UTC rt first) = first
  ∧ LocalTime rt (UTC rt first - 1) = first - 1
  ∧ LocalTime rt (UTC rt last) = last
  ∧ LocalTime rt (UTC rt last + 1) = last + 1
  ∧ forall a b, a <= b -> localDay rt a <= localDay rt b.

(** ** A small database used to run the theorems on

    Two users; Alice's "Leg Day" has two exercises with three sets each,
    Bob has one workout late on the same local day. *)

Module Demo.

Local Open Scope string_scope.

Definition aliceId : Uuid := "a11ce000-0000-4000-8000-000000000001".
Definition bobId : Uuid := "b0b00000-0000-4000-8000-000000000002".
Definition legDayId : Uuid := "11111111-1111-4111-8111-111111111111".
Definition bobsId : Uuid := "22222222-2222-4222-8222-222222222222".
Definition squatId : Uuid := "33333333-3333-4333-8333-333333333331".
Definition lungeId : Uuid := "33333333-3333-4333-8333-333333333332".
Definition unusedId : Uuid := "99999999-9999-4999-8999-999999999999".

(** 2025-01-17T00:00:00.000 in a zone one hour ahead of UTC. *)
Definition midnight : Timestamp := 1737068400000.

Definition alice : users.row :=
  users.mk aliceId "user@example.com" "testuser" "temporary_hash" 1000 1000.
Definition bob : users.row :=
  users.mk bobId "bob@example.com" "bob" "hash" 2000 2000.

Definition legDay : workouts.row :=
  workouts.mk legDayId aliceId "Leg Day" (midnight + 36000000) None (Some 45) 5000 5000.
Definition bobsWorkout : workouts.row :=
  workouts.mk bobsId bobId "Late pull" (midnight + 86399999) (Some "tired") None 6000 6000.

Definition squat : exercises.row :=
  exercises.mk squatId legDayId None "Squat" (Some "compound") 1 None 5001 5001.
Definition lunge : exercises.row :=
  exercises.mk lungeId legDayId None "Lunge" None 2 None 5002 5002.

Definition aSet (id exerciseId : Uuid) (n reps kg : Z) : sets.row :=
  sets.mk id exerciseId n reps (Some (kg * 100)) None None false false None 5003 5003.

Definition allSets : list sets.row :=
  [ aSet "44444444-4444-4444-8444-444444444443" squatId 3 5 120;
    aSet "44444444-4444-4444-8444-444444444441" squatId 1 8 60;
    aSet "44444444-4444-4444-8444-444444444442" squatId 2 6 100;
    aSet "55555555-5555-4555-8555-555555555551" lungeId 1 10 20;
    aSet "55555555-5555-4555-8555-555555555552" lungeId 2 10 20;
    aSet "55555555-5555-4555-8555-555555555553" lungeId 3 10 20 ].

Definition store : Db := mkDb [alice; bob] [legDay; bobsWorkout] [lunge; squat] allSets.

Definition world : World := mkWorld store 0 0 [] [].

(** The database of the examples reads the instants of the years 0001 to
    9999, which [toISOString()] writes with a four-digit year. *)
Definition fourDigitYear (t : Timestamp) : option PgViolation :=
  if decide (-62135596800000 <= t <= 253402300799999) then None
  else Some invalid_time_zone_displacement_value.

(** The zone of the examples is one hour ahead of UTC all year. *)
Definition runtime : Runtime :=
  mkRuntime
    (fun n => match n with
              | O => "66666666-6666-4666-8666-666666666661"
              | S O => "66666666-6666-4666-8666-666666666662"
              | _ => "66666666-6666-4666-8666-666666666663"
              end)
    (fun n => midnight + 40000000 + Z.of_nat n)
    (fun _ => None)
    (fun _ _ => 3600000)
    fourDigitYear
    isUuid
    true.

(** A name that the schema accepts and the database refuses. *)
Definition nulName : string := String "L" (String "000" (String "g" EmptyString)).

End Demo.

(** ** A zone with daylight saving time

    One hour ahead of UTC until 2025-03-30T01:00:00Z and two hours ahead
    from then on: the local day of the change, March 30, starts at
    2025-03-29T23:00:00Z and has 23 hours.  [zone] reads a wall-clock time
    that the change skips with the offset before the change. *)

Module DemoDst.

Local Open Scope string_scope.

Definition change : Timestamp := 1743296400000.

Definition zone (t : Z) (isUTC : bool) : Z :=
  if isUTC
  then (if decide (t < change) then 3600000 else 7200000)
  else (if decide (t < change + 7200000) then 3600000 else 7200000).

Definition runtime : Runtime :=
  mkRuntime (gen_random_uuid Demo.runtime) (clock Demo.runtime) (fun _ => None)
    zone Demo.fourDigitYear isUuid true.

Definition startOfDay : Timestamp := 1743289200000.
Definition endOfDay : Timestamp := 1743371999999.


Definition workoutAt (id : Uuid) (date createdAt : Timestamp) : workouts.row :=
  workouts.mk id Demo.aliceId "Run" date None None createdAt createdAt.

Definition first : workouts.row :=
  workoutAt "77777777-7777-4777-8777-777777777771" startOfDay 7001.
Definition last : workouts.row :=
  workoutAt "77777777-7777-4777-8777-777777777772" endOfDay 7002.
Definition dayBefore : workouts.row :=
  workoutAt "77777777-7777-4777-8777-777777777773" (startOfDay - 1) 7003.
Definition dayAfter : workouts.row :=
  workoutAt "77777777-7777-4777-8777-777777777774" (endOfDay + 1) 7004.

Definition store : Db := mkDb [Demo.alice] [first; last; dayBefore; dayAfter] [] [].

Definition world : World := mkWorld store 0 0 [] [].

End DemoDst.

(** ** More of [lib/auth.ts] *)

(** [results[0] || null]; [None] is [null]. *)
Definition getUserById (userId : Uuid) : M (option users.row) :=
  results ← selectUsers (fun u => users.id u = userId) 1;
  mret (head results).

(** ** [try { ... } catch { ... }] *)

Definition tryCatch {A} (body : M A) (handler : error -> M A) : M A := fun w =>
  match body w with
  | (Returned a, w') => (Returned a, w')
  | (Thrown e, w') => handler e w'
  end.

(** ** The edit page, [app/dashboard/workout/[workoutId]/page.tsx]

    [notFound()] ends the rendering with the 404 page; it is the outcome
    [NotFoundPage].  [workoutId] is the segment of the URL, any string. *)

Inductive PageResult (A : Type) :=
  | Rendered (props : A)
  | NotFoundPage.
Arguments Rendered {A} props.
Arguments NotFoundPage {A}.

Definition EditWorkoutPage (rt : Runtime) (workoutId : string)
    : M (PageResult WorkoutWithData) :=
  user ← getCurrentUser rt;
  tryCatch
    (userId ← userIdOf user;
     workout ← getWorkoutById workoutId userId;
     mret (Rendered workout))
    (fun _ => mret NotFoundPage).

(** ** The login endpoint, [app/api/auth/login/route.ts]

    Two functions of the platform are parameters: [bcrypt_compare password
    hash] is [bcrypt.compare] on two strings, and [pgText v] is the text
    under which the database driver sends the value [v] as the parameter of
    [eq(users.username, username)].  The body is [None] when
    [request.json()] rejects or yields [null], in which case the handler's
    [try] block throws before anything else; otherwise it is the parsed
    object.  [bcrypt.compare] rejects a password that is not a string. *)

Definition truthy (v : JsValue) : bool :=
  match v with
  | JUndefined | JNull => false
  | JBoolean b => b
  | JNumber (NInt z) => negb (z =? 0)
  | JNumber NNaN => false
  | JNumber _ => true
  | JString s => negb (String.eqb s "")
  | JDate _ => true
  end.

Record LoginUser := mkLoginUser {
  lu_id : Uuid;
  lu_username : string;
  lu_email : string }.

(** [NextResponse.json({ success, message, user }, { status })] *)
Record LoginResponse := mkResponse {
  res_status : Z;
  res_success : bool;
  res_message : string;
  res_user : option LoginUser }.

Section Login.

Variable bcrypt_compare : string -> string -> bool.
Variable pgText : JsValue -> string.

Definition POST (body : option (gmap string JsValue)) : M LoginResponse :=
  tryCatch
    (match body with
     | None => throw TypeError
     | Some body =>
         let username := prop body "username" in
         let password := prop body "password" in
         if negb (truthy username) || negb (truthy password)
         then mret (mkResponse 400 false "Username and password are required" None)
         else
           user ← selectUsers (fun u => users.username u = pgText username) 1;
           match user with
           | [] => mret (mkResponse 401 false "Invalid username or password" None)
           | user0 :: _ =>
               isPasswordValid ←
                 match password with
                 | JString p => mret (bcrypt_compare p (users.passwordHash user0))
                 | _ => throw TypeError
                 end;
               if negb isPasswordValid
               then mret (mkResponse 401 false "Invalid username or password" None)
               else mret (mkResponse 200 true "Login successful"
                            (Some (mkLoginUser (users.id user0) (users.username user0)
                                     (users.email user0))))
           end
     end)
    (fun _ => mret (mkResponse 500 false "An error occurred during login" None)).

End Login.

(** ** The bounds of an update, as the schema of the action words them

    As for a create, with every field optional, [null] allowed for
    durationMinutes, and a required workout identifier that passes the
    UUID test of the validation library. *)
Definition updateBounds (rt : Runtime) (input : gmap string JsValue) : Prop :=
  (exists i, prop input "workoutId" = JString i ∧ zod_uuid rt i = true)
  ∧ (prop input "name" = JUndefined
     ∨ exists n, prop input "name" = JString n ∧ (1 <= String.length n <= 255)%nat)
  ∧ (prop input "date" = JUndefined ∨ is_Some (newDate rt (prop input "date")))
  ∧ (prop input "notes" = JUndefined
     ∨ exists s, prop input "notes" = JString s ∧ (String.length s <= 1000)%nat)
  ∧ (prop input "durationMinutes" = JUndefined
     ∨ prop input "durationMinutes" = JNull
     ∨ exists z, prop input "durationMinutes" = JNumber (NInt z) ∧ 1 <= z <= 600).

(** The world with one more path marked stale. *)
Definition withPath (w : World) (p : string) : World :=
  mkWorld (db w) (uuidsDrawn w) (clockReads w) (calls w) (revalidated w ++ [p]).

(** ** A second store: the name "testuser" is taken, the stub's email is not *)

Module Demo2.

Local Open Scope string_scope.

Definition squatter : users.row :=
  users.mk Demo.bobId "someone@example.com" "testuser" "hash" 2000 2000.

Definition store : Db := mkDb [squatter] [] [] [].

Definition world : World := mkWorld store 0 0 [] [].

(** A password check for the examples: the hash is the password reversed. *)
Definition compare (password hash : string) : bool := String.eqb (String.rev password) hash.

Definition pgText (v : JsValue) : string :=
  match v with
  | JString s => s
  | _ => ""
  end.

Definition carol : users.row :=
  users.mk Demo.unusedId "carol@example.com" "carol" "terces" 3000 3000.

Definition loginWorld : World := mkWorld (mkDb [Demo.alice; carol] [] [] []) 0 0 [] [].

End Demo2.

(** * Proofs *)

Create HintDb run discriminated.

#[export] Hint Unfold mbind M_bind mret M_ret throw logCall getDb putDb
  revalidatePath drawUuid readClock findFirst findMany : run.

(** Unfold the monad and the primitives; compute only projections of worlds. *)
Ltac step :=
  autounfold with run; cbv beta iota;
  cbn [db calls uuidsDrawn clockReads revalidated withCall].

Arguments pgDeleteWorkouts : simpl never.
Arguments referentialDelete : simpl never.
Arguments toInt4Opt : simpl never.

Section ListFacts.

Context {A B : Type}.

Lemma filter_none (P : A -> Prop) `{forall x, Decision (P x)} (l : list A) :
  (forall x, x ∈ l -> ¬ P x) -> filter P l = [].
Proof.
  induction l as [|a l IH]; intros Hn; [reflexivity|].
  rewrite filter_cons. destruct (decide (P a)) as [Hp|_].
  - exfalso. apply (Hn a); [left | exact Hp].
  - apply IH. intros x Hx. apply Hn. now right.
Qed.

Lemma filter_all (P : A -> Prop) `{forall x, Decision (P x)} (l : list A) :
  (forall x, x ∈ l -> P x) -> filter P l = l.
Proof.
  induction l as [|a l IH]; intros Hall; [reflexivity|].
  rewrite filter_cons. destruct (decide (P a)) as [_|Hn].
  - f_equal. apply IH. intros x Hx. apply Hall. now right.
  - exfalso. apply Hn, Hall. left.
Qed.

Lemma NoDup_fmap_eq (f : A -> B) (l : list A) x y :
  NoDup (f <$> l) -> x ∈ l -> y ∈ l -> f x = f y -> x = y.
Proof.
  induction l as [|a l IH]; intros Hnd Hx Hy Hf.
  - inversion Hx.
  - rewrite fmap_cons in Hnd. apply NoDup_cons in Hnd as [Hnotin Hnd].
    apply elem_of_cons in Hx as [->|Hx]; apply elem_of_cons in Hy as [->|Hy].
    + reflexivity.
    + exfalso. apply Hnotin. rewrite Hf. now apply list_elem_of_fmap_2.
    + exfalso. apply Hnotin. rewrite <- Hf. now apply list_elem_of_fmap_2.
    + now apply IH.
Qed.

End ListFacts.

Lemma world_eta w :
  mkWorld (db w) (uuidsDrawn w) (clockReads w) (calls w) (revalidated w) = w.
Proof. now destruct w. Qed.

Lemma db_eta d : mkDb (tbl_users d) (tbl_workouts d) (tbl_exercises d) (tbl_sets d) = d.
Proof. now destruct d. Qed.

(** A row owned by someone else is the only row with its identifier, so
    nothing matches the pair (its id, another user). *)
Lemma no_row_for_other_user d W u :
  wfDb d -> W ∈ tbl_workouts d -> workouts.userId W ≠ u ->
  forall r, r ∈ tbl_workouts d -> ¬ (workouts.id r = workouts.id W ∧ workouts.userId r = u).
Proof.
  intros Hwf HW Hne r Hr [Hid Hu].
  assert (r = W) as -> by (eapply NoDup_fmap_eq; eauto using pk_workouts).
  contradiction.
Qed.

Lemma no_row_for_missing_id d wid u :
  wid ∉ workouts.id <$> tbl_workouts d ->
  forall r, r ∈ tbl_workouts d -> ¬ (workouts.id r = wid ∧ workouts.userId r = u).
Proof.
  intros Hmiss r Hr [Hid _]. apply Hmiss. rewrite <- Hid.
  now apply list_elem_of_fmap_2.
Qed.

Section Unmatched.

(** The three helpers when no row matches the pair [(workoutId, userId)]. *)

Variables (w : World) (workoutId userId : Uuid).

Hypothesis unmatched :
  forall r, r ∈ tbl_workouts (db w) ->
    ¬ (workouts.id r = workoutId ∧ workouts.userId r = userId).

Lemma getWorkoutById_unmatched :
  getWorkoutById workoutId userId w
  = (Thrown NotFoundOrUnauthorized, withCall w QueryWorkouts).
Proof.
  unfold getWorkoutById. step.
  rewrite (filter_none _ _ unmatched). reflexivity.
Qed.

Lemma updateWorkout_unmatched rt data :
  updateWorkout rt workoutId userId data w
  = (Thrown NotFoundOrUnauthorized, withCall w QueryWorkouts).
Proof.
  unfold updateWorkout.
  change (getWorkoutById workoutId userId ≫= ?k)
    with (fun w0 => match getWorkoutById workoutId userId w0 with
                    | (Returned a, w') => k a w'
                    | (Thrown e, w') => (Thrown e, w')
                    end).
  cbv beta. now rewrite getWorkoutById_unmatched.
Qed.

Lemma pgDelete_unmatched onE onS :
  pgDeleteWorkouts onE onS
    (fun r => workouts.id r = workoutId ∧ workouts.userId r = userId) (db w)
  = inr ([], db w).
Proof.
  unfold pgDeleteWorkouts. rewrite (filter_none _ _ unmatched). simpl.
  assert (Hkeep : forall (R : Type) (fk : R -> Uuid) a (rows : list R),
            referentialDelete a fk [] rows = inr rows).
  { intros R fk a rows. unfold referentialDelete.
    assert (Forall (fun r => fk r ∉ []) rows)
      by (apply Forall_forall; intros; apply not_elem_of_nil).
    destruct a.
    - f_equal. apply filter_all. intros; apply not_elem_of_nil.
    - now rewrite decide_True.
    - now rewrite decide_True. }
  rewrite Hkeep.
  replace (if onE is cascade then _ else _) with (@nil Uuid).
  2:{ destruct onE; [|reflexivity..].
      rewrite filter_none; [reflexivity|]. intros; apply not_elem_of_nil. }
  rewrite Hkeep. do 2 f_equal.
  rewrite filter_all by (intros; now apply unmatched).
  apply db_eta.
Qed.

Lemma deleteWorkout_unmatched :
  deleteWorkout workoutId userId w
  = (Thrown NotFoundOrUnauthorized, withCall w DeleteWorkouts).
Proof.
  unfold deleteWorkout, deleteWorkouts. step.
  rewrite pgDelete_unmatched. step. reflexivity.
Qed.

End Unmatched.

Lemma wfDb_demo : wfDb Demo.store.
Proof. apply (bool_decide_unpack _). vm_compute. exact I. Qed.

(** C1. A workout owned by [U1] is invisible to every other user [U2]:
    [getWorkoutById], [updateWorkout] and [deleteWorkout] called with the
    workout's id and [U2] each throw the not-found-or-unauthorized error and
    leave the store as it was; the outcome (error and resulting world) is the
    same as for an identifier that no stored workout has. *)
Theorem cross_user_access_is_not_found rt (w : World) (W : workouts.row)
    (U1 U2 missing : Uuid) (data : WorkoutUpdate) :
  wfDb (db w) ->
  W ∈ tbl_workouts (db w) ->
  workouts.userId W = U1 ->
  U1 ≠ U2 ->
  missing ∉ workouts.id <$> tbl_workouts (db w) ->
  getWorkoutById (workouts.id W) U2 w
    = (Thrown NotFoundOrUnauthorized, withCall w QueryWorkouts)
  ∧ updateWorkout rt (workouts.id W) U2 data w
    = (Thrown NotFoundOrUnauthorized, withCall w QueryWorkouts)
  ∧ deleteWorkout (workouts.id W) U2 w
    = (Thrown NotFoundOrUnauthorized, withCall w DeleteWorkouts)
  ∧ getWorkoutById missing U2 w = getWorkoutById (workouts.id W) U2 w
  ∧ updateWorkout rt missing U2 data w = updateWorkout rt (workouts.id W) U2 data w
  ∧ deleteWorkout missing U2 w = deleteWorkout (workouts.id W) U2 w.
Proof.
  intros Hwf HW HU1 Hne Hmiss. subst U1.
  pose proof (no_row_for_other_user _ _ _ Hwf HW Hne) as Hother.
  pose proof (no_row_for_missing_id _ _ U2 Hmiss) as Hnone.
  rewrite !(getWorkoutById_unmatched _ _ _ Hother),
    !(updateWorkout_unmatched _ _ _ Hother),
    !(deleteWorkout_unmatched _ _ _ Hother),
    (getWorkoutById_unmatched _ _ _ Hnone),
    (updateWorkout_unmatched _ _ _ Hnone),
    (deleteWorkout_unmatched _ _ _ Hnone).
  repeat split.
Qed.

Lemma cross_user_access_witness :
  getWorkoutById Demo.legDayId Demo.bobId Demo.world
    = (Thrown NotFoundOrUnauthorized, withCall Demo.world QueryWorkouts)
  ∧ deleteWorkout Demo.unusedId Demo.bobId Demo.world
    = deleteWorkout Demo.legDayId Demo.bobId Demo.world.
Proof.
  pose proof (cross_user_access_is_not_found Demo.runtime Demo.world Demo.legDay
                Demo.aliceId Demo.bobId Demo.unusedId
                (mkUpd (Some "Stolen"%string) None None None)) as H.
  destruct H as (Hget & _ & _ & _ & _ & Hdel).
  - exact wfDb_demo.
  - vm_compute. left.
  - reflexivity.
  - vm_compute. discriminate.
  - apply (bool_decide_unpack _). vm_compute. exact I.
  - split; [exact Hget | exact Hdel].
Defined.

(** ** What the database takes *)

Lemma text_in_inr s s' : text_in s = inr s' <-> hasNul s = false ∧ s' = s.
Proof.
  unfold text_in. destruct (hasNul s); split; try discriminate.
  - intros [? _]. discriminate.
  - intros [= <-]. auto.
  - intros [_ ->]. reflexivity.
Qed.

Lemma optIn_text_inr o o' :
  optIn text_in o = inr o' <-> from_option hasNul false o = false ∧ o' = o.
Proof.
  destruct o as [s|]; cbn [optIn from_option].
  - unfold text_in. destruct (hasNul s); split; try discriminate.
    + intros [? _]. discriminate.
    + intros [= <-]. auto.
    + intros [_ ->]. reflexivity.
  - split; [intros [= <-]; auto | intros [_ ->]; reflexivity].
Qed.

Lemma timestamptz_inr rt t t' :
  timestamptz rt t = inr t' <-> timestamptz_in rt t = None ∧ t' = t.
Proof.
  unfold timestamptz. destruct (timestamptz_in rt t); split; try discriminate.
  - intros [? _]. discriminate.
  - intros [= <-]. auto.
  - intros [_ ->]. reflexivity.
Qed.

Lemma optIn_timestamptz_inr rt o o' :
  optIn (timestamptz rt) o = inr o'
  <-> from_option (timestamptz_in rt) None o = None ∧ o' = o.
Proof.
  destruct o as [t|]; cbn [optIn from_option].
  - unfold timestamptz. destruct (timestamptz_in rt t); split; try discriminate.
    + intros [? _]. discriminate.
    + intros [= <-]. auto.
    + intros [_ ->]. reflexivity.
  - split; [intros [= <-]; auto | intros [_ ->]; reflexivity].
Qed.

Lemma varchar_fits n s : fitsVarchar n s -> varchar n s = inr s.
Proof. intros Hfit. unfold varchar. now rewrite decide_True. Qed.


Lemma workoutsValues_inr rt name date notes durationMinutes name' minutes :
  workoutsValues rt name date notes durationMinutes = inr (name', minutes)
  <-> hasNul name = false
      ∧ timestamptz_in rt date = None
      ∧ from_option hasNul false notes = false
      ∧ toInt4Opt durationMinutes = inr minutes
      ∧ varchar workouts_name_length name = inr name'.
Proof.
  unfold workoutsValues. cbn [mbind Pg_bind mret Pg_ret].
  destruct (text_in name) as [v|x] eqn:E1.
  { split; [discriminate|]. intros (Hn & _). 
    assert (text_in name = inr name) by (apply text_in_inr; auto). congruence. }
  apply text_in_inr in E1 as [E1 _].
  destruct (timestamptz rt date) as [v|y] eqn:E2.
  { split; [discriminate|]. intros (_ & Hd & _).
    assert (timestamptz rt date = inr date) by (apply timestamptz_inr; auto). congruence. }
  apply timestamptz_inr in E2 as [E2 _].
  destruct (optIn text_in notes) as [v|z] eqn:E3.
  { split; [discriminate|]. intros (_ & _ & Hn & _).
    assert (optIn text_in notes = inr notes) by (apply optIn_text_inr; auto). congruence. }
  apply optIn_text_inr in E3 as [E3 _].
  destruct (toInt4Opt durationMinutes) as [v|m]; [split; [discriminate|intros (_ & _ & _ & ? & _); discriminate]|].
  destruct (varchar workouts_name_length name) as [v|n'];
    [split; [discriminate|intros (_ & _ & _ & _ & ?); discriminate]|].
  split.
  - intros [= <- <-]. auto.
  - intros (_ & _ & _ & [= <-] & [= <-]). reflexivity.
Qed.

Lemma updateValues_inr rt data now name minutes :
  updateValues rt data now = inr (name, minutes)
  <-> from_option hasNul false (upd_name data) = false
      ∧ from_option (timestamptz_in rt) None (upd_date data) = None
      ∧ from_option hasNul false (upd_notes data) = false
      ∧ toInt4Opt (upd_durationMinutes data) = inr minutes
      ∧ timestamptz_in rt now = None
      ∧ optIn (varchar workouts_name_length) (upd_name data) = inr name.
Proof.
  unfold updateValues. cbn [mbind Pg_bind mret Pg_ret].
  destruct (optIn text_in (upd_name data)) as [v|x] eqn:E1.
  { split; [discriminate|]. intros (Hn & _).
    assert (optIn text_in (upd_name data) = inr (upd_name data))
      by (apply optIn_text_inr; auto). congruence. }
  apply optIn_text_inr in E1 as [E1 _].
  destruct (optIn (timestamptz rt) (upd_date data)) as [v|y] eqn:E2.
  { split; [discriminate|]. intros (_ & Hd & _).
    assert (optIn (timestamptz rt) (upd_date data) = inr (upd_date data))
      by (apply optIn_timestamptz_inr; auto). congruence. }
  apply optIn_timestamptz_inr in E2 as [E2 _].
  destruct (optIn text_in (upd_notes data)) as [v|z] eqn:E3.
  { split; [discriminate|]. intros (_ & _ & Hn & _).
    assert (optIn text_in (upd_notes data) = inr (upd_notes data))
      by (apply optIn_text_inr; auto). congruence. }
  apply optIn_text_inr in E3 as [E3 _].
  destruct (toInt4Opt (upd_durationMinutes data)) as [v|m];
    [split; [discriminate|intros (_ & _ & _ & ? & _); discriminate]|].
  destruct (timestamptz rt now) as [v|t] eqn:E4.
  { split; [discriminate|]. intros (_ & _ & _ & _ & Hd & _).
    assert (timestamptz rt now = inr now) by (apply timestamptz_inr; auto). congruence. }
  apply timestamptz_inr in E4 as [E4 _].
  destruct (optIn (varchar workouts_name_length) (upd_name data)) as [v|n'];
    [split; [discriminate|intros (_ & _ & _ & _ & _ & ?); discriminate]|].
  split.
  - intros [= <- <-]. auto 10.
  - intros (_ & _ & _ & [= <-] & _ & [= <-]). reflexivity.
Qed.

(** ** [updateWorkout], step by step *)

Lemma updateWorkout_unfold rt workoutId userId data w :
  updateWorkout rt workoutId userId data w =
  match head (filter (fun r => workouts.id r = workoutId ∧ workouts.userId r = userId)
                (tbl_workouts (db w))) with
  | None => (Thrown NotFoundOrUnauthorized, withCall w QueryWorkouts)
  | Some _ =>
      match updateWorkouts rt data
              (fun r => workouts.id r = workoutId ∧ workouts.userId r = userId)
              (withCall w QueryWorkouts) with
      | (Returned l, w') => (Returned (head l), w')
      | (Thrown e, w') => (Thrown e, w')
      end
  end.
Proof.
  unfold updateWorkout, getWorkoutById. step.
  destruct (head _) as [r|]; cbn [fmap option_fmap option_map]; [|reflexivity].
  destruct (updateWorkouts _ _ _ _) as [[l|e] w']; reflexivity.
Qed.

Lemma updateWorkouts_cases rt data (cond : workouts.row -> Prop)
    `{forall r, Decision (cond r)} w :
  let now := clock rt (clockReads w) in
  (emptySetThrows rt = true ∧ noValues data
   ∧ updateWorkouts rt data cond w = (Thrown (Error "No values to set"), w))
  ∨ (exists v,
      updateWorkouts rt data cond w
      = (Thrown (DatabaseError v), afterUpdate w (tbl_workouts (db w))))
  ∨ (exists name minutes,
      updateValues rt data now = inr (name, minutes)
      ∧ updateWorkouts rt data cond w
        = (Returned (applySet (asStored data name) minutes now
                       <$> filter cond (tbl_workouts (db w))),
           afterUpdate w
             ((fun r => if decide (cond r)
                        then applySet (asStored data name) minutes now r else r)
                <$> tbl_workouts (db w)))).
Proof.
  intros now. unfold updateWorkouts.
  destruct (decide (emptySetThrows rt = true ∧ noValues data)) as [[He Hn]|_].
  { left. auto. }
  right. step. fold now.
  destruct (updateValues rt data now) as [v|[name minutes]].
  { left. exists v. unfold afterUpdate. now rewrite db_eta. }
  right. exists name, minutes. split; reflexivity.
Qed.

Lemma updateWorkout_cases rt workoutId userId data w :
  let owned := fun r => workouts.id r = workoutId ∧ workouts.userId r = userId in
  let now := clock rt (clockReads w) in
  let w1 := withCall w QueryWorkouts in
  (head (filter owned (tbl_workouts (db w))) = None
   ∧ updateWorkout rt workoutId userId data w = (Thrown NotFoundOrUnauthorized, w1))
  ∨ (exists old,
      head (filter owned (tbl_workouts (db w))) = Some old
      ∧ ((emptySetThrows rt = true ∧ noValues data
          ∧ updateWorkout rt workoutId userId data w
            = (Thrown (Error "No values to set"), w1))
         ∨ (exists v,
             updateWorkout rt workoutId userId data w
             = (Thrown (DatabaseError v), afterUpdate w1 (tbl_workouts (db w))))
         ∨ (exists name minutes,
             updateValues rt data now = inr (name, minutes)
             ∧ updateWorkout rt workoutId userId data w
               = (Returned (Some (applySet (asStored data name) minutes now old)),
                  afterUpdate w1
                    ((fun r => if decide (owned r)
                               then applySet (asStored data name) minutes now r else r)
                       <$> tbl_workouts (db w)))))).
Proof.
  intros owned now w1. rewrite updateWorkout_unfold. fold owned. fold w1.
  destruct (head (filter owned (tbl_workouts (db w)))) as [old|] eqn:Hhead.
  2:{ left. auto. }
  right. exists old. split; [reflexivity|].
  destruct (updateWorkouts_cases rt data owned w1)
    as [(He & Hn & ->)|[(v & ->)|(name & minutes & Hv & ->)]].
  - left. auto.
  - right. left. now exists v.
  - right. right. exists name, minutes. split; [exact Hv|].
    subst w1. cbn [db withCall clockReads]. fold now.
    destruct (filter owned (tbl_workouts (db w))) as [|x l]; [discriminate|].
    injection Hhead as ->. reflexivity.
Qed.

Lemma head_filter_elem {A} (P : A -> Prop) `{forall x, Decision (P x)} l x :
  head (filter P l) = Some x -> x ∈ l ∧ P x.
Proof.
  intros Hh. apply head_Some_elem_of in Hh.
  now apply list_elem_of_filter in Hh as [? ?].
Qed.

Lemma head_filter_none {A} (P : A -> Prop) `{forall x, Decision (P x)} l :
  head (filter P l) = None -> forall x, x ∈ l -> ¬ P x.
Proof.
  intros Hh x Hx HP.
  assert (Hin : x ∈ filter P l) by (apply list_elem_of_filter; auto).
  destruct (filter P l); [inversion Hin | discriminate].
Qed.

(** C4. [updateWorkout] looks the pair [(workoutId, userId)] up before it
    writes: the only database calls it makes are the ownership query, then
    possibly the update right after it, and the update is sent only when the
    query found a row.  The update's own predicate carries the same pair, so
    a row outside it is never rewritten.  When no row matches, the call
    throws the not-found-or-unauthorized error and the store is unchanged. *)
Theorem updateWorkout_reverifies_ownership rt (w : World)
    (workoutId userId : Uuid) (data : WorkoutUpdate) :
  let owned := fun r => workouts.id r = workoutId ∧ workouts.userId r = userId in
  let w' := snd (updateWorkout rt workoutId userId data w) in
  (calls w' = calls w ++ [QueryWorkouts]
   ∨ (calls w' = calls w ++ [QueryWorkouts; UpdateWorkouts]
      ∧ exists r, r ∈ tbl_workouts (db w) ∧ owned r))
  ∧ Forall2 (fun r r' => ¬ owned r -> r' = r)
      (tbl_workouts (db w)) (tbl_workouts (db w'))
  ∧ ((forall r, r ∈ tbl_workouts (db w) -> ¬ owned r) ->
     updateWorkout rt workoutId userId data w
       = (Thrown NotFoundOrUnauthorized, withCall w QueryWorkouts)
     ∧ db w' = db w).
Proof.
  intros owned w'. subst w'.
  assert (Hsame : Forall2 (fun r r' : workouts.row => ¬ owned r -> r' = r)
                    (tbl_workouts (db w)) (tbl_workouts (db w))).
  { apply Forall_Forall2_diag, Forall_forall. auto. }
  split; [|split].
  - destruct (updateWorkout_cases rt workoutId userId data w)
      as [(_ & ->)|(old & Hold & [(_ & _ & ->)|[(v & ->)|(n & m & _ & ->)]])];
      cbn [snd calls withCall afterUpdate]; auto;
      right; (split; [now rewrite <- app_assoc|]);
      exists old; now apply head_filter_elem in Hold.
  - destruct (updateWorkout_cases rt workoutId userId data w)
      as [(_ & ->)|(old & Hold & [(_ & _ & ->)|[(v & ->)|(n & m & _ & ->)]])];
      cbn [snd db withCall afterUpdate tbl_workouts]; auto.
    apply Forall2_fmap_r, Forall_Forall2_diag, Forall_forall.
    intros r _ Hr. fold owned. now rewrite decide_False.
  - intros Hnone. rewrite (updateWorkout_unmatched _ _ _ Hnone). auto.
Qed.

Lemma updateWorkout_reverifies_witness :
  updateWorkout Demo.runtime Demo.legDayId Demo.bobId
    (mkUpd (Some "Stolen"%string) None None None) Demo.world
  = (Thrown NotFoundOrUnauthorized, withCall Demo.world QueryWorkouts).
Proof.
  apply (updateWorkout_reverifies_ownership Demo.runtime Demo.world
           Demo.legDayId Demo.bobId).
  apply (proj1 (Forall_forall _ _)).
  apply (bool_decide_unpack _). vm_compute. exact I.
Defined.

(** ** The schemas, field by field *)

Lemma z_string_min_max_inr lo hi m1 m2 p v s :
  z_string [s_min lo m1; s_max hi m2] p v = inr s
  <-> v = JString s ∧ (lo <= String.length s <= hi)%nat.
Proof.
  unfold z_string. destruct v as [| |b|n|s'|t]; try (split; [discriminate|intros [? _]; discriminate]).
  cbn [fmap list_fmap concat stringCheck app].
  destruct (decide (String.length s' < lo)%nat), (decide (hi < String.length s')%nat);
    cbn [app]; split; try discriminate;
    try (intros [[= ->] ?]; lia).
  - intros [= ->]. split; [reflexivity|lia].
  - intros [[= ->] _]. reflexivity.
Qed.

Lemma z_string_max_inr hi m p v s :
  z_string [s_max hi m] p v = inr s <-> v = JString s ∧ (String.length s <= hi)%nat.
Proof.
  unfold z_string. destruct v as [| |b|n|s'|t]; try (split; [discriminate|intros [? _]; discriminate]).
  cbn [fmap list_fmap concat stringCheck app].
  destruct (decide (hi < String.length s')%nat); cbn [app]; split; try discriminate.
  - intros [[= ->] ?]; lia.
  - intros [= ->]. split; [reflexivity|lia].
  - intros [[= ->] _]. reflexivity.
Qed.

Lemma z_number_int_range_inr lo hi p v n :
  z_number [n_int; n_min lo; n_max hi] p v = inr n
  <-> exists z, v = JNumber (NInt z) ∧ n = NInt z ∧ lo <= z <= hi.
Proof.
  unfold z_number.
  destruct v as [| |b|[z|f| |neg]|s'|t];
    try (split; [discriminate|intros (? & ? & _); discriminate]).
  cbn [fmap list_fmap concat numberCheck app isInteger numLt numGt].
  destruct (bool_decide_reflect (z < lo)), (bool_decide_reflect (hi < z));
    cbn [app]; split; try discriminate;
    try (intros (z' & [= <-] & _ & ?); lia).
  - intros [= <-]. exists z. repeat split; lia.
  - intros (z' & [= <-] & -> & _). reflexivity.
Qed.

Lemma optional_inr {A} (s : Schema A) p v o :
  optional s p v = inr o
  <-> (v = JUndefined ∧ o = None) ∨ (v ≠ JUndefined ∧ exists a, o = Some a ∧ s p v = inr a).
Proof.
  unfold optional. destruct v; try (destruct (s p _) as [i|a];
    (split; [intros [= <-] || discriminate | intros [[? _]|(_ & a' & ? & ?)]; congruence]);
    right; split; [discriminate|eauto]).
  split; [intros [= <-]; auto | intros [[_ ->]|[? _]]; congruence].
Qed.

Lemma z_coerce_date_inr rt p v t : z_coerce_date rt p v = inr t <-> newDate rt v = Some t.
Proof.
  unfold z_coerce_date. destruct (newDate rt v); split; congruence.
Qed.

Lemma createWorkoutSchema_inr rt input data :
  createWorkoutSchema rt input = inr data
  <-> z_string [s_min 1 (Some "Name is required"%string); s_max 255 None]
        ["name"%string] (prop input "name") = inr (new_name data)
      ∧ z_coerce_date rt ["date"%string] (prop input "date") = inr (new_date data)
      ∧ optional (z_string [s_max 1000 None]) ["notes"%string] (prop input "notes")
        = inr (new_notes data)
      ∧ optional (z_number [n_int; n_min 1; n_max 600]) ["durationMinutes"%string]
          (prop input "durationMinutes") = inr (new_durationMinutes data).
Proof.
  unfold createWorkoutSchema, field. destruct data as [n d t m]. cbn [new_name new_date new_notes new_durationMinutes].
  destruct (z_string _ _ (prop input "name")) as [i1|n'],
           (z_coerce_date _ _ _) as [i2|d'],
           (optional (z_string _) _ _) as [i3|t'],
           (optional (z_number _) _ _) as [i4|m'];
    split; try discriminate; try (intros (? & ? & ? & ?); discriminate).
  - intros [= -> -> -> ->]. auto.
  - intros ([= ->] & [= ->] & [= ->] & [= ->]). reflexivity.
Qed.

Lemma createWorkoutSchema_empty_name rt input :
  prop input "name" = JString "" ->
  exists rest,
    createWorkoutSchema rt input
    = inl (mkIssue ["name"%string] too_small (Some "Name is required"%string) :: rest).
Proof.
  intros Hname. unfold createWorkoutSchema, field. rewrite Hname.
  cbn [z_string fmap list_fmap concat stringCheck app].
  rewrite decide_True by (simpl; lia). rewrite decide_False by (simpl; lia).
  cbn [app issuesOf]. eauto.
Qed.

Lemma createWorkoutAction_rejected rt input issues w :
  createWorkoutSchema rt input = inl issues ->
  createWorkoutAction rt input w = (Thrown (ZodError issues), w).
Proof.
  intros Hs. unfold createWorkoutAction. rewrite Hs. reflexivity.
Qed.

Lemma createBounds_iff rt input :
  createBounds rt input <-> exists data, createWorkoutSchema rt input = inr data.
Proof.
  unfold createBounds. split.
  - intros ((n & Hn & Hlen) & [t Ht] & Hnotes & Hdur).
    assert (exists o, optional (z_string [s_max 1000 None]) ["notes"%string]
                        (prop input "notes") = inr o) as [o Ho].
    { destruct Hnotes as [->|(s & -> & Hs)].
      - exists None. reflexivity.
      - exists (Some s). apply optional_inr. right. split; [discriminate|].
        exists s. split; [reflexivity|]. now apply z_string_max_inr. }
    assert (exists m, optional (z_number [n_int; n_min 1; n_max 600])
                        ["durationMinutes"%string]
                        (prop input "durationMinutes") = inr m) as [m Hm].
    { destruct Hdur as [->|(z & -> & Hz)].
      - exists None. reflexivity.
      - exists (Some (NInt z)). apply optional_inr. right. split; [discriminate|].
        exists (NInt z). split; [reflexivity|]. apply z_number_int_range_inr. eauto. }
    exists (mkNew n t o m). apply createWorkoutSchema_inr.
    cbn [new_name new_date new_notes new_durationMinutes].
    repeat split; auto.
    + now apply z_string_min_max_inr.
    + now apply z_coerce_date_inr.
  - intros [data Hs]. apply createWorkoutSchema_inr in Hs as (Hn & Hd & Ht & Hm).
    apply z_string_min_max_inr in Hn as [Hn Hlen].
    apply z_coerce_date_inr in Hd.
    apply optional_inr in Ht. apply optional_inr in Hm.
    split; [eauto|]. split; [eauto|]. split.
    + destruct Ht as [[? _]|(_ & s & _ & Hs)]; [now left|right].
      apply z_string_max_inr in Hs as [? ?]. eauto.
    + destruct Hm as [[? _]|(_ & n & _ & Hs)]; [now left|right].
      apply z_number_int_range_inr in Hs as (z & ? & _ & ?). eauto.
Qed.

(** C5. [createWorkoutAction] validates before anything else: when the schema
    rejects the input, the action throws the [ZodError] with the schema's
    issues and the world is exactly as before (no database call, no user
    looked up or created, no row inserted).  An input whose name is the empty
    string is rejected with an issue at path [name].  The schema accepts an
    input exactly when it is within the bounds: name a string of 1 to 255
    characters, date coercible to a valid date, notes absent or a string of
    at most 1000 characters, durationMinutes absent or an integer from 1 to
    600. *)
Theorem createWorkoutAction_validates_first rt (input : gmap string JsValue) (w : World) :
  (forall issues,
     createWorkoutSchema rt input = inl issues ->
     createWorkoutAction rt input w = (Thrown (ZodError issues), w))
  ∧ (prop input "name" = JString "" ->
     exists issues,
       createWorkoutAction rt input w = (Thrown (ZodError issues), w)
       ∧ mkIssue ["name"%string] too_small (Some "Name is required"%string) ∈ issues)
  ∧ (createBounds rt input <-> exists data, createWorkoutSchema rt input = inr data).
Proof.
  split; [|split].
  - intros issues. apply createWorkoutAction_rejected.
  - intros Hname. destruct (createWorkoutSchema_empty_name rt input Hname) as [rest Hs].
    eexists. split; [apply createWorkoutAction_rejected; exact Hs|]. left.
  - apply createBounds_iff.
Qed.

Lemma createWorkoutAction_validates_witness :
  exists issues,
    createWorkoutAction Demo.runtime
      (<["name" := JString ""]> (<["date" := JDate (Some Demo.midnight)]> ∅)) Demo.world
    = (Thrown (ZodError issues), Demo.world)
    ∧ mkIssue ["name"%string] too_small (Some "Name is required"%string) ∈ issues.
Proof.
  apply (createWorkoutAction_validates_first Demo.runtime
           (<["name" := JString ""]> (<["date" := JDate (Some Demo.midnight)]> ∅))
           Demo.world).
  vm_compute. reflexivity.
Defined.

(** ** [createWorkout] and [getCurrentUser], step by step *)

Lemma createWorkout_cases rt userId data w :
  (exists v,
     createWorkout rt userId data w
     = (Thrown (DatabaseError v), afterInsert w (tbl_workouts (db w))))
  ∨ (exists name minutes,
      workoutsValues rt (new_name data) (new_date data) (new_notes data)
        (new_durationMinutes data) = inr (name, minutes)
      ∧ (gen_random_uuid rt (uuidsDrawn w) ∉ workouts.id <$> tbl_workouts (db w))
      ∧ userId ∈ users.id <$> tbl_users (db w)
      ∧ (let r := insertedRow rt w userId name (new_date data) (new_notes data) minutes in
         createWorkout rt userId data w
         = (Returned (Some r), afterInsert w (tbl_workouts (db w) ++ [r])))).
Proof.
  unfold createWorkout, insertWorkouts. step.
  destruct (workoutsValues rt _ _ _ _) as [v|[name minutes]].
  { left. exists v. unfold afterInsert. now rewrite db_eta. }
  destruct (decide (gen_random_uuid rt (uuidsDrawn w) ∈ workouts.id <$> tbl_workouts (db w)))
    as [Hdup|Hfresh].
  { left. exists unique_violation. unfold afterInsert. now rewrite db_eta. }
  destruct (decide (userId ∉ users.id <$> tbl_users (db w))) as [Hnouser|Huser].
  { left. exists foreign_key_violation. unfold afterInsert. now rewrite db_eta. }
  right. exists name, minutes. repeat split; auto.
  destruct (decide (userId ∈ users.id <$> tbl_users (db w))); tauto.
Qed.

(** The values of the stub's user are stored as they are. *)
Lemma usersValues_stub :
  usersValues TEMP_USER_EMAIL "testuser" "temporary_hash"
  = inr (TEMP_USER_EMAIL, "testuser"%string).
Proof. vm_compute. reflexivity. Qed.

Lemma getCurrentUser_cases rt w :
  let found := filter (fun u => users.email u = TEMP_USER_EMAIL) (tbl_users (db w)) in
  (exists u,
     head found = Some u
     ∧ getCurrentUser rt w = (Returned (Some u), withCall w SelectUsers))
  ∨ (found = []
     ∧ ((exists v,
           getCurrentUser rt w
           = (Thrown (DatabaseError v), afterProvision w (tbl_users (db w))))
        ∨ (let u := users.mk (gen_random_uuid rt (uuidsDrawn w)) TEMP_USER_EMAIL
                      "testuser" "temporary_hash"
                      (clock rt (clockReads w)) (clock rt (clockReads w)) in
           getCurrentUser rt w
           = (Returned (Some u), afterProvision w (tbl_users (db w) ++ [u]))))).
Proof.
  intros found. unfold getCurrentUser, selectUsers, insertUsers. step. fold found.
  destruct found as [|u rest] eqn:Hfound.
  - right. split; [reflexivity|]. cbn [take length]. rewrite decide_False by (simpl; lia).
    step. rewrite usersValues_stub.
    destruct (decide _).
    { left. exists unique_violation. unfold afterProvision.
      cbn [db withCall calls]. now rewrite db_eta, <- app_assoc. }
    right. unfold afterProvision. cbn [db withCall calls head].
    now rewrite <- app_assoc.
  - left. exists u. split; [reflexivity|]. cbn [take length].
    rewrite decide_True by (simpl; lia). reflexivity.
Qed.

Lemma prop_insert_ne (input : gmap string JsValue) k k' v :
  k ≠ k' -> prop (<[k := v]> input) k' = prop input k'.
Proof. intros Hne. unfold prop. now rewrite lookup_insert_ne. Qed.

(** A key that the schema does not declare has no influence on the parse. *)
Lemma createWorkoutSchema_ignores rt input k v :
  k ∉ ["name"; "date"; "notes"; "durationMinutes"]%string ->
  createWorkoutSchema rt (<[k := v]> input) = createWorkoutSchema rt input.
Proof.
  intros Hk. unfold createWorkoutSchema, field.
  rewrite !prop_insert_ne; [reflexivity|..];
    intros ->; apply Hk; repeat constructor.
Qed.

Lemma createWorkoutAction_ignores rt input k v w :
  k ∉ ["name"; "date"; "notes"; "durationMinutes"]%string ->
  createWorkoutAction rt (<[k := v]> input) w = createWorkoutAction rt input w.
Proof.
  intros Hk. unfold createWorkoutAction. now rewrite createWorkoutSchema_ignores.
Qed.

Lemma createWorkoutAction_unfold rt input w :
  createWorkoutAction rt input w =
  match createWorkoutSchema rt input with
  | inl issues => (Thrown (ZodError issues), w)
  | inr validated =>
      match getCurrentUser rt w with
      | (Thrown e, w1) => (Thrown e, w1)
      | (Returned None, w1) => (Thrown TypeError, w1)
      | (Returned (Some user), w1) =>
          match createWorkout rt (users.id user) validated w1 with
          | (Thrown e, w2) => (Thrown e, w2)
          | (Returned workout, w2) =>
              (Returned workout,
               mkWorld (db w2) (uuidsDrawn w2) (clockReads w2) (calls w2)
                 (revalidated w2 ++ ["/dashboard"%string]))
          end
      end
  end.
Proof.
  unfold createWorkoutAction.
  destruct (createWorkoutSchema rt input) as [issues|validated]; [reflexivity|].
  unfold parse. step.
  destruct (getCurrentUser rt w) as [[[user|]|e] w1]; reflexivity.
Qed.

(** C2. When [createWorkoutAction] returns, the row it returns is stored and
    its [userId] is the id of the user that [getCurrentUser] resolves; the
    helper was called with that id and with the validated fields only.  A
    [userId] key in the raw input changes nothing: the action behaves the
    same with or without it.  [createWorkout] itself gives every row it
    returns the [userId] it was passed, whatever its [data]. *)
Theorem createWorkoutAction_uses_caller_id rt (input : gmap string JsValue)
    (w w' : World) (res : option workouts.row) :
  createWorkoutAction rt input w = (Returned res, w') ->
  (exists user w1 data row,
     getCurrentUser rt w = (Returned (Some user), w1)
     ∧ createWorkoutSchema rt input = inr data
     ∧ fst (createWorkout rt (users.id user) data w1) = Returned (Some row)
     ∧ res = Some row
     ∧ workouts.userId row = users.id user
     ∧ row ∈ tbl_workouts (db w'))
  ∧ (forall v, createWorkoutAction rt (<["userId" := v]> input) w = (Returned res, w'))
  ∧ (forall userId data w0 r w0',
       createWorkout rt userId data w0 = (Returned r, w0') ->
       exists row, r = Some row ∧ workouts.userId row = userId).
Proof.
  intros Hrun. split; [|split].
  - rewrite createWorkoutAction_unfold in Hrun.
    destruct (createWorkoutSchema rt input) as [issues|data]; [discriminate|].
    destruct (getCurrentUser rt w) as [[[user|]|e] w1]; try discriminate.
    destruct (createWorkout_cases rt (users.id user) data w1)
      as [(v & Hc)|(nm & minutes & _ & _ & _ & Hc)];
      cbv zeta in Hc; rewrite Hc in Hrun; [discriminate|].
    injection Hrun as <- <-.
    eexists user, w1, data, _. repeat split; [now rewrite Hc|..].
    cbn [db afterInsert tbl_workouts]. apply elem_of_app. right. left.
  - intros v. rewrite createWorkoutAction_ignores; [exact Hrun|].
    apply (bool_decide_unpack _). vm_compute. exact I.
  - intros userId data w0 r w0' Hc.
    destruct (createWorkout_cases rt userId data w0)
      as [(v & Hc')|(nm & minutes & _ & _ & _ & Hc')];
      cbv zeta in Hc'; rewrite Hc' in Hc; [discriminate|].
    injection Hc as <- <-. eauto.
Qed.

Lemma createWorkoutAction_caller_witness :
  fst (createWorkoutAction Demo.runtime
         (<["userId" := JString Demo.bobId]>
            (<["name" := JString "Leg Day"]>
               (<["date" := JDate (Some Demo.midnight)]> ∅))) Demo.world)
  = Returned (Some (workouts.mk "66666666-6666-4666-8666-666666666661" Demo.aliceId
                      "Leg Day" Demo.midnight None None
                      (Demo.midnight + 40000000) (Demo.midnight + 40000000))).
Proof.
  destruct (createWorkoutAction_uses_caller_id Demo.runtime
              (<["name" := JString "Leg Day"]>
                 (<["date" := JDate (Some Demo.midnight)]> ∅))
              Demo.world
              (snd (createWorkoutAction Demo.runtime
                      (<["name" := JString "Leg Day"]>
                         (<["date" := JDate (Some Demo.midnight)]> ∅)) Demo.world))
              (Some (workouts.mk "66666666-6666-4666-8666-666666666661" Demo.aliceId
                       "Leg Day" Demo.midnight None None
                       (Demo.midnight + 40000000) (Demo.midnight + 40000000))))
    as (_ & Hsame & _).
  - vm_compute. reflexivity.
  - now rewrite Hsame.
Defined.

(** ** Reads: ordering and the local calendar day *)

#[export] Instance asc_total {A} (key : A -> Z) : Total (asc key).
Proof. intros a b. unfold asc. lia. Qed.

#[export] Instance desc_total {A} (key : A -> Z) : Total (desc key).
Proof. intros a b. unfold desc. lia. Qed.

Lemma wd_row_withData d (l : list workouts.row) : wd_row <$> (withData d <$> l) = l.
Proof. induction l as [|r l IH]; [reflexivity|]. rewrite !fmap_cons, IH. reflexivity. Qed.

Lemma ex_row_exercisesOf d r :
  ex_row <$> exercisesOf d r
  = merge_sort (asc exercises.orderInWorkout)
      (filter (fun e => exercises.workoutId e = workouts.id r) (tbl_exercises d)).
Proof.
  unfold exercisesOf. induction (merge_sort _ _) as [|e l IH]; [reflexivity|].
  rewrite !fmap_cons, IH. reflexivity.
Qed.

Lemma div_eq_iff a q D : 0 < D -> a `div` D = q <-> q * D <= a < (q + 1) * D.
Proof.
  intros HD. split.
  - intros <-. pose proof (Z.mul_div_le a D HD). pose proof (Z.mul_succ_div_gt a D HD). lia.
  - intros Hq. symmetry. apply (Z.div_unique a D q (a - q * D)); lia.
Qed.

(** ** The local day of a date *)

Lemma Day_MakeDate D time : 0 <= time < msPerDay -> Day (MakeDate D time) = D.
Proof.
  intros Ht. unfold Day, MakeDate. apply div_eq_iff; [reflexivity|]. lia.
Qed.

Lemma setHours_Some rt t h m s ms u :
  setHours rt (Some t) h m s ms = Some u
  <-> u = UTC rt (MakeDate (localDay rt t) (MakeTime h m s ms)) ∧ - maxTime <= u <= maxTime.
Proof.
  unfold setHours, localDay. cbn [mbind option_bind timeClip].
  destruct (decide _) as [Hin|Hout]; split.
  - intros [= <-]. auto.
  - intros [-> _]. reflexivity.
  - discriminate.
  - intros [-> Hin]. contradiction.
Qed.

Lemma setHours_invalid rt h m s ms : setHours rt None h m s ms = None.
Proof. reflexivity. Qed.

(** On a regular day the two bounds of the query are the first and the last
    instant of the day. *)
Lemma regularDay_interval rt D :
  regularDay rt D ->
  let s := UTC rt (MakeDate D (MakeTime 0 0 0 0)) in
  let e := UTC rt (MakeDate D (MakeTime 23 59 59 999)) in
  LocalTime rt s = MakeDate D (MakeTime 0 0 0 0)
  ∧ LocalTime rt e = MakeDate D (MakeTime 23 59 59 999)
  ∧ LocalTime rt (e + 1) = MakeDate (D + 1) (MakeTime 0 0 0 0)
  ∧ forall t, localDay rt t = D <-> s <= t <= e.
Proof.
  intros (Hs & Hs' & He & He' & Hmono) s e. fold s in Hs, Hs'. fold e in He, He'.
  assert (Ds : localDay rt s = D).
  { unfold localDay. rewrite Hs. apply Day_MakeDate. unfold MakeTime, msPerDay. lia. }
  assert (Ds' : localDay rt (s - 1) = D - 1).
  { unfold localDay. rewrite Hs'. unfold Day, MakeDate, MakeTime.
    apply div_eq_iff; [reflexivity|]. unfold msPerDay. lia. }
  assert (De : localDay rt e = D).
  { unfold localDay. rewrite He. apply Day_MakeDate. unfold MakeTime, msPerDay. lia. }
  assert (De' : localDay rt (e + 1) = D + 1).
  { unfold localDay. rewrite He'. unfold Day, MakeDate, MakeTime.
    apply div_eq_iff; [reflexivity|]. unfold msPerDay. lia. }
  split; [exact Hs|]. split; [exact He|]. split.
  { rewrite He'. unfold MakeDate, MakeTime, msPerDay. lia. }
  intros t. split.
  - intros Ht. split.
    + destruct (decide (s <= t)) as [|Hlt]; [assumption|exfalso].
      pose proof (Hmono t (s - 1) ltac:(lia)). lia.
    + destruct (decide (t <= e)) as [|Hgt]; [assumption|exfalso].
      pose proof (Hmono (e + 1) t ltac:(lia)). lia.
  - intros [Hst Hte]. pose proof (Hmono s t Hst). pose proof (Hmono t e Hte). lia.
Qed.

Lemma fixedOffset_localDay rt offset t :
  fixedOffset rt offset -> localDay rt t = (t + offset) `div` msPerDay.
Proof. intros Hz. unfold localDay, Day, LocalTime. now rewrite Hz. Qed.

(** In a zone with a fixed offset every day is regular. *)
Lemma fixedOffset_regular rt offset D : fixedOffset rt offset -> regularDay rt D.
Proof.
  intros Hz. unfold regularDay, LocalTime, UTC. rewrite !Hz.
  split_and!; try lia.
  intros a b Hab. rewrite !(fixedOffset_localDay rt offset) by exact Hz.
  apply Z.div_le_mono; [reflexivity|lia].
Qed.

Lemma getWorkoutsForUserByDate_cases rt userId date w :
  match setHours rt date 0 0 0 0, setHours rt date 23 59 59 999 with
  | Some s, Some e =>
      match timestamptz_in rt s, timestamptz_in rt e with
      | None, None =>
          getWorkoutsForUserByDate rt userId date w
          = (Returned
               (withData (db w) <$>
                  merge_sort (desc workouts.createdAt)
                    (filter (fun r => workouts.userId r = userId
                                      ∧ s <= workouts.date r ∧ workouts.date r <= e)
                       (tbl_workouts (db w)))),
             withCall w QueryWorkouts)
      | Some v, _ | None, Some v =>
          getWorkoutsForUserByDate rt userId date w
          = (Thrown (DatabaseError v), withCall w QueryWorkouts)
      end
  | _, _ => getWorkoutsForUserByDate rt userId date w = (Thrown RangeError, w)
  end.
Proof.
  unfold getWorkoutsForUserByDate, toISOString, timestamptz.
  destruct (setHours rt date 0 0 0 0) as [s|]; [|reflexivity].
  destruct (setHours rt date 23 59 59 999) as [e|]; [|reflexivity].
  step.
  destruct (timestamptz_in rt s), (timestamptz_in rt e); reflexivity.
Qed.

Lemma exercisesOf_spec d r :
  ex_row <$> exercisesOf d r
    ≡ₚ filter (fun e => exercises.workoutId e = workouts.id r) (tbl_exercises d)
  ∧ Sorted (asc exercises.orderInWorkout) (ex_row <$> exercisesOf d r)
  ∧ Forall (fun ex =>
              ex_sets ex
                ≡ₚ filter (fun s => sets.exerciseId s = exercises.id (ex_row ex)) (tbl_sets d)
              ∧ Sorted (asc sets.setNumber) (ex_sets ex))
      (exercisesOf d r).
Proof.
  rewrite ex_row_exercisesOf. split; [apply merge_sort_Permutation|].
  split; [apply Sorted_merge_sort; apply _|].
  unfold exercisesOf. apply Forall_fmap, Forall_forall. intros e _.
  cbn [compose ex_sets ex_row]. unfold setsOf.
  split; [apply merge_sort_Permutation | apply Sorted_merge_sort; apply _].
Qed.


(** The dashboard query throws on a date it cannot handle, though no
    workout matches: on the invalid date, and on the latest valid date,
    whose local day ends outside the range of [Date]. *)
Lemma getWorkoutsForUserByDate_invalid_date :
  getWorkoutsForUserByDate Demo.runtime Demo.aliceId None Demo.world
  = (Thrown RangeError, Demo.world)
  ∧ getWorkoutsForUserByDate Demo.runtime Demo.aliceId (Some maxTime) Demo.world
    = (Thrown RangeError, Demo.world).
Proof. split; vm_compute; reflexivity. Qed.



(** ** Deleting, and the foreign keys *)

Lemma pgDelete_cascade (cond : workouts.row -> Prop) `{forall r, Decision (cond r)} d :
  pgDeleteWorkouts cascade cascade cond d
  = inr (filter cond (tbl_workouts d),
         mkDb (tbl_users d)
           (filter (fun r => ¬ cond r) (tbl_workouts d))
           (filter (fun e => exercises.workoutId e ∉ workouts.id <$> filter cond (tbl_workouts d))
              (tbl_exercises d))
           (filter (fun s => sets.exerciseId s ∉
                             exercises.id <$>
                               filter (fun e => exercises.workoutId e
                                                ∈ workouts.id <$> filter cond (tbl_workouts d))
                                 (tbl_exercises d))
              (tbl_sets d))).
Proof. reflexivity. Qed.

Lemma NoDup_fmap_filter {A B} (f : A -> B) (P : A -> Prop) `{forall x, Decision (P x)} l :
  NoDup (f <$> l) -> NoDup (f <$> filter P l).
Proof.
  induction l as [|a l IH]; [trivial|].
  rewrite fmap_cons, NoDup_cons. intros [Hnotin Hnd].
  rewrite filter_cons. destruct (decide (P a)); [|auto].
  rewrite fmap_cons, NoDup_cons. split; [|auto].
  intros Hin. apply Hnotin.
  apply list_elem_of_fmap in Hin as (x & -> & Hx).
  apply list_elem_of_filter in Hx as [_ Hx]. now apply list_elem_of_fmap_2.
Qed.

(** Deleting under the cascading foreign keys keeps the store consistent:
    no exercise is left without its workout, no set without its exercise. *)
Lemma pgDelete_cascade_wf (cond : workouts.row -> Prop) `{forall r, Decision (cond r)}
    d deleted d' :
  wfDb d -> pgDeleteWorkouts cascade cascade cond d = inr (deleted, d') -> wfDb d'.
Proof.
  intros [Hpk Hfu Hfe Hfs]. rewrite pgDelete_cascade. intros [= <- <-].
  constructor; cbn [tbl_users tbl_workouts tbl_exercises tbl_sets].
  - now apply NoDup_fmap_filter.
  - intros r Hr. apply list_elem_of_filter in Hr as [_ Hr]. auto.
  - intros e He. apply list_elem_of_filter in He as [Hkeep He].
    apply Hfe, list_elem_of_fmap in He as (r & Hid & Hr).
    rewrite Hid. apply list_elem_of_fmap_2, list_elem_of_filter. split; [|exact Hr].
    intros Hc. apply Hkeep. rewrite Hid.
    apply list_elem_of_fmap_2, list_elem_of_filter. auto.
  - intros s Hs. apply list_elem_of_filter in Hs as [Hkeep Hs].
    apply Hfs, list_elem_of_fmap in Hs as (e & Hid & He).
    rewrite Hid. apply list_elem_of_fmap_2, list_elem_of_filter. split; [|exact He].
    intros Hgone. apply Hkeep. rewrite Hid.
    apply list_elem_of_fmap_2, list_elem_of_filter. auto.
Qed.

Lemma filter_owned_singleton (l : list workouts.row) W :
  NoDup (workouts.id <$> l) -> W ∈ l ->
  filter (fun r => workouts.id r = workouts.id W ∧ workouts.userId r = workouts.userId W) l
  = [W].
Proof.
  induction l as [|a l IH]; intros Hnd HW; [inversion HW|].
  rewrite fmap_cons, NoDup_cons in Hnd. destruct Hnd as [Hnotin Hnd].
  rewrite filter_cons. apply elem_of_cons in HW as [<-|HW].
  - rewrite decide_True by auto. f_equal. apply filter_none.
    intros r Hr [Hid _]. apply Hnotin. rewrite <- Hid. now apply list_elem_of_fmap_2.
  - rewrite decide_False; [now apply IH|].
    intros [Hid _]. apply Hnotin. rewrite Hid. now apply list_elem_of_fmap_2.
Qed.

Lemma deleteWorkout_unfold workoutId userId w :
  deleteWorkout workoutId userId w =
  let owned := fun r => workouts.id r = workoutId ∧ workouts.userId r = userId in
  match pgDeleteWorkouts exercises_workoutId_onDelete sets_exerciseId_onDelete owned (db w) with
  | inl v => (Thrown (DatabaseError v), withCall w DeleteWorkouts)
  | inr (deleted, d') =>
      match head deleted with
      | None => (Thrown NotFoundOrUnauthorized, afterDelete w d')
      | Some r => (Returned r, afterDelete w d')
      end
  end.
Proof.
  unfold deleteWorkout, deleteWorkouts. step.
  destruct (pgDeleteWorkouts _ _ _ _) as [v|[deleted d']]; [reflexivity|].
  step. destruct (head deleted); reflexivity.
Qed.

(** C6. Deleting a stored workout [W] as its owner returns [W] after a
    single statement on the workouts table.  Afterwards no workout has
    [W]'s id, the exercises left are exactly those of other workouts, the
    sets left are exactly those that belong to none of [W]'s exercises, and
    every foreign key of the store still resolves.  The removal of the
    children is the effect of the [cascade] action that [schema.ts] puts on
    the two foreign keys: the store of the resulting world is what the
    database's DELETE yields under those actions, and under [noAction] the
    same statement would be refused as soon as one exercise refers to [W]. *)
Theorem deleteWorkout_cascades (w : World) (W : workouts.row) :
  wfDb (db w) ->
  W ∈ tbl_workouts (db w) ->
  let owned := fun r => workouts.id r = workouts.id W
                        ∧ workouts.userId r = workouts.userId W in
  exists d',
    deleteWorkout (workouts.id W) (workouts.userId W) w = (Returned W, afterDelete w d')
    ∧ pgDeleteWorkouts exercises_workoutId_onDelete sets_exerciseId_onDelete owned (db w)
      = inr ([W], d')
    ∧ (workouts.id W ∉ workouts.id <$> tbl_workouts d')
    ∧ (forall e, e ∈ tbl_exercises d'
                 <-> e ∈ tbl_exercises (db w) ∧ exercises.workoutId e ≠ workouts.id W)
    ∧ (forall s, s ∈ tbl_sets d'
                 <-> s ∈ tbl_sets (db w)
                     ∧ forall e, e ∈ tbl_exercises (db w) ->
                                 exercises.workoutId e = workouts.id W ->
                                 sets.exerciseId s ≠ exercises.id e)
    ∧ wfDb d'
    ∧ ((exists e, e ∈ tbl_exercises (db w) ∧ exercises.workoutId e = workouts.id W) ->
       pgDeleteWorkouts noAction sets_exerciseId_onDelete owned (db w)
       = inl foreign_key_violation).
Proof.
  intros Hwf HW owned.
  pose proof (filter_owned_singleton _ _ (pk_workouts _ Hwf) HW) as Hone.
  fold owned in Hone.
  pose proof (pgDelete_cascade owned (db w)) as Hpg. rewrite Hone in Hpg.
  eexists. split; [|split; [exact Hpg|]].
  { rewrite deleteWorkout_unfold. cbv zeta. fold owned.
    unfold exercises_workoutId_onDelete, sets_exerciseId_onDelete. rewrite Hpg.
    reflexivity. }
  cbn [tbl_workouts tbl_exercises tbl_sets]. split_and!.
  - intros Hin. apply list_elem_of_fmap in Hin as (r & Hid & Hr).
    apply list_elem_of_filter in Hr as [Hnot Hr]. apply Hnot.
    assert (r = W) as -> by (eapply NoDup_fmap_eq; eauto using pk_workouts).
    split; reflexivity.
  - intros e. rewrite list_elem_of_filter. cbn [fmap list_fmap].
    rewrite list_elem_of_singleton. tauto.
  - intros s. rewrite list_elem_of_filter. split.
    + intros [Hk Hs]. split; [exact Hs|]. intros e He Hw Heq. apply Hk.
      rewrite Heq. apply list_elem_of_fmap_2, list_elem_of_filter. split; [|exact He].
      rewrite Hw. left.
    + intros [Hs Hnone]. split; [|exact Hs].
      intros Hin. apply list_elem_of_fmap in Hin as (e & Hid & He).
      apply list_elem_of_filter in He as [Hw He].
      cbn [fmap list_fmap] in Hw. apply list_elem_of_singleton in Hw.
      now apply (Hnone e).
  - eapply pgDelete_cascade_wf; [exact Hwf|exact Hpg].
  - intros (e & He & Hw). unfold pgDeleteWorkouts. rewrite Hone.
    unfold referentialDelete at 1. rewrite decide_False; [reflexivity|].
    intros Hall. rewrite Forall_forall in Hall. apply (Hall e He).
    rewrite Hw. left.
Qed.

Lemma deleteWorkout_cascades_witness :
  fst (deleteWorkout Demo.legDayId Demo.aliceId Demo.world) = Returned Demo.legDay
  ∧ tbl_workouts (db (snd (deleteWorkout Demo.legDayId Demo.aliceId Demo.world)))
    = [Demo.bobsWorkout]
  ∧ tbl_exercises (db (snd (deleteWorkout Demo.legDayId Demo.aliceId Demo.world))) = []
  ∧ tbl_sets (db (snd (deleteWorkout Demo.legDayId Demo.aliceId Demo.world))) = [].
Proof.
  pose proof (deleteWorkout_cascades Demo.world Demo.legDay) as H. cbv zeta in H.
  destruct H as (d' & Hdel & _).
  - exact wfDb_demo.
  - vm_compute. left.
  - split.
    + change Demo.legDayId with (workouts.id Demo.legDay).
      change Demo.aliceId with (workouts.userId Demo.legDay).
      now rewrite Hdel.
    + vm_compute. auto.
Defined.

(** ** Updates: the frame, and the timestamps *)

Lemma toInt4Opt_inr n minutes :
  toInt4Opt n = inr minutes ->
  match n with
  | Some x => exists z, x = NInt z ∧ minutes = Some z ∧ - 2 ^ 31 <= z < 2 ^ 31
  | None => minutes = None
  end.
Proof.
  unfold toInt4Opt, toInt4. destruct n as [[z|f| |neg]|]; try discriminate.
  - destruct (decide (- 2 ^ 31 <= z < 2 ^ 31)); [|destruct (decide _); discriminate].
    intros [= <-]. eauto.
  - now intros [= <-].
Qed.

Lemma optIn_varchar_inr n o o' :
  optIn (varchar n) o = inr o' ->
  match o with
  | Some s => exists s', o' = Some s' ∧ varchar n s = inr s'
  | None => o' = None
  end.
Proof.
  destruct o as [s|]; cbn [optIn]; [|now intros [= <-]].
  destruct (varchar n s) as [v|s']; [discriminate|]. intros [= <-]. eauto.
Qed.

Lemma applySet_updatedFrom rt data name minutes now sent old :
  updateValues rt data sent = inr (name, minutes) ->
  updatedFrom data now old (applySet (asStored data name) minutes now old).
Proof.
  intros Hv. apply updateValues_inr in Hv as (_ & _ & _ & Hm & _ & Hn).
  apply toInt4Opt_inr in Hm. apply optIn_varchar_inr in Hn.
  unfold updatedFrom, applySet, asStored.
  cbn [workouts.id workouts.userId workouts.createdAt workouts.updatedAt
       workouts.name workouts.date workouts.notes workouts.durationMinutes].
  destruct data as [[n|] [d|] [t|] [m|]];
    cbn [upd_name upd_date upd_notes upd_durationMinutes default from_option] in *;
    split_and!; try reflexivity.
  all: try (destruct Hn as (n' & -> & Hn); exact Hn).
  all: try (subst name; reflexivity).
  all: try (destruct Hm as (z & -> & -> & _); eauto).
  all: subst minutes; reflexivity.
Qed.

Lemma updateWorkoutSchema_ignores rt input k v :
  k ∉ ["workoutId"; "name"; "date"; "notes"; "durationMinutes"]%string ->
  updateWorkoutSchema rt (<[k := v]> input) = updateWorkoutSchema rt input.
Proof.
  intros Hk. unfold updateWorkoutSchema, field.
  rewrite !prop_insert_ne; [reflexivity|..];
    intros ->; apply Hk; repeat constructor.
Qed.

Lemma updateWorkoutAction_ignores rt input k v w :
  k ∉ ["workoutId"; "name"; "date"; "notes"; "durationMinutes"]%string ->
  updateWorkoutAction rt (<[k := v]> input) w = updateWorkoutAction rt input w.
Proof.
  intros Hk. unfold updateWorkoutAction. now rewrite updateWorkoutSchema_ignores.
Qed.

(** C7. A successful [updateWorkout] rewrites the rows of the pair
    [(workoutId, userId)] and nothing else: the returned row is the stored
    one with the supplied fields replaced and [updatedAt] read from the clock
    at the time of the call, while its id, owner, [createdAt] and every field
    not supplied are as before; every other workout and the three other
    tables are untouched.  A successful [createWorkout] appends one row to
    the stored workouts, the row it returns, and both timestamps of that row
    are the reading of the clock at the time of the call, whatever [data]
    holds.  Neither action looks at any key outside its schema, so a
    [createdAt] or [updatedAt] sent by the client has no effect. *)
Theorem update_changes_only_supplied_fields rt :
  (forall (w w' : World) (workoutId userId : Uuid) (data : WorkoutUpdate) res,
     updateWorkout rt workoutId userId data w = (Returned res, w') ->
     let owned := fun r => workouts.id r = workoutId ∧ workouts.userId r = userId in
     let now := clock rt (clockReads w) in
     exists old new,
       old ∈ tbl_workouts (db w) ∧ owned old ∧ res = Some new
       ∧ updatedFrom data now old new
       ∧ Forall2 (fun r r' => (owned r ∧ updatedFrom data now r r') ∨ (¬ owned r ∧ r' = r))
           (tbl_workouts (db w)) (tbl_workouts (db w'))
       ∧ tbl_users (db w') = tbl_users (db w)
       ∧ tbl_exercises (db w') = tbl_exercises (db w)
       ∧ tbl_sets (db w') = tbl_sets (db w))
  ∧ (forall (w w' : World) (userId : Uuid) (data : NewWorkout) res,
       createWorkout rt userId data w = (Returned res, w') ->
       exists r, res = Some r
                 ∧ tbl_workouts (db w') = tbl_workouts (db w) ++ [r]
                 ∧ workouts.createdAt r = clock rt (clockReads w)
                 ∧ workouts.updatedAt r = clock rt (clockReads w))
  ∧ (forall (input : gmap string JsValue) (k : string) (v : JsValue) (w : World),
       (k ∉ ["name"; "date"; "notes"; "durationMinutes"]%string ->
        createWorkoutAction rt (<[k := v]> input) w = createWorkoutAction rt input w)
       ∧ (k ∉ ["workoutId"; "name"; "date"; "notes"; "durationMinutes"]%string ->
          updateWorkoutAction rt (<[k := v]> input) w = updateWorkoutAction rt input w)).
Proof.
  split_and!.
  - intros w w' workoutId userId data res Hrun owned now.
    destruct (updateWorkout_cases rt workoutId userId data w)
      as [(_ & Hc)|(old & Hold & [(_ & _ & Hc)|[(v & Hc)|(n & m & Hv & Hc)]])];
      rewrite Hc in Hrun; try discriminate.
    injection Hrun as <- <-. apply head_filter_elem in Hold as [Hin Hown].
    exists old, (applySet (asStored data n) m now old).
    cbn [db afterUpdate withCall tbl_users tbl_workouts tbl_exercises tbl_sets].
    split_and!; try reflexivity; try assumption.
    + now apply (applySet_updatedFrom rt data n m now now).
    + apply Forall2_fmap_r, Forall_Forall2_diag, Forall_forall. intros r _.
      unfold compose. case_decide; [left|right]; split; auto.
      now apply (applySet_updatedFrom rt data n m now now).
  - intros w w' userId data res Hrun.
    destruct (createWorkout_cases rt userId data w)
      as [(v & Hc)|(nm & minutes & _ & _ & _ & Hc)];
      cbv zeta in Hc; rewrite Hc in Hrun; [discriminate|].
    injection Hrun as <- <-. eexists. split; [reflexivity|]. split_and!; reflexivity.
  - intros input k v w. split.
    + apply createWorkoutAction_ignores.
    + apply updateWorkoutAction_ignores.
Qed.

Lemma update_changes_only_supplied_fields_witness :
  updateWorkout Demo.runtime Demo.legDayId Demo.aliceId
    (mkUpd None None (Some "heavy"%string) None) Demo.world
  = (Returned (Some (workouts.mk Demo.legDayId Demo.aliceId "Leg Day"
                       (Demo.midnight + 36000000) (Some "heavy"%string) (Some 45)
                       5000 (Demo.midnight + 40000000))),
     snd (updateWorkout Demo.runtime Demo.legDayId Demo.aliceId
            (mkUpd None None (Some "heavy"%string) None) Demo.world))
  ∧ updateWorkoutAction Demo.runtime
      (<["updatedAt" := JDate (Some 0)]>
         (<["workoutId" := JString Demo.legDayId]> (<["notes" := JString "heavy"]> ∅)))
      Demo.world
    = updateWorkoutAction Demo.runtime
        (<["workoutId" := JString Demo.legDayId]> (<["notes" := JString "heavy"]> ∅))
        Demo.world.
Proof.
  destruct (update_changes_only_supplied_fields Demo.runtime) as (Hupd & _ & Hkeys).
  split.
  - destruct (Hupd Demo.world
                (snd (updateWorkout Demo.runtime Demo.legDayId Demo.aliceId
                        (mkUpd None None (Some "heavy"%string) None) Demo.world))
                Demo.legDayId Demo.aliceId (mkUpd None None (Some "heavy"%string) None)
                (Some (workouts.mk Demo.legDayId Demo.aliceId "Leg Day"
                         (Demo.midnight + 36000000) (Some "heavy"%string) (Some 45)
                         5000 (Demo.midnight + 40000000))))
      as (old & new & _ & _ & _ & _).
    + vm_compute. reflexivity.
    + vm_compute. reflexivity.
  - apply Hkeys. apply (bool_decide_unpack _). vm_compute. exact I.
Defined.

(** ** Creating *)

(** Values that the columns hold as they are: texts without U+0000, a name
    that fits, a date that the database reads, a 32-bit duration. *)
Lemma workoutsValues_kept rt name date notes durationMinutes minutes :
  hasNul name = false ->
  timestamptz_in rt date = None ->
  from_option hasNul false notes = false ->
  toInt4Opt durationMinutes = inr minutes ->
  fitsVarchar workouts_name_length name ->
  workoutsValues rt name date notes durationMinutes = inr (name, minutes).
Proof.
  intros Hname Hdate Hnotes Hm Hfit. apply workoutsValues_inr.
  split_and!; auto. now apply varchar_fits.
Qed.

Lemma createWorkout_succeeds rt userId data w name minutes :
  workoutsValues rt (new_name data) (new_date data) (new_notes data)
    (new_durationMinutes data) = inr (name, minutes) ->
  gen_random_uuid rt (uuidsDrawn w) ∉ workouts.id <$> tbl_workouts (db w) ->
  userId ∈ users.id <$> tbl_users (db w) ->
  let r := insertedRow rt w userId name (new_date data) (new_notes data) minutes in
  createWorkout rt userId data w
  = (Returned (Some r), afterInsert w (tbl_workouts (db w) ++ [r])).
Proof.
  intros Hv Hfresh Huser r.
  destruct (createWorkout_cases rt userId data w)
    as [(v & Hc)|(name' & minutes' & Hv' & _ & _ & Hc)].
  - exfalso. revert Hc. unfold createWorkout, insertWorkouts. step. rewrite Hv.
    rewrite decide_False by tauto. rewrite decide_False by tauto. discriminate.
  - rewrite Hv in Hv'. injection Hv' as <- <-. exact Hc.
Qed.





(** A validated input need not be storable: the schema accepts the
    three-character name with U+0000 in the middle, [createWorkout] on the
    validated data throws the database's refusal, and nothing is stored. *)
Lemma create_then_get_roundtrip_counterexample :
  createWorkoutSchema Demo.runtime
    (<["name" := JString Demo.nulName]> (<["date" := JDate (Some Demo.midnight)]> ∅))
  = inr (mkNew Demo.nulName Demo.midnight None None)
  ∧ fst (createWorkout Demo.runtime Demo.aliceId
           (mkNew Demo.nulName Demo.midnight None None) Demo.world)
    = Thrown (DatabaseError character_not_in_repertoire)
  ∧ db (snd (createWorkout Demo.runtime Demo.aliceId
               (mkNew Demo.nulName Demo.midnight None None) Demo.world))
    = Demo.store.
Proof. split_and!; vm_compute; reflexivity. Qed.

Lemma prop_rawOf data :
  prop (rawOf data) "name" = JString (new_name data)
  ∧ prop (rawOf data) "notes" = from_option JString JUndefined (new_notes data)
  ∧ prop (rawOf data) "durationMinutes"
    = from_option JNumber JUndefined (new_durationMinutes data).
Proof. unfold prop, rawOf. split_and!; now simplify_map_eq. Qed.

(** C9. The helper checks none of the bounds of the validation layer.  Take
    data that the schema of the action rejects because the name is empty,
    the notes are longer than 1000 characters, or durationMinutes is an
    integer below 1 or above 600.  As long as the column types hold it (a
    32-bit integer for the duration, texts without U+0000, a date that the
    database reads), the user exists and the drawn identifier is unused,
    [createWorkout] called directly returns the new row, which is stored
    with exactly those fields. *)
Theorem createWorkout_enforces_no_bounds rt (w : World) (userId : Uuid)
    (data : NewWorkout) (minutes : option Z) :
  userId ∈ users.id <$> tbl_users (db w) ->
  gen_random_uuid rt (uuidsDrawn w) ∉ workouts.id <$> tbl_workouts (db w) ->
  fitsVarchar workouts_name_length (new_name data) ->
  toInt4Opt (new_durationMinutes data) = inr minutes ->
  hasNul (new_name data) = false ->
  from_option hasNul false (new_notes data) = false ->
  timestamptz_in rt (new_date data) = None ->
  (new_name data = ""%string
   ∨ (exists t, new_notes data = Some t ∧ (1000 < String.length t)%nat)
   ∨ (exists z, new_durationMinutes data = Some (NInt z) ∧ (z < 1 ∨ 600 < z))) ->
  (exists issues, createWorkoutSchema rt (rawOf data) = inl issues)
  ∧ exists r w',
      createWorkout rt userId data w = (Returned (Some r), w')
      ∧ r ∈ tbl_workouts (db w')
      ∧ workouts.userId r = userId
      ∧ workouts.name r = new_name data
      ∧ workouts.date r = new_date data
      ∧ workouts.notes r = new_notes data
      ∧ workouts.durationMinutes r = minutes.
Proof.
  intros Huser Hfresh Hfit Hm Hname0 Hnotes0 Hdate Hbad. split.
  - destruct (createWorkoutSchema rt (rawOf data)) as [issues|ok] eqn:Hs; [eauto|].
    exfalso.
    assert (Hb : createBounds rt (rawOf data)) by (apply createBounds_iff; eauto).
    destruct Hb as ((n & Hn & Hlen) & _ & Hnotes & Hdur).
    destruct (prop_rawOf data) as (Pn & Pt & Pm).
    rewrite Pn in Hn. rewrite Pt in Hnotes. rewrite Pm in Hdur.
    destruct Hbad as [Hempty|[(t & Ht & Hlong)|(z & Hz & Hrange)]].
    + rewrite Hempty in Hn. injection Hn as <-. simpl in Hlen. lia.
    + rewrite Ht in Hnotes. cbn [from_option] in Hnotes.
      destruct Hnotes as [?|(s & [= <-] & ?)]; [discriminate|lia].
    + rewrite Hz in Hdur. cbn [from_option] in Hdur.
      destruct Hdur as [?|(z' & [= <-] & ?)]; [discriminate|lia].
  - pose proof (createWorkout_succeeds rt userId data w _ minutes
                  (workoutsValues_kept rt _ _ _ _ _ Hname0 Hdate Hnotes0 Hm Hfit)
                  Hfresh Huser) as Hc.
    cbv zeta in Hc. eexists _, _. split; [exact Hc|].
    split_and!; try reflexivity.
    cbn [db afterInsert tbl_workouts]. apply elem_of_app. right. left.
Qed.

Lemma createWorkout_enforces_no_bounds_witness :
  (exists issues,
     createWorkoutSchema Demo.runtime
       (rawOf (mkNew "" Demo.midnight None (Some (NInt 601)))) = inl issues)
  ∧ exists r w',
      createWorkout Demo.runtime Demo.aliceId
        (mkNew "" Demo.midnight None (Some (NInt 601))) Demo.world
      = (Returned (Some r), w')
      ∧ r ∈ tbl_workouts (db w')
      ∧ workouts.userId r = Demo.aliceId
      ∧ workouts.name r = ""%string
      ∧ workouts.date r = Demo.midnight
      ∧ workouts.notes r = None
      ∧ workouts.durationMinutes r = Some 601.
Proof.
  apply (createWorkout_enforces_no_bounds Demo.runtime Demo.world Demo.aliceId
           (mkNew "" Demo.midnight None (Some (NInt 601))) (Some 601)).
  - vm_compute. left.
  - apply (bool_decide_unpack _). vm_compute. exact I.
  - vm_compute. lia.
  - vm_compute. reflexivity.
  - vm_compute. reflexivity.
  - vm_compute. reflexivity.
  - vm_compute. reflexivity.
  - left. reflexivity.
Defined.

(** ** [updateWorkoutAction] and a null duration *)

Lemma updateWorkoutAction_unfold rt input w :
  updateWorkoutAction rt input w =
  match updateWorkoutSchema rt input with
  | inl issues => (Thrown (ZodError issues), w)
  | inr validated =>
      match getCurrentUser rt w with
      | (Thrown e, w1) => (Thrown e, w1)
      | (Returned None, w1) => (Thrown TypeError, w1)
      | (Returned (Some user), w1) =>
          match updateWorkout rt (v_workoutId validated) (users.id user)
                  (mkUpd (v_name validated) (v_date validated) (v_notes validated)
                     (orUndefined (v_durationMinutes validated))) w1 with
          | (Thrown e, w2) => (Thrown e, w2)
          | (Returned workout, w2) =>
              (Returned workout,
               mkWorld (db w2) (uuidsDrawn w2) (clockReads w2) (calls w2)
                 ((revalidated w2 ++ ["/dashboard"%string])
                    ++ ["/dashboard/workout/" +:+ v_workoutId validated]))
          end
      end
  end.
Proof.
  unfold updateWorkoutAction.
  destruct (updateWorkoutSchema rt input) as [issues|validated]; [reflexivity|].
  unfold parse. step.
  destruct (getCurrentUser rt w) as [[[user|]|e] w1]; reflexivity.
Qed.

Lemma getCurrentUser_tables rt w :
  tbl_workouts (db (snd (getCurrentUser rt w))) = tbl_workouts (db w)
  ∧ tbl_exercises (db (snd (getCurrentUser rt w))) = tbl_exercises (db w)
  ∧ tbl_sets (db (snd (getCurrentUser rt w))) = tbl_sets (db w).
Proof.
  destruct (getCurrentUser_cases rt w) as [(u & _ & ->)|(_ & [(v & ->)| ->])];
    auto.
Qed.

(** Whatever [updateWorkout] does, each stored workout is afterwards either
    as it was or the result of the assignment. *)
Lemma updateWorkout_rows rt workoutId userId data w :
  exists name minutes now,
    (upd_durationMinutes data = None -> minutes = None)
    ∧ Forall2 (fun r r' => r' = r ∨ r' = applySet (asStored data name) minutes now r)
        (tbl_workouts (db w))
        (tbl_workouts (db (snd (updateWorkout rt workoutId userId data w)))).
Proof.
  assert (Hsame : forall name minutes now,
            Forall2 (fun r r' => r' = r ∨ r' = applySet (asStored data name) minutes now r)
              (tbl_workouts (db w)) (tbl_workouts (db w))).
  { intros. apply Forall_Forall2_diag, Forall_forall. auto. }
  destruct (updateWorkout_cases rt workoutId userId data w)
    as [(_ & ->)|(old & _ & [(_ & _ & ->)|[(v & ->)|(n & m & Hv & ->)]])];
    cbn [snd db withCall afterUpdate tbl_workouts].
  1-3: exists None, None, 0; split; [reflexivity | apply Hsame].
  exists n, m, (clock rt (clockReads w)). split.
  - intros Hnone. apply updateValues_inr in Hv as (_ & _ & _ & Hm & _).
    rewrite Hnone in Hm. now injection Hm as <-.
  - apply Forall2_fmap_r, Forall_Forall2_diag, Forall_forall. intros r _.
    unfold compose. case_decide; auto.
Qed.

Lemma updateWorkoutAction_rows rt input w :
  match updateWorkoutSchema rt input with
  | inl _ => snd (updateWorkoutAction rt input w) = w
  | inr validated =>
      exists name minutes now,
        (orUndefined (v_durationMinutes validated) = None -> minutes = None)
        ∧ Forall2 (fun r r' =>
                     r' = r
                     ∨ r' = applySet
                              (asStored
                                 (mkUpd (v_name validated) (v_date validated)
                                    (v_notes validated)
                                    (orUndefined (v_durationMinutes validated)))
                                 name)
                              minutes now r)
            (tbl_workouts (db w))
            (tbl_workouts (db (snd (updateWorkoutAction rt input w))))
  end.
Proof.
  rewrite updateWorkoutAction_unfold.
  destruct (updateWorkoutSchema rt input) as [issues|validated]; [reflexivity|].
  destruct (getCurrentUser_tables rt w) as (Hw & _ & _).
  destruct (getCurrentUser rt w) as [[[user|]|e] w1]; cbn [snd] in Hw.
  2,3: exists None, None, 0; split; [reflexivity|]; cbn [snd]; rewrite Hw;
       apply Forall_Forall2_diag, Forall_forall; auto.
  set (data := mkUpd _ _ _ _).
  destruct (updateWorkout_rows rt (v_workoutId validated) (users.id user) data w1)
    as (name & minutes & now & Hnone & Hrows).
  rewrite Hw in Hrows. exists name, minutes, now. split; [exact Hnone|].
  destruct (updateWorkout _ _ _ _ _) as [[workout|e] w2]; exact Hrows.
Qed.

Lemma prop_delete (input : gmap string JsValue) k :
  prop (delete k input) k = JUndefined
  ∧ forall k', k ≠ k' -> prop (delete k input) k' = prop input k'.
Proof.
  unfold prop. split.
  - now rewrite lookup_delete_eq.
  - intros k' Hne. now rewrite lookup_delete_ne.
Qed.

Lemma Forall2_fmap_eq {A B} (f : A -> B) l l' :
  Forall2 (fun x y => f y = f x) l l' -> f <$> l' = f <$> l.
Proof.
  induction 1 as [|x y l l' Hxy _ IH]; [reflexivity|].
  rewrite !fmap_cons. now f_equal.
Qed.

Lemma updateWorkoutSchema_null_duration rt input validated :
  prop input "durationMinutes" = JNull ->
  updateWorkoutSchema rt input = inr validated ->
  v_durationMinutes validated = null.
Proof.
  intros Hnull. unfold updateWorkoutSchema, field. rewrite Hnull.
  cbn [z_nullable].
  destruct (z_string _ _ _), (optional (z_string _) _ _), (optional (z_coerce_date _) _ _),
    (optional (z_string [s_max 1000 None]) _ _); try discriminate.
  now intros [= <-].
Qed.

(** C10. [updateWorkoutAction] lets [durationMinutes: null] through its
    schema and then treats it as if the key were absent: the action behaves
    exactly as on the same input without the key, and whatever the outcome,
    the stored durations of all workouts are what they were.  More generally
    no input makes the action turn a stored duration into null. *)
Theorem updateWorkoutAction_null_duration rt :
  (forall (input : gmap string JsValue) (w : World),
     prop input "durationMinutes" = JNull ->
     z_nullable (optional (z_number [n_int; n_min 1; n_max 600]))
       ["durationMinutes"%string] (prop input "durationMinutes") = inr null
     ∧ updateWorkoutAction rt input w
       = updateWorkoutAction rt (delete "durationMinutes"%string input) w
     ∧ workouts.durationMinutes <$> tbl_workouts (db (snd (updateWorkoutAction rt input w)))
       = workouts.durationMinutes <$> tbl_workouts (db w))
  ∧ (forall (input : gmap string JsValue) (w : World),
       Forall2 (fun r r' => workouts.id r' = workouts.id r
                            ∧ (is_Some (workouts.durationMinutes r) ->
                               is_Some (workouts.durationMinutes r')))
         (tbl_workouts (db w))
         (tbl_workouts (db (snd (updateWorkoutAction rt input w))))).
Proof.
  split.
  - intros input w Hnull. split_and!.
    + now rewrite Hnull.
    + destruct (prop_delete input "durationMinutes") as [Hgone Hkeep].
      unfold updateWorkoutAction, updateWorkoutSchema, field.
      rewrite Hgone, Hnull, !Hkeep by discriminate.
      cbn [z_nullable optional].
      destruct (z_string _ _ _), (optional (z_string _) _ _),
        (optional (z_coerce_date _) _ _), (optional (z_string [s_max 1000 None]) _ _);
        reflexivity.
    + pose proof (updateWorkoutAction_rows rt input w) as Hrows.
      destruct (updateWorkoutSchema rt input) as [issues|validated] eqn:Hs.
      { now rewrite Hrows. }
      destruct Hrows as (name & minutes & now & Hnone & Hrows).
      rewrite (updateWorkoutSchema_null_duration _ _ _ Hnull Hs) in Hnone.
      rewrite (Hnone eq_refl) in Hrows.
      apply Forall2_fmap_eq. eapply Forall2_impl; [exact Hrows|].
      intros r r' [->| ->]; reflexivity.
  - intros input w.
    pose proof (updateWorkoutAction_rows rt input w) as Hrows.
    destruct (updateWorkoutSchema rt input) as [issues|validated].
    { rewrite Hrows. apply Forall_Forall2_diag, Forall_forall. auto. }
    destruct Hrows as (name & minutes & now & _ & Hrows).
    eapply Forall2_impl; [exact Hrows|].
    intros r r' [->| ->]; [auto|]. split; [reflexivity|].
    unfold applySet. cbn [workouts.durationMinutes]. destruct minutes; eauto.
Qed.

Lemma updateWorkoutAction_null_duration_witness :
  fst (updateWorkoutAction Demo.runtime
         (<["workoutId" := JString Demo.legDayId]>
            (<["name" := JString "Heavy legs"]> (<["durationMinutes" := JNull]> ∅)))
         Demo.world)
  = Returned (Some (workouts.mk Demo.legDayId Demo.aliceId "Heavy legs"
                      (Demo.midnight + 36000000) None (Some 45)
                      5000 (Demo.midnight + 40000000)))
  ∧ workouts.durationMinutes <$>
      tbl_workouts (db (snd (updateWorkoutAction Demo.runtime
         (<["workoutId" := JString Demo.legDayId]>
            (<["name" := JString "Heavy legs"]> (<["durationMinutes" := JNull]> ∅)))
         Demo.world)))
    = [Some 45; None].
Proof.
  destruct (updateWorkoutAction_null_duration Demo.runtime) as [Hnull _].
  destruct (Hnull
              (<["workoutId" := JString Demo.legDayId]>
                 (<["name" := JString "Heavy legs"]> (<["durationMinutes" := JNull]> ∅)))
              Demo.world) as (_ & _ & Hkept).
  - vm_compute. reflexivity.
  - split; [vm_compute; reflexivity|]. rewrite Hkept. reflexivity.
Defined.

(** ** The integrity constraints are kept by every operation *)

Lemma wfDb_empty : wfDb emptyDb.
Proof.
  constructor; cbn [emptyDb tbl_workouts tbl_exercises tbl_sets].
  - constructor.
  - intros r Hr. inversion Hr.
  - intros e He. inversion He.
  - intros s Hs. inversion Hs.
Qed.

Lemma wfDb_eta d :
  wfDb d -> wfDb (mkDb (tbl_users d) (tbl_workouts d) (tbl_exercises d) (tbl_sets d)).
Proof. now rewrite db_eta. Qed.

Lemma createWorkout_wf rt userId data w :
  wfDb (db w) -> wfDb (db (snd (createWorkout rt userId data w))).
Proof.
  intros Hwf.
  destruct (createWorkout_cases rt userId data w)
    as [(v & ->)|(nm & minutes & _ & Hfresh & Huser & Hc)].
  { cbn [snd db afterInsert]. now apply wfDb_eta. }
  cbv zeta in Hc. rewrite Hc. cbn [snd db afterInsert].
  destruct Hwf as [Hpk Hfu Hfe Hfs].
  constructor; cbn [tbl_users tbl_workouts tbl_exercises tbl_sets].
  - rewrite fmap_app. apply NoDup_app. split; [exact Hpk|]. split.
    + intros x Hx Hin. apply list_elem_of_singleton in Hin. subst x. now apply Hfresh.
    + apply NoDup_singleton.
  - intros r Hr. apply elem_of_app in Hr as [Hr|Hr]; [auto|].
    apply list_elem_of_singleton in Hr. subst r. exact Huser.
  - intros e He. rewrite fmap_app. apply elem_of_app. left. auto.
  - exact Hfs.
Qed.

Lemma updateWorkout_wf rt workoutId userId data w :
  wfDb (db w) -> wfDb (db (snd (updateWorkout rt workoutId userId data w))).
Proof.
  intros Hwf.
  destruct (updateWorkout_cases rt workoutId userId data w)
    as [(_ & ->)|(old & _ & [(_ & _ & ->)|[(v & ->)|(n & m & _ & ->)]])];
    cbn [snd db withCall afterUpdate]; try assumption; try now apply wfDb_eta.
  set (upd := fun r : workouts.row => if decide _ then _ else r).
  assert (Hid : forall r, workouts.id (upd r) = workouts.id r
                          ∧ workouts.userId (upd r) = workouts.userId r).
  { intros r. unfold upd. case_decide; auto. }
  assert (Hids : workouts.id <$> (upd <$> tbl_workouts (db w))
                 = workouts.id <$> tbl_workouts (db w)).
  { rewrite <- list_fmap_compose. apply list_fmap_ext. intros i r _. apply Hid. }
  destruct Hwf as [Hpk Hfu Hfe Hfs].
  constructor; cbn [tbl_users tbl_workouts tbl_exercises tbl_sets].
  - now rewrite Hids.
  - intros r' Hr'. apply list_elem_of_fmap in Hr' as (r & -> & Hr).
    destruct (Hid r) as [_ ->]. auto.
  - intros e He. rewrite Hids. auto.
  - exact Hfs.
Qed.

Lemma deleteWorkout_wf workoutId userId w :
  wfDb (db w) -> wfDb (db (snd (deleteWorkout workoutId userId w))).
Proof.
  intros Hwf. rewrite deleteWorkout_unfold. cbv zeta.
  unfold exercises_workoutId_onDelete, sets_exerciseId_onDelete.
  destruct (pgDeleteWorkouts _ _ _ _) as [v|[deleted d']] eqn:Hpg.
  { rewrite pgDelete_cascade in Hpg. discriminate. }
  apply pgDelete_cascade_wf in Hpg; [|exact Hwf].
  destruct (head deleted); exact Hpg.
Qed.

Lemma getCurrentUser_wf rt w :
  wfDb (db w) -> wfDb (db (snd (getCurrentUser rt w))).
Proof.
  intros Hwf.
  destruct (getCurrentUser_cases rt w) as [(u & _ & ->)|(_ & [(v & ->)| ->])];
    cbn [snd db withCall afterProvision]; try assumption; try now apply wfDb_eta.
  destruct Hwf as [Hpk Hfu Hfe Hfs].
  constructor; cbn [tbl_users tbl_workouts tbl_exercises tbl_sets]; auto.
  intros r Hr. rewrite fmap_app. apply elem_of_app. left. auto.
Qed.

Lemma createWorkoutAction_wf rt input w :
  wfDb (db w) -> wfDb (db (snd (createWorkoutAction rt input w))).
Proof.
  intros Hwf. rewrite createWorkoutAction_unfold.
  destruct (createWorkoutSchema rt input) as [issues|validated]; [exact Hwf|].
  pose proof (getCurrentUser_wf rt w Hwf) as Hwf1.
  destruct (getCurrentUser rt w) as [[[user|]|e] w1]; cbn [snd] in *; try assumption.
  pose proof (createWorkout_wf rt (users.id user) validated w1 Hwf1) as Hwf2.
  destruct (createWorkout _ _ _ _) as [[workout|e] w2]; exact Hwf2.
Qed.

Lemma updateWorkoutAction_wf rt input w :
  wfDb (db w) -> wfDb (db (snd (updateWorkoutAction rt input w))).
Proof.
  intros Hwf. rewrite updateWorkoutAction_unfold.
  destruct (updateWorkoutSchema rt input) as [issues|validated]; [exact Hwf|].
  pose proof (getCurrentUser_wf rt w Hwf) as Hwf1.
  destruct (getCurrentUser rt w) as [[[user|]|e] w1]; cbn [snd] in *; try assumption.
  set (data := mkUpd _ _ _ _).
  pose proof (updateWorkout_wf rt (v_workoutId validated) (users.id user) data w1 Hwf1)
    as Hwf2.
  destruct (updateWorkout _ _ _ _ _) as [[workout|e] w2]; exact Hwf2.
Qed.

(** ** The helpers on the demo store *)

Example dashboard_of_alice :
  fst (getWorkoutsForUserByDate Demo.runtime Demo.aliceId
         (Some (Demo.midnight + 50000000)) Demo.world)
  = Returned
      [mkWd Demo.legDay
         [mkEx Demo.squat
            [Demo.aSet "44444444-4444-4444-8444-444444444441" Demo.squatId 1 8 60;
             Demo.aSet "44444444-4444-4444-8444-444444444442" Demo.squatId 2 6 100;
             Demo.aSet "44444444-4444-4444-8444-444444444443" Demo.squatId 3 5 120];
          mkEx Demo.lunge
            [Demo.aSet "55555555-5555-4555-8555-555555555551" Demo.lungeId 1 10 20;
             Demo.aSet "55555555-5555-4555-8555-555555555552" Demo.lungeId 2 10 20;
             Demo.aSet "55555555-5555-4555-8555-555555555553" Demo.lungeId 3 10 20]]].
Proof. vm_compute. reflexivity. Qed.

Example last_millisecond_of_the_day :
  wd_row <$> (if fst (getWorkoutsForUserByDate Demo.runtime Demo.bobId
                        (Some Demo.midnight) Demo.world) is Returned l then l else [])
  = [Demo.bobsWorkout]
  ∧ fst (getWorkoutsForUserByDate Demo.runtime Demo.bobId (Some (Demo.midnight - 1))
           Demo.world)
    = Returned [].
Proof. split; vm_compute; reflexivity. Qed.

Example empty_assignment_is_refused :
  fst (updateWorkout Demo.runtime Demo.legDayId Demo.aliceId
         (mkUpd None None None None) Demo.world)
  = Thrown (Error "No values to set").
Proof. vm_compute. reflexivity. Qed.

Example name_too_long_for_the_column :
  fst (createWorkout Demo.runtime Demo.aliceId
         (mkNew (String.concat "" (replicate 256 "x"%string)) Demo.midnight None None)
         Demo.world)
  = Thrown (DatabaseError string_data_right_truncation).
Proof. vm_compute. reflexivity. Qed.

Example trailing_spaces_are_cut :
  varchar 3 "abc  " = inr "abc"%string
  ∧ varchar 3 "abc d" = inl string_data_right_truncation.
Proof. split; vm_compute; reflexivity. Qed.

Example huge_duration_is_not_a_number_to_the_database :
  toInt4 (NInt (10 ^ 21)) = inl invalid_text_representation
  ∧ toInt4 (NInt (10 ^ 21 - 1)) = inl numeric_value_out_of_range.
Proof. split; vm_compute; reflexivity. Qed.

(** * Further properties of the code *)

(** ** The read helpers *)

Lemma head_take_1 {A} (l : list A) : head (take 1 l) = head l.
Proof. now destruct l. Qed.

Lemma filter_key_singleton {A B} `{EqDecision B} (f : A -> B) (l : list A) x :
  NoDup (f <$> l) -> x ∈ l -> filter (fun y => f y = f x) l = [x].
Proof.
  induction l as [|a l IH]; intros Hnd Hx; [inversion Hx|].
  rewrite fmap_cons, NoDup_cons in Hnd. destruct Hnd as [Hnotin Hnd].
  rewrite filter_cons. apply elem_of_cons in Hx as [<-|Hx].
  - rewrite decide_True by reflexivity. f_equal. apply filter_none.
    intros y Hy Heq. apply Hnotin. rewrite <- Heq. now apply list_elem_of_fmap_2.
  - rewrite decide_False; [now apply IH|].
    intros Heq. apply Hnotin. rewrite Heq. now apply list_elem_of_fmap_2.
Qed.

(** X1. [getAllWorkoutsForUser] always returns, after one query and without
    touching the store.  Its result holds exactly the stored workouts of
    [userId], and none of another user, in descending order of their date,
    each with exactly its exercises in ascending [orderInWorkout] and each
    exercise with exactly its sets in ascending [setNumber]. *)
Theorem getAllWorkoutsForUser_spec (userId : Uuid) (w : World) :
  exists result,
    getAllWorkoutsForUser userId w = (Returned result, withCall w QueryWorkouts)
    ∧ wd_row <$> result
        ≡ₚ filter (fun r => workouts.userId r = userId) (tbl_workouts (db w))
    ∧ Sorted (desc workouts.date) (wd_row <$> result)
    ∧ Forall (fun wd =>
                workouts.userId (wd_row wd) = userId
                ∧ ex_row <$> wd_exercises wd
                    ≡ₚ filter (fun e => exercises.workoutId e = workouts.id (wd_row wd))
                         (tbl_exercises (db w))
                ∧ Sorted (asc exercises.orderInWorkout) (ex_row <$> wd_exercises wd)
                ∧ Forall (fun ex =>
                            ex_sets ex
                              ≡ₚ filter (fun s => sets.exerciseId s = exercises.id (ex_row ex))
                                   (tbl_sets (db w))
                            ∧ Sorted (asc sets.setNumber) (ex_sets ex))
                    (wd_exercises wd))
        result.
Proof.
  eexists. split; [unfold getAllWorkoutsForUser; step; reflexivity|].
  rewrite wd_row_withData. split_and!.
  - apply merge_sort_Permutation.
  - apply Sorted_merge_sort. apply _.
  - apply Forall_fmap, Forall_forall. intros r Hr.
    cbn [compose withData wd_row wd_exercises]. split; [|apply exercisesOf_spec].
    rewrite merge_sort_Permutation in Hr.
    now apply list_elem_of_filter in Hr as [? _].
Qed.

(** X2. The owner of a stored workout gets it from [getWorkoutById]: the
    call returns that very row, with exactly its exercises in ascending
    [orderInWorkout] and their sets in ascending [setNumber], after one
    query and without touching the store. *)
Theorem getWorkoutById_owned (w : World) (W : workouts.row) :
  wfDb (db w) ->
  W ∈ tbl_workouts (db w) ->
  exists wd,
    getWorkoutById (workouts.id W) (workouts.userId W) w
      = (Returned wd, withCall w QueryWorkouts)
    ∧ wd_row wd = W
    ∧ ex_row <$> wd_exercises wd
        ≡ₚ filter (fun e => exercises.workoutId e = workouts.id W) (tbl_exercises (db w))
    ∧ Sorted (asc exercises.orderInWorkout) (ex_row <$> wd_exercises wd)
    ∧ Forall (fun ex =>
                ex_sets ex
                  ≡ₚ filter (fun s => sets.exerciseId s = exercises.id (ex_row ex))
                       (tbl_sets (db w))
                ∧ Sorted (asc sets.setNumber) (ex_sets ex))
        (wd_exercises wd).
Proof.
  intros Hwf HW. exists (withData (db w) W). split.
  - unfold getWorkoutById. step.
    rewrite (filter_owned_singleton _ _ (pk_workouts _ Hwf) HW). reflexivity.
  - split; [reflexivity|]. apply exercisesOf_spec.
Qed.

Lemma getWorkoutById_owned_witness :
  exists wd,
    getWorkoutById Demo.legDayId Demo.aliceId Demo.world
      = (Returned wd, withCall Demo.world QueryWorkouts)
    ∧ wd_row wd = Demo.legDay
    ∧ ex_row <$> wd_exercises wd = [Demo.squat; Demo.lunge].
Proof.
  destruct (getWorkoutById_owned Demo.world Demo.legDay) as (wd & Hget & Hrow & _).
  - exact wfDb_demo.
  - vm_compute. left.
  - exists wd. split; [exact Hget|]. split; [exact Hrow|].
    vm_compute in Hget. injection Hget as <-. reflexivity.
Defined.

(** The rows of a dashboard query that returned. *)
Lemma getWorkoutsForUserByDate_rows rt userId date w l :
  fst (getWorkoutsForUserByDate rt userId date w) = Returned l ->
  exists s e,
    setHours rt date 0 0 0 0 = Some s
    ∧ setHours rt date 23 59 59 999 = Some e
    ∧ l = withData (db w) <$>
            merge_sort (desc workouts.createdAt)
              (filter (fun r => workouts.userId r = userId
                                ∧ s <= workouts.date r ∧ workouts.date r <= e)
                 (tbl_workouts (db w)))
    ∧ forall r, r ∈ wd_row <$> l
                <-> r ∈ tbl_workouts (db w)
                    ∧ workouts.userId r = userId
                    ∧ s <= workouts.date r <= e.
Proof.
  intros Hrun. pose proof (getWorkoutsForUserByDate_cases rt userId date w) as Hc.
  destruct (setHours rt date 0 0 0 0) as [s|]; [|rewrite Hc in Hrun; discriminate].
  destruct (setHours rt date 23 59 59 999) as [e|]; [|rewrite Hc in Hrun; discriminate].
  destruct (timestamptz_in rt s), (timestamptz_in rt e);
    rewrite Hc in Hrun; try discriminate.
  injection Hrun as <-. exists s, e. split_and!; try reflexivity.
  intros r. rewrite wd_row_withData, merge_sort_Permutation, list_elem_of_filter. tauto.
Qed.

(** On a regular day the rows of the dashboard query are those of the local
    calendar day. *)
Lemma getWorkoutsForUserByDate_day rt userId date w l :
  fst (getWorkoutsForUserByDate rt userId (Some date) w) = Returned l ->
  regularDay rt (localDay rt date) ->
  forall r, r ∈ wd_row <$> l
            <-> r ∈ tbl_workouts (db w)
                ∧ workouts.userId r = userId
                ∧ localDay rt (workouts.date r) = localDay rt date.
Proof.
  intros Hrun Hreg r.
  destruct (getWorkoutsForUserByDate_rows rt userId _ w l Hrun) as (s & e & Hs & He & _ & Hr).
  apply setHours_Some in Hs as [-> _]. apply setHours_Some in He as [-> _].
  destruct (regularDay_interval rt _ Hreg) as (_ & _ & _ & Hday).
  rewrite Hr, Hday. tauto.
Qed.

(** X4. The dashboard query depends on [date] only through its local
    calendar day.  Two instants of the same local day give the same list;
    two instants of different local days, both regular days of the zone,
    give lists with no workout in common, so a workout shows on the
    dashboard of one day only.  In a zone with a fixed offset every day is
    regular and the local day of an instant is the day number of the
    instant shifted by the offset. *)
Theorem getWorkoutsForUserByDate_by_day rt (userId : Uuid) (date1 date2 : Timestamp)
    (w : World) (l1 l2 : list WorkoutWithData) :
  fst (getWorkoutsForUserByDate rt userId (Some date1) w) = Returned l1 ->
  fst (getWorkoutsForUserByDate rt userId (Some date2) w) = Returned l2 ->
  (localDay rt date1 = localDay rt date2 -> l1 = l2)
  ∧ (localDay rt date1 ≠ localDay rt date2 ->
     regularDay rt (localDay rt date1) ->
     regularDay rt (localDay rt date2) ->
     forall r, r ∈ wd_row <$> l1 -> r ∉ wd_row <$> l2)
  ∧ (forall offset,
       fixedOffset rt offset ->
       ((date1 + offset) `div` msPerDay = (date2 + offset) `div` msPerDay -> l1 = l2)
       ∧ ((date1 + offset) `div` msPerDay ≠ (date2 + offset) `div` msPerDay ->
          forall r, r ∈ wd_row <$> l1 -> r ∉ wd_row <$> l2)).
Proof.
  intros H1 H2.
  assert (Hsame : localDay rt date1 = localDay rt date2 -> l1 = l2).
  { intros Hday. revert H1 H2. unfold getWorkoutsForUserByDate, setHours.
    cbn [mbind option_bind]. fold (localDay rt date1). fold (localDay rt date2).
    rewrite Hday. intros -> [= ->]. reflexivity. }
  assert (Hdiff : localDay rt date1 ≠ localDay rt date2 ->
                  regularDay rt (localDay rt date1) ->
                  regularDay rt (localDay rt date2) ->
                  forall r, r ∈ wd_row <$> l1 -> r ∉ wd_row <$> l2).
  { intros Hne Hreg1 Hreg2 r Hr1 Hr2.
    apply (getWorkoutsForUserByDate_day rt userId date1 w l1 H1 Hreg1) in Hr1 as (_ & _ & D1).
    apply (getWorkoutsForUserByDate_day rt userId date2 w l2 H2 Hreg2) in Hr2 as (_ & _ & D2).
    congruence. }
  split; [exact Hsame|]. split; [exact Hdiff|].
  intros offset Hz.
  rewrite <- !(fixedOffset_localDay rt offset) by exact Hz. split; [exact Hsame|].
  intros Hne. apply Hdiff; [exact Hne|..]; now apply (fixedOffset_regular rt offset).
Qed.

Lemma getWorkoutsForUserByDate_by_day_witness :
  fst (getWorkoutsForUserByDate Demo.runtime Demo.aliceId (Some (Demo.midnight + 86399999))
         Demo.world) = Returned [withData Demo.store Demo.legDay]
  ∧ fst (getWorkoutsForUserByDate Demo.runtime Demo.aliceId (Some (Demo.midnight + 86400000))
           Demo.world) = Returned []
  ∧ forall r, r ∈ wd_row <$> [withData Demo.store Demo.legDay] -> r ∉ wd_row <$> [].
Proof.
  assert (H1 : fst (getWorkoutsForUserByDate Demo.runtime Demo.aliceId
                      (Some (Demo.midnight + 86399999)) Demo.world)
               = Returned [withData Demo.store Demo.legDay])
    by (vm_compute; reflexivity).
  assert (H2 : fst (getWorkoutsForUserByDate Demo.runtime Demo.aliceId
                      (Some (Demo.midnight + 86400000)) Demo.world) = Returned [])
    by (vm_compute; reflexivity).
  split; [exact H1|]. split; [exact H2|].
  destruct (getWorkoutsForUserByDate_by_day Demo.runtime Demo.aliceId
              (Demo.midnight + 86399999) (Demo.midnight + 86400000) Demo.world _ _ H1 H2)
    as (_ & _ & Hfixed).
  apply (Hfixed 3600000).
  - intros t isUTC. reflexivity.
  - vm_compute. discriminate.
Defined.

(** ** The auth stub *)

Lemma getCurrentUser_found rt w u :
  head (filter (fun u => users.email u = TEMP_USER_EMAIL) (tbl_users (db w))) = Some u ->
  getCurrentUser rt w = (Returned (Some u), withCall w SelectUsers).
Proof.
  intros Hhead.
  destruct (getCurrentUser_cases rt w) as [(u' & Hu' & ->)|(Hnil & _)].
  - rewrite Hhead in Hu'. now injection Hu' as <-.
  - rewrite Hnil in Hhead. discriminate.
Qed.

(** X5. When [getCurrentUser] returns, it returns a stored user whose email
    is the stub's fixed address, and from then on it is stable: the next
    call finds that same user with a single SELECT, inserts nothing and
    leaves the store as it is. *)
Theorem getCurrentUser_is_stable rt (w w1 : World) (res : option users.row) :
  getCurrentUser rt w = (Returned res, w1) ->
  exists user,
    res = Some user
    ∧ users.email user = TEMP_USER_EMAIL
    ∧ user ∈ tbl_users (db w1)
    ∧ getCurrentUser rt w1 = (Returned (Some user), withCall w1 SelectUsers).
Proof.
  intros Hrun.
  destruct (getCurrentUser_cases rt w) as [(u & Hu & Hc)|(Hnil & [(v & Hc)|Hc])];
    cbv zeta in Hc; rewrite Hc in Hrun; try discriminate; injection Hrun as <- <-.
  - exists u. pose proof (head_filter_elem _ _ _ Hu) as [Hin Hmail].
    split_and!; auto. now apply getCurrentUser_found.
  - eexists. split; [reflexivity|]. split; [reflexivity|].
    cbn [db afterProvision tbl_users]. split; [apply elem_of_app; right; left|].
    apply getCurrentUser_found. cbn [db afterProvision tbl_users].
    rewrite filter_app, Hnil. cbn [app].
    rewrite filter_cons, decide_True by reflexivity. reflexivity.
Qed.

Lemma getCurrentUser_is_stable_witness :
  getCurrentUser Demo.runtime
    (snd (getCurrentUser Demo.runtime (mkWorld emptyDb 0 0 [] [])))
  = (Returned (Some (users.mk "66666666-6666-4666-8666-666666666661" TEMP_USER_EMAIL
                       "testuser" "temporary_hash"
                       (Demo.midnight + 40000000) (Demo.midnight + 40000000))),
     withCall (snd (getCurrentUser Demo.runtime (mkWorld emptyDb 0 0 [] []))) SelectUsers).
Proof.
  destruct (getCurrentUser_is_stable Demo.runtime (mkWorld emptyDb 0 0 [] [])
              (snd (getCurrentUser Demo.runtime (mkWorld emptyDb 0 0 [] [])))
              (Some (users.mk "66666666-6666-4666-8666-666666666661" TEMP_USER_EMAIL
                       "testuser" "temporary_hash"
                       (Demo.midnight + 40000000) (Demo.midnight + 40000000))))
    as (user & Hres & _ & _ & Hagain).
  - vm_compute. reflexivity.
  - injection Hres as <-. exact Hagain.
Defined.

(** X6. The stub provisions its user under the fixed name "testuser".  When
    no stored user has the stub's email but the name is taken, the insert
    violates the unique constraint on [username]: [getCurrentUser] throws
    that database error and stores nothing, and so does
    [createWorkoutAction] on an input that passes validation. *)
Theorem getCurrentUser_username_taken rt (w : World) (input : gmap string JsValue)
    (data : NewWorkout) :
  (forall u, u ∈ tbl_users (db w) -> users.email u ≠ TEMP_USER_EMAIL) ->
  "testuser"%string ∈ users.username <$> tbl_users (db w) ->
  createWorkoutSchema rt input = inr data ->
  fst (getCurrentUser rt w) = Thrown (DatabaseError unique_violation)
  ∧ db (snd (getCurrentUser rt w)) = db w
  ∧ fst (createWorkoutAction rt input w) = Thrown (DatabaseError unique_violation)
  ∧ db (snd (createWorkoutAction rt input w)) = db w.
Proof.
  intros Hmail Hname Hvalid.
  assert (Hrun : getCurrentUser rt w
                 = (Thrown (DatabaseError unique_violation),
                    afterProvision w (tbl_users (db w)))).
  { unfold getCurrentUser, selectUsers, insertUsers. step.
    rewrite (filter_none _ _ Hmail). cbn [take length].
    rewrite decide_False by (simpl; lia). step.
    rewrite usersValues_stub, decide_True by auto.
    unfold afterProvision. cbn [db withCall calls]. now rewrite db_eta, <- app_assoc. }
  rewrite createWorkoutAction_unfold, Hvalid, Hrun.
  cbn [fst snd db afterProvision]. rewrite db_eta. auto.
Qed.

Lemma getCurrentUser_username_taken_witness :
  fst (createWorkoutAction Demo.runtime
         (<["name" := JString "Leg Day"]> (<["date" := JDate (Some Demo.midnight)]> ∅))
         Demo2.world)
  = Thrown (DatabaseError unique_violation).
Proof.
  apply (getCurrentUser_username_taken Demo.runtime Demo2.world
           (<["name" := JString "Leg Day"]> (<["date" := JDate (Some Demo.midnight)]> ∅))
           (mkNew "Leg Day" Demo.midnight None None)).
  - apply (proj1 (Forall_forall _ _)). apply (bool_decide_unpack _). vm_compute. exact I.
  - vm_compute. left.
  - vm_compute. reflexivity.
Defined.

(** ** [getUserById] *)

Lemma getUserById_unfold userId w :
  getUserById userId w
  = (Returned (head (filter (fun u => users.id u = userId) (tbl_users (db w)))),
     withCall w SelectUsers).
Proof.
  unfold getUserById, selectUsers. step. now rewrite head_take_1.
Qed.



(** X8. The user that [getCurrentUser] returns can be fetched back by its
    identifier: with unique user identifiers in the store, [getUserById]
    called with the returned user's id right after returns that same user. *)
Theorem getUserById_after_getCurrentUser rt (w w1 : World) (user : users.row) :
  NoDup (users.id <$> tbl_users (db w)) ->
  getCurrentUser rt w = (Returned (Some user), w1) ->
  getUserById (users.id user) w1 = (Returned (Some user), withCall w1 SelectUsers)
  ∧ NoDup (users.id <$> tbl_users (db w1)).
Proof.
  intros Hnd Hrun. rewrite getUserById_unfold.
  assert (Hw1 : NoDup (users.id <$> tbl_users (db w1)) ∧ user ∈ tbl_users (db w1)).
  { destruct (getCurrentUser_cases rt w) as [(u & Hu & Hc)|(Hnil & [(v & Hc)|Hc])];
      cbv zeta in Hc; rewrite Hc in Hrun; try discriminate; injection Hrun as <- <-.
    - cbn [db withCall]. split; [exact Hnd|]. now apply head_filter_elem in Hu.
    - cbn [db afterProvision tbl_users]. split; [|apply elem_of_app; right; left].
      rewrite fmap_app. apply NoDup_app. split; [exact Hnd|]. split; [|apply NoDup_singleton].
      intros x Hx Hin. apply list_elem_of_singleton in Hin. cbn [users.id] in Hin. subst x.
      revert Hc. unfold getCurrentUser, selectUsers, insertUsers. step.
      rewrite Hnil. cbn [take length]. rewrite decide_False by (simpl; lia). step.
      rewrite usersValues_stub.
      destruct (decide (_ ∨ _ ∨ _)) as [|Hfree]; [discriminate|]. intros _.
      apply Hfree. left. exact Hx. }
  destruct Hw1 as [Hnd1 Hin1].
  now rewrite (filter_key_singleton users.id _ user Hnd1 Hin1).
Qed.

Lemma getUserById_after_getCurrentUser_witness :
  getUserById Demo.aliceId (withCall Demo.world SelectUsers)
  = (Returned (Some Demo.alice), withCall (withCall Demo.world SelectUsers) SelectUsers).
Proof.
  apply (getUserById_after_getCurrentUser Demo.runtime Demo.world
           (withCall Demo.world SelectUsers) Demo.alice).
  - apply (bool_decide_unpack _). vm_compute. exact I.
  - vm_compute. reflexivity.
Defined.

(** ** The schema of [updateWorkoutAction] *)

Lemma z_string_uuid_inr test m p v s :
  z_string [s_uuid test m] p v = inr s <-> v = JString s ∧ test s = true.
Proof.
  unfold z_string. destruct v as [| |b|n|s'|t];
    try (split; [discriminate|intros [? _]; discriminate]).
  cbn [fmap list_fmap concat stringCheck app].
  destruct (test s') eqn:Hu; cbn [app]; split; try discriminate.
  - intros [= ->]. auto.
  - intros [[= ->] _]. reflexivity.
  - intros [[= ->] Hs]. congruence.
Qed.

Lemma z_nullable_inr {A} (s : Schema A) p v o :
  z_nullable s p v = inr o
  <-> (v = JNull ∧ o = null) ∨ (v ≠ JNull ∧ exists a, o = notNull a ∧ s p v = inr a).
Proof.
  unfold z_nullable. destruct v; try (destruct (s p _) as [i|a];
    (split; [intros [= <-] || discriminate | intros [[? _]|(_ & a' & ? & ?)]; congruence]);
    right; split; [discriminate|eauto]).
  split; [intros [= <-]; auto | intros [[_ ->]|[? _]]; congruence].
Qed.

Lemma updateWorkoutSchema_inr rt input v :
  updateWorkoutSchema rt input = inr v
  <-> z_string [s_uuid (zod_uuid rt) (Some "Invalid workout ID"%string)]
        ["workoutId"%string] (prop input "workoutId") = inr (v_workoutId v)
      ∧ optional (z_string [s_min 1 (Some "Name is required"%string); s_max 255 None])
          ["name"%string] (prop input "name") = inr (v_name v)
      ∧ optional (z_coerce_date rt) ["date"%string] (prop input "date") = inr (v_date v)
      ∧ optional (z_string [s_max 1000 None]) ["notes"%string] (prop input "notes")
        = inr (v_notes v)
      ∧ z_nullable (optional (z_number [n_int; n_min 1; n_max 600]))
          ["durationMinutes"%string] (prop input "durationMinutes")
        = inr (v_durationMinutes v).
Proof.
  unfold updateWorkoutSchema, field. destruct v as [i n d t m].
  cbn [v_workoutId v_name v_date v_notes v_durationMinutes].
  destruct (z_string [s_uuid _ _] _ _) as [i1|i'],
           (optional (z_string [s_min _ _; _]) _ _) as [i2|n'],
           (optional (z_coerce_date _) _ _) as [i3|d'],
           (optional (z_string [s_max 1000 None]) _ _) as [i4|t'],
           (z_nullable _ _ _) as [i5|m'];
    split; try discriminate; try (intros (? & ? & ? & ? & ?); discriminate).
  - intros [= -> -> -> -> ->]. auto.
  - intros ([= ->] & [= ->] & [= ->] & [= ->] & [= ->]). reflexivity.
Qed.

(** X9. [updateWorkoutSchema] accepts an input exactly when: workoutId is a
    string that passes the UUID test of the validation library, whichever
    that is; name is absent or a string of 1 to 255 characters;
    date is absent or coercible to a valid date; notes is absent or a string
    of at most 1000 characters; durationMinutes is absent, null, or an
    integer from 1 to 600. *)
Theorem updateWorkoutSchema_bounds rt (input : gmap string JsValue) :
  updateBounds rt input <-> exists v, updateWorkoutSchema rt input = inr v.
Proof.
  unfold updateBounds. split.
  - intros ((i & Hi & Hu) & Hname & Hdate & Hnotes & Hdur).
    assert (exists n, optional (z_string [s_min 1 (Some "Name is required"%string);
                                          s_max 255 None])
                        ["name"%string] (prop input "name") = inr n) as [n Hn].
    { destruct Hname as [->|(s & -> & Hs)]; [exists None; reflexivity|].
      exists (Some s). apply optional_inr. right. split; [discriminate|].
      exists s. split; [reflexivity|]. now apply z_string_min_max_inr. }
    assert (exists d, optional (z_coerce_date rt) ["date"%string] (prop input "date")
                      = inr d) as [d Hd].
    { assert (prop input "date" = JUndefined ∨ prop input "date" ≠ JUndefined)
        as [->|Hne]
        by (destruct (prop input "date"); (now left) || (right; discriminate));
        [exists None; reflexivity|].
      destruct Hdate as [?|[t Ht]]; [contradiction|].
      exists (Some t). apply optional_inr. right. split; [exact Hne|].
      exists t. split; [reflexivity|]. now apply z_coerce_date_inr. }
    assert (exists o, optional (z_string [s_max 1000 None]) ["notes"%string]
                        (prop input "notes") = inr o) as [o Ho].
    { destruct Hnotes as [->|(s & -> & Hs)]; [exists None; reflexivity|].
      exists (Some s). apply optional_inr. right. split; [discriminate|].
      exists s. split; [reflexivity|]. now apply z_string_max_inr. }
    assert (exists m, z_nullable (optional (z_number [n_int; n_min 1; n_max 600]))
                        ["durationMinutes"%string] (prop input "durationMinutes")
                      = inr m) as [m Hm].
    { destruct Hdur as [->|[->|(z & -> & Hz)]];
        [exists (notNull None); reflexivity | exists null; reflexivity |].
      exists (notNull (Some (NInt z))). apply z_nullable_inr. right.
      split; [discriminate|]. eexists. split; [reflexivity|].
      apply optional_inr. right. split; [discriminate|].
      eexists. split; [reflexivity|]. apply z_number_int_range_inr. eauto. }
    exists (mkValidated i n d o m). apply updateWorkoutSchema_inr.
    cbn [v_workoutId v_name v_date v_notes v_durationMinutes]. split_and!; auto.
    now apply z_string_uuid_inr.
  - intros [v Hs]. apply updateWorkoutSchema_inr in Hs as (Hi & Hn & Hd & Ht & Hm).
    apply z_string_uuid_inr in Hi as [Hi Hu].
    apply optional_inr in Hn. apply optional_inr in Hd. apply optional_inr in Ht.
    apply z_nullable_inr in Hm. split_and!.
    + eauto.
    + destruct Hn as [[? _]|(_ & s & _ & Hs)]; [now left|right].
      apply z_string_min_max_inr in Hs as [? ?]. eauto.
    + destruct Hd as [[? _]|(_ & t & _ & Hs)]; [now left|right].
      apply z_coerce_date_inr in Hs. eauto.
    + destruct Ht as [[? _]|(_ & s & _ & Hs)]; [now left|right].
      apply z_string_max_inr in Hs as [? ?]. eauto.
    + destruct Hm as [[? _]|(_ & o & _ & Hs)]; [now (right; left)|].
      apply optional_inr in Hs as [[? _]|(_ & n & _ & Hs)]; [now left|right; right].
      apply z_number_int_range_inr in Hs as (z & ? & _ & ?). eauto.
Qed.

Lemma updateWorkoutAction_rejected rt input issues w :
  updateWorkoutSchema rt input = inl issues ->
  updateWorkoutAction rt input w = (Thrown (ZodError issues), w).
Proof.
  intros Hs. unfold updateWorkoutAction. rewrite Hs. reflexivity.
Qed.

(** X10. [updateWorkoutAction] validates before anything else: when the
    schema rejects the input the action throws the [ZodError] and the world
    is exactly as before, with no user looked up and no statement sent.  A
    workoutId that is missing, not a string, or fails the UUID test of the
    validation library is rejected with an issue at path [workoutId]. *)
Theorem updateWorkoutAction_validates_first rt (input : gmap string JsValue) (w : World) :
  (forall issues,
     updateWorkoutSchema rt input = inl issues ->
     updateWorkoutAction rt input w = (Thrown (ZodError issues), w))
  ∧ ((forall i, prop input "workoutId" = JString i -> zod_uuid rt i = false) ->
     exists issue issues,
       updateWorkoutAction rt input w = (Thrown (ZodError (issue :: issues)), w)
       ∧ path issue = ["workoutId"%string]).
Proof.
  split; [intros issues; apply updateWorkoutAction_rejected|].
  intros Hbad.
  assert (exists issue,
            z_string [s_uuid (zod_uuid rt) (Some "Invalid workout ID"%string)]
              ["workoutId"%string] (prop input "workoutId") = inl [issue]
            ∧ path issue = ["workoutId"%string]) as (issue & Hi & Hp).
  { unfold z_string. destruct (prop input "workoutId") as [| |b|n|i|t];
      try (eexists; split; reflexivity).
    cbn [fmap list_fmap concat stringCheck app]. rewrite (Hbad i eq_refl).
    eexists; split; reflexivity. }
  exists issue. eexists. split; [|exact Hp].
  apply updateWorkoutAction_rejected. unfold updateWorkoutSchema, field. rewrite Hi.
  cbn [issuesOf app]. reflexivity.
Qed.

Lemma updateWorkoutAction_validates_first_witness :
  exists issue issues,
    updateWorkoutAction Demo.runtime
      (<["workoutId" := JString "not-a-uuid"]> (<["name" := JString "x"]> ∅)) Demo.world
    = (Thrown (ZodError (issue :: issues)), Demo.world)
    ∧ path issue = ["workoutId"%string].
Proof.
  apply (updateWorkoutAction_validates_first Demo.runtime
           (<["workoutId" := JString "not-a-uuid"]> (<["name" := JString "x"]> ∅))
           Demo.world).
  intros i Hi. vm_compute in Hi. injection Hi as <-. vm_compute. reflexivity.
Defined.

(** ** The actions as a whole *)

Lemma getCurrentUser_frame rt w :
  revalidated (snd (getCurrentUser rt w)) = revalidated w
  ∧ (calls (snd (getCurrentUser rt w)) = calls w ++ [SelectUsers]
     ∨ calls (snd (getCurrentUser rt w)) = calls w ++ [SelectUsers; InsertUsers])
  ∧ fst (getCurrentUser rt w) ≠ Returned None
  ∧ (forall e, fst (getCurrentUser rt w) = Thrown e -> exists v, e = DatabaseError v).
Proof.
  destruct (getCurrentUser_cases rt w) as [(u & Hu & ->)|(_ & [(v & ->)| ->])];
    cbn [fst snd revalidated calls withCall afterProvision db tbl_users];
    split_and!; auto; try discriminate.
  intros e [= <-]. eauto.
Qed.

(** X11. An update submitted through the action for a workout that belongs
    to someone other than the current user fails like a missing workout:
    the action throws the not-found-or-unauthorized error, no UPDATE is
    sent, no workout changes and no path is revalidated. *)
Theorem updateWorkoutAction_other_users_workout rt (w w1 : World)
    (input : gmap string JsValue) (validated : ValidatedUpdate)
    (user : users.row) (W : workouts.row) :
  wfDb (db w) ->
  getCurrentUser rt w = (Returned (Some user), w1) ->
  W ∈ tbl_workouts (db w) ->
  workouts.userId W ≠ users.id user ->
  updateWorkoutSchema rt input = inr validated ->
  v_workoutId validated = workouts.id W ->
  updateWorkoutAction rt input w = (Thrown NotFoundOrUnauthorized, withCall w1 QueryWorkouts)
  ∧ tbl_workouts (db w1) = tbl_workouts (db w)
  ∧ revalidated w1 = revalidated w.
Proof.
  intros Hwf Hrun HW Hne Hvalid Hid.
  pose proof (getCurrentUser_wf rt w Hwf) as Hwf1.
  destruct (getCurrentUser_tables rt w) as (Htbl & _ & _).
  destruct (getCurrentUser_frame rt w) as (Hrev & _).
  rewrite Hrun in Hwf1, Htbl, Hrev. cbn [snd] in Hwf1, Htbl, Hrev.
  split; [|auto].
  rewrite updateWorkoutAction_unfold, Hvalid, Hrun, Hid.
  rewrite updateWorkout_unmatched; [reflexivity|].
  apply no_row_for_other_user; auto. now rewrite Htbl.
Qed.

Lemma updateWorkoutAction_other_users_workout_witness :
  updateWorkoutAction Demo.runtime
    (<["workoutId" := JString Demo.bobsId]> (<["name" := JString "Mine now"]> ∅))
    Demo.world
  = (Thrown NotFoundOrUnauthorized,
     withCall (withCall Demo.world SelectUsers) QueryWorkouts).
Proof.
  apply (updateWorkoutAction_other_users_workout Demo.runtime Demo.world
           (withCall Demo.world SelectUsers)
           (<["workoutId" := JString Demo.bobsId]> (<["name" := JString "Mine now"]> ∅))
           (mkValidated Demo.bobsId (Some "Mine now"%string) None None (notNull None))
           Demo.alice Demo.bobsWorkout).
  - exact wfDb_demo.
  - vm_compute. reflexivity.
  - vm_compute. right. left.
  - vm_compute. discriminate.
  - vm_compute. reflexivity.
  - reflexivity.
Defined.

(** X12. [createWorkoutAction] in order.  When it returns, it has looked the
    user up (inserting it at most once), then inserted one workout, the row
    it returns, as the last statement, and then marked "/dashboard" stale.
    When it throws, no path is marked stale and no workout, exercise or set
    is stored or changed; when the error is the validation error, the world
    is untouched. *)
Theorem createWorkoutAction_orchestration rt (input : gmap string JsValue) (w : World) :
  match createWorkoutAction rt input w with
  | (Returned res, w') =>
      revalidated w' = revalidated w ++ ["/dashboard"%string]
      ∧ (calls w' = calls w ++ [SelectUsers; InsertWorkouts]
         ∨ calls w' = calls w ++ [SelectUsers; InsertUsers; InsertWorkouts])
      ∧ exists r, res = Some r ∧ tbl_workouts (db w') = tbl_workouts (db w) ++ [r]
  | (Thrown e, w') =>
      revalidated w' = revalidated w
      ∧ tbl_workouts (db w') = tbl_workouts (db w)
      ∧ tbl_exercises (db w') = tbl_exercises (db w)
      ∧ tbl_sets (db w') = tbl_sets (db w)
      ∧ (forall issues, e = ZodError issues -> w' = w)
  end.
Proof.
  rewrite createWorkoutAction_unfold.
  destruct (createWorkoutSchema rt input) as [issues|validated]; [split_and!; auto|].
  destruct (getCurrentUser_tables rt w) as (Hw & He & Hs).
  destruct (getCurrentUser_frame rt w) as (Hrev & Hcalls & Hsome & Hthrown).
  destruct (getCurrentUser rt w) as [[[user|]|e] w1];
    cbn [fst snd] in Hw, He, Hs, Hrev, Hcalls, Hsome, Hthrown.
  - destruct (createWorkout_cases rt (users.id user) validated w1)
      as [(v & ->)|(nm & minutes & _ & _ & _ & Hc)].
    + cbn [afterInsert db revalidated tbl_workouts tbl_exercises tbl_sets].
      split_and!; auto. discriminate.
    + cbv zeta in Hc. rewrite Hc.
      cbn [afterInsert db revalidated calls tbl_workouts].
      split_and!; [now rewrite Hrev| |eexists; split; [reflexivity|now rewrite Hw]].
      destruct Hcalls as [-> | ->]; [left|right]; now rewrite <- app_assoc.
  - contradiction.
  - split_and!; auto. intros issues ->.
    destruct (Hthrown _ eq_refl) as [v Hv]. discriminate.
Qed.

(** X13. [updateWorkoutAction] in order.  When it returns, the input passed
    validation, the last two statements sent are the ownership query and
    the UPDATE, and the two paths "/dashboard" and "/dashboard/workout/<id>"
    of the validated identifier are marked stale, in that order.  When it
    throws, no path is marked stale and no workout is changed; when the
    error is the validation error, the world is untouched. *)
Theorem updateWorkoutAction_orchestration rt (input : gmap string JsValue) (w : World) :
  match updateWorkoutAction rt input w with
  | (Returned res, w') =>
      exists validated prior,
        updateWorkoutSchema rt input = inr validated
        ∧ calls w' = prior ++ [QueryWorkouts; UpdateWorkouts]
        ∧ revalidated w'
          = revalidated w
            ++ ["/dashboard"%string; "/dashboard/workout/" +:+ v_workoutId validated]
  | (Thrown e, w') =>
      revalidated w' = revalidated w
      ∧ tbl_workouts (db w') = tbl_workouts (db w)
      ∧ (forall issues, e = ZodError issues -> w' = w)
  end.
Proof.
  rewrite updateWorkoutAction_unfold.
  destruct (updateWorkoutSchema rt input) as [issues|validated]; [split_and!; auto|].
  destruct (getCurrentUser_tables rt w) as (Hw & _ & _).
  destruct (getCurrentUser_frame rt w) as (Hrev & _ & Hsome & Hthrown).
  destruct (getCurrentUser rt w) as [[[user|]|e] w1];
    cbn [fst snd] in Hw, Hrev, Hsome, Hthrown.
  - set (data := mkUpd _ _ _ _).
    destruct (updateWorkout_cases rt (v_workoutId validated) (users.id user) data w1)
      as [(_ & ->)|(old & _ & [(_ & _ & ->)|[(v & ->)|(n & m & _ & ->)]])];
      cbn [afterUpdate withCall db revalidated calls tbl_workouts];
      try (split_and!; auto; discriminate).
    exists validated, (calls w1). split; [reflexivity|].
    split; [now rewrite <- app_assoc|]. now rewrite Hrev, <- app_assoc.
  - contradiction.
  - split_and!; auto. intros issues ->.
    destruct (Hthrown _ eq_refl) as [v Hv]. discriminate.
Qed.

(** X14. The three mutating helpers fail cleanly: whenever [createWorkout],
    [updateWorkout] or [deleteWorkout] throws, for whatever reason, the
    store is exactly what it was before the call. *)
Theorem helpers_fail_atomically rt (w : World) (workoutId userId : Uuid)
    (new : NewWorkout) (upd : WorkoutUpdate) :
  (forall e w', createWorkout rt userId new w = (Thrown e, w') -> db w' = db w)
  ∧ (forall e w', updateWorkout rt workoutId userId upd w = (Thrown e, w') -> db w' = db w)
  ∧ (forall e w', deleteWorkout workoutId userId w = (Thrown e, w') -> db w' = db w).
Proof.
  split_and!; intros e w' Hrun.
  - destruct (createWorkout_cases rt userId new w)
      as [(v & Hc)|(nm & minutes & _ & _ & _ & Hc)];
      cbv zeta in Hc; rewrite Hc in Hrun; [|discriminate].
    injection Hrun as _ <-. cbn [db afterInsert]. apply db_eta.
  - destruct (updateWorkout_cases rt workoutId userId upd w)
      as [(_ & Hc)|(old & _ & [(_ & _ & Hc)|[(v & Hc)|(n & m & Hv & Hc)]])];
      rewrite Hc in Hrun; try discriminate; injection Hrun as _ <-;
      cbn [db withCall afterUpdate]; auto using db_eta.
  - rewrite deleteWorkout_unfold in Hrun. cbv zeta in Hrun.
    destruct (pgDeleteWorkouts _ _ _ _) as [v|[deleted d']] eqn:Hpg.
    { injection Hrun as _ <-. reflexivity. }
    destruct (head deleted) eqn:Hhead; [discriminate|]. injection Hrun as _ <-.
    cbn [db afterDelete]. unfold exercises_workoutId_onDelete, sets_exerciseId_onDelete in Hpg.
    pose proof Hpg as Hdel. rewrite pgDelete_cascade in Hdel. injection Hdel as Hdel _.
    rewrite <- Hdel in Hhead.
    rewrite (pgDelete_unmatched w workoutId userId (head_filter_none _ _ Hhead)) in Hpg.
    now injection Hpg as _ <-.
Qed.

Lemma helpers_fail_atomically_witness :
  createWorkout Demo.runtime Demo.aliceId
    (mkNew "Too much" Demo.midnight None (Some (NInt 4294967296))) Demo.world
  = (Thrown (DatabaseError numeric_value_out_of_range),
     afterInsert Demo.world (tbl_workouts Demo.store))
  ∧ db (afterInsert Demo.world (tbl_workouts Demo.store)) = Demo.store.
Proof.
  assert (Hrun : createWorkout Demo.runtime Demo.aliceId
                   (mkNew "Too much" Demo.midnight None (Some (NInt 4294967296)))
                   Demo.world
                 = (Thrown (DatabaseError numeric_value_out_of_range),
                    afterInsert Demo.world (tbl_workouts Demo.store)))
    by (vm_compute; reflexivity).
  split; [exact Hrun|].
  destruct (helpers_fail_atomically Demo.runtime Demo.world Demo.legDayId Demo.aliceId
              (mkNew "Too much" Demo.midnight None (Some (NInt 4294967296)))
              (mkUpd None None None None)) as (Hcreate & _ & _).
  exact (Hcreate _ _ Hrun).
Defined.

(** ** Mutations followed by reads *)

Lemma exercisesOf_ext d d' r r' :
  tbl_exercises d' = tbl_exercises d -> tbl_sets d' = tbl_sets d ->
  workouts.id r' = workouts.id r ->
  exercisesOf d' r' = exercisesOf d r.
Proof.
  intros He Hs Hid. unfold exercisesOf, setsOf. now rewrite He, Hs, Hid.
Qed.

Lemma filter_fmap_stable {A} (P : A -> Prop) `{forall x, Decision (P x)} (f : A -> A)
    (l : list A) :
  (forall x, P (f x) <-> P x) -> filter P (f <$> l) = f <$> filter P l.
Proof.
  intros Hf. induction l as [|a l IH]; [reflexivity|].
  rewrite fmap_cons, !filter_cons.
  destruct (decide (P (f a))) as [Hy|Hn], (decide (P a)) as [Hy'|Hn'];
    rewrite ?fmap_cons, IH; try reflexivity.
  - exfalso. now apply Hn', Hf.
  - exfalso. now apply Hn, Hf.
Qed.

Lemma deleteWorkout_owned w W :
  wfDb (db w) -> W ∈ tbl_workouts (db w) ->
  let owned := fun r => workouts.id r = workouts.id W
                        ∧ workouts.userId r = workouts.userId W in
  deleteWorkout (workouts.id W) (workouts.userId W) w
  = (Returned W,
     afterDelete w
       (mkDb (tbl_users (db w))
          (filter (fun r => ¬ owned r) (tbl_workouts (db w)))
          (filter (fun e => exercises.workoutId e ∉ [workouts.id W]) (tbl_exercises (db w)))
          (filter (fun s => sets.exerciseId s ∉
                            exercises.id <$>
                              filter (fun e => exercises.workoutId e ∈ [workouts.id W])
                                (tbl_exercises (db w)))
             (tbl_sets (db w))))).
Proof.
  intros Hwf HW owned.
  pose proof (filter_owned_singleton _ _ (pk_workouts _ Hwf) HW) as Hone.
  fold owned in Hone.
  pose proof (pgDelete_cascade owned (db w)) as Hpg. rewrite Hone in Hpg.
  rewrite deleteWorkout_unfold. cbv zeta. fold owned.
  unfold exercises_workoutId_onDelete, sets_exerciseId_onDelete. rewrite Hpg.
  reflexivity.
Qed.

Lemma deleted_id_is_gone w W :
  wfDb (db w) -> W ∈ tbl_workouts (db w) ->
  forall r,
    r ∈ filter (fun r => ¬ (workouts.id r = workouts.id W
                            ∧ workouts.userId r = workouts.userId W))
          (tbl_workouts (db w))
    <-> r ∈ tbl_workouts (db w) ∧ r ≠ W.
Proof.
  intros Hwf HW r. rewrite list_elem_of_filter. split.
  - intros [Hnot Hr]. split; [exact Hr|]. intros ->. apply Hnot. auto.
  - intros [Hr Hne]. split; [|exact Hr]. intros [Hid _]. apply Hne.
    eapply NoDup_fmap_eq; eauto using pk_workouts.
Qed.

(** X15. A deleted workout stays gone.  After its owner has deleted a
    stored workout, fetching, updating or deleting it again, as any user,
    throws the not-found-or-unauthorized error. *)
Theorem deleted_workout_is_gone rt (w : World) (W : workouts.row) (data : WorkoutUpdate) :
  wfDb (db w) ->
  W ∈ tbl_workouts (db w) ->
  exists w',
    deleteWorkout (workouts.id W) (workouts.userId W) w = (Returned W, w')
    ∧ forall userId,
        getWorkoutById (workouts.id W) userId w'
          = (Thrown NotFoundOrUnauthorized, withCall w' QueryWorkouts)
        ∧ updateWorkout rt (workouts.id W) userId data w'
          = (Thrown NotFoundOrUnauthorized, withCall w' QueryWorkouts)
        ∧ deleteWorkout (workouts.id W) userId w'
          = (Thrown NotFoundOrUnauthorized, withCall w' DeleteWorkouts).
Proof.
  intros Hwf HW. eexists. split; [now apply deleteWorkout_owned|].
  intros userId.
  assert (Hnone : forall r,
            r ∈ tbl_workouts (db (afterDelete w
                  (mkDb (tbl_users (db w))
                     (filter (fun r => ¬ (workouts.id r = workouts.id W
                                          ∧ workouts.userId r = workouts.userId W))
                        (tbl_workouts (db w)))
                     (filter (fun e => exercises.workoutId e ∉ [workouts.id W])
                        (tbl_exercises (db w)))
                     (filter (fun s => sets.exerciseId s ∉
                                       exercises.id <$>
                                         filter (fun e => exercises.workoutId e
                                                          ∈ [workouts.id W])
                                           (tbl_exercises (db w)))
                        (tbl_sets (db w)))))) ->
            ¬ (workouts.id r = workouts.id W ∧ workouts.userId r = userId)).
  { cbn [db afterDelete tbl_workouts]. intros r Hr [Hid _].
    apply (deleted_id_is_gone w W Hwf HW) in Hr as [Hr Hne]. apply Hne.
    eapply NoDup_fmap_eq; eauto using pk_workouts. }
  split_and!.
  - now apply getWorkoutById_unmatched.
  - now apply updateWorkout_unmatched.
  - now apply deleteWorkout_unmatched.
Qed.

Lemma deleted_workout_is_gone_witness :
  exists w',
    deleteWorkout Demo.legDayId Demo.aliceId Demo.world = (Returned Demo.legDay, w')
    ∧ deleteWorkout Demo.legDayId Demo.aliceId w'
      = (Thrown NotFoundOrUnauthorized, withCall w' DeleteWorkouts).
Proof.
  destruct (deleted_workout_is_gone Demo.runtime Demo.world Demo.legDay
              (mkUpd None None None None)) as (w' & Hdel & Hgone).
  - exact wfDb_demo.
  - vm_compute. left.
  - exists w'. split; [exact Hdel|]. apply (Hgone Demo.aliceId).
Defined.

(** X16. Deleting one workout spares the rest.  With unique exercise
    identifiers, after the owner has deleted [W] the users table is as
    before, the workouts stored are exactly those stored before other than
    [W], and every other stored workout [V] still reads back from
    [getWorkoutById] with the same exercises and the same sets. *)
Theorem deleteWorkout_spares_the_rest (w : World) (W V : workouts.row) :
  wfDb (db w) ->
  NoDup (exercises.id <$> tbl_exercises (db w)) ->
  W ∈ tbl_workouts (db w) ->
  V ∈ tbl_workouts (db w) ->
  V ≠ W ->
  exists w',
    deleteWorkout (workouts.id W) (workouts.userId W) w = (Returned W, w')
    ∧ tbl_users (db w') = tbl_users (db w)
    ∧ (forall r, r ∈ tbl_workouts (db w') <-> r ∈ tbl_workouts (db w) ∧ r ≠ W)
    ∧ fst (getWorkoutById (workouts.id V) (workouts.userId V) w')
      = fst (getWorkoutById (workouts.id V) (workouts.userId V) w).
Proof.
  intros Hwf Hpe HW HV Hne.
  assert (Hids : workouts.id V ≠ workouts.id W).
  { intros Heq. apply Hne. eapply NoDup_fmap_eq; eauto using pk_workouts. }
  eexists. split; [now apply deleteWorkout_owned|].
  cbn [db afterDelete tbl_users tbl_workouts]. split; [reflexivity|].
  split; [now apply deleted_id_is_gone|].
  unfold getWorkoutById. step. cbn [db afterDelete tbl_workouts].
  rewrite (filter_owned_singleton _ V (pk_workouts _ Hwf) HV).
  rewrite (filter_owned_singleton _ V).
  2:{ apply NoDup_fmap_filter, (pk_workouts _ Hwf). }
  2:{ now apply (deleted_id_is_gone w W Hwf HW). }
  cbn [head fmap option_fmap option_map fst]. unfold withData.
  match goal with
  | |- Returned (mkWd V ?a) = Returned (mkWd V ?b) => enough (a = b) as -> by reflexivity
  end.
  unfold exercisesOf. cbn [tbl_exercises].
  rewrite list_filter_filter_l.
  2:{ intros e He Hin. apply list_elem_of_singleton in Hin. congruence. }
  apply list_fmap_ext. intros i e Hi. f_equal.
  apply list_elem_of_lookup_2 in Hi. rewrite merge_sort_Permutation in Hi.
  apply list_elem_of_filter in Hi as [HeV He].
  unfold setsOf. cbn [tbl_sets]. f_equal.
  apply list_filter_filter_l. intros s Hs Hgone.
  apply list_elem_of_fmap in Hgone as (e' & Hid & He').
  apply list_elem_of_filter in He' as [HeW He'].
  apply list_elem_of_singleton in HeW.
  assert (e' = e) as -> by (eapply NoDup_fmap_eq; eauto; congruence).
  congruence.
Qed.

Lemma deleteWorkout_spares_the_rest_witness :
  fst (getWorkoutById Demo.bobsId Demo.bobId
         (snd (deleteWorkout Demo.legDayId Demo.aliceId Demo.world)))
  = fst (getWorkoutById Demo.bobsId Demo.bobId Demo.world).
Proof.
  destruct (deleteWorkout_spares_the_rest Demo.world Demo.legDay Demo.bobsWorkout)
    as (w' & Hdel & _ & _ & Hsame).
  - exact wfDb_demo.
  - apply (bool_decide_unpack _). vm_compute. exact I.
  - vm_compute. left.
  - vm_compute. right. left.
  - vm_compute. discriminate.
  - change Demo.legDayId with (workouts.id Demo.legDay).
    change Demo.aliceId with (workouts.userId Demo.legDay).
    rewrite Hdel. exact Hsame.
Defined.

(** X17. Update, then read.  In a consistent store, after [updateWorkout]
    has returned a row, [getWorkoutById] with the same identifier and user
    returns that row, together with the exercises and sets that the workout
    had before the update. *)
Theorem update_then_get rt (w w' : World) (workoutId userId : Uuid)
    (data : WorkoutUpdate) (new : workouts.row) :
  wfDb (db w) ->
  updateWorkout rt workoutId userId data w = (Returned (Some new), w') ->
  exists wd wd0,
    getWorkoutById workoutId userId w' = (Returned wd, withCall w' QueryWorkouts)
    ∧ wd_row wd = new
    ∧ fst (getWorkoutById workoutId userId w) = Returned wd0
    ∧ wd_exercises wd = wd_exercises wd0.
Proof.
  intros Hwf Hrun.
  destruct (updateWorkout_cases rt workoutId userId data w)
    as [(_ & Hc)|(old & Hold & [(_ & _ & Hc)|[(v & Hc)|(n & m & Hv & Hc)]])];
    rewrite Hc in Hrun; try discriminate.
  injection Hrun as <- <-.
  pose proof (head_filter_elem _ _ _ Hold) as [Hin [Hid Hu]].
  pose proof (filter_owned_singleton _ old (pk_workouts _ Hwf) Hin) as Hone.
  rewrite Hid, Hu in Hone.
  set (now := clock rt (clockReads w)) in *.
  set (upd := fun r : workouts.row => if decide _ then applySet (asStored data n) m now r else r).
  assert (Hupd : upd old = applySet (asStored data n) m now old).
  { unfold upd. now rewrite decide_True. }
  assert (Hstable : forall r, (workouts.id (upd r) = workoutId
                               ∧ workouts.userId (upd r) = userId)
                              <-> (workouts.id r = workoutId ∧ workouts.userId r = userId)).
  { intros r. unfold upd. case_decide; [|tauto]. cbn [applySet workouts.id workouts.userId].
    tauto. }
  exists (mkWd (applySet (asStored data n) m now old) (exercisesOf (db w) old)),
         (withData (db w) old).
  split_and!; try reflexivity.
  - unfold getWorkoutById. step. cbn [afterUpdate withCall db tbl_workouts].
    rewrite (filter_fmap_stable _ upd _ Hstable), Hone.
    cbn [fmap list_fmap head option_fmap option_map]. rewrite Hupd.
    unfold withData.
    rewrite (exercisesOf_ext (db w) _ old (applySet (asStored data n) m now old)); reflexivity.
  - unfold getWorkoutById. step. rewrite Hone. reflexivity.
Qed.

Lemma update_then_get_witness :
  exists wd wd0,
    getWorkoutById Demo.legDayId Demo.aliceId
      (snd (updateWorkout Demo.runtime Demo.legDayId Demo.aliceId
              (mkUpd (Some "Heavy legs"%string) None None (Some (NInt 50))) Demo.world))
    = (Returned wd,
       withCall (snd (updateWorkout Demo.runtime Demo.legDayId Demo.aliceId
                        (mkUpd (Some "Heavy legs"%string) None None (Some (NInt 50)))
                        Demo.world)) QueryWorkouts)
    ∧ wd_row wd = workouts.mk Demo.legDayId Demo.aliceId "Heavy legs"
                    (Demo.midnight + 36000000) None (Some 50)
                    5000 (Demo.midnight + 40000000)
    ∧ fst (getWorkoutById Demo.legDayId Demo.aliceId Demo.world) = Returned wd0
    ∧ wd_exercises wd = wd_exercises wd0.
Proof.
  apply (update_then_get Demo.runtime Demo.world _ Demo.legDayId Demo.aliceId
           (mkUpd (Some "Heavy legs"%string) None None (Some (NInt 50)))).
  - exact wfDb_demo.
  - vm_compute. reflexivity.
Defined.

(** ** The edit page *)

Lemma EditWorkoutPage_unfold rt workoutId w :
  EditWorkoutPage rt workoutId w =
  match getCurrentUser rt w with
  | (Thrown e, w1) => (Thrown e, w1)
  | (Returned None, w1) => (Returned NotFoundPage, w1)
  | (Returned (Some user), w1) =>
      match getWorkoutById workoutId (users.id user) w1 with
      | (Returned wd, w2) => (Returned (Rendered wd), w2)
      | (Thrown _, w2) => (Returned NotFoundPage, w2)
      end
  end.
Proof.
  unfold EditWorkoutPage. step.
  destruct (getCurrentUser rt w) as [[[user|]|e] w1]; try reflexivity.
  unfold tryCatch, userIdOf. step.
  destruct (getWorkoutById workoutId (users.id user) w1) as [[wd|e] w2]; reflexivity.
Qed.

(** X18. The edit page shows a workout only to its owner.  With [user] the
    current user: whatever the page renders is a stored workout with the
    requested identifier that belongs to [user]; when no stored workout has
    that identifier and that owner, whether the identifier is unknown or the
    workout is someone else's, the page is the same 404; and in a consistent
    store the owner's request for a stored workout renders it. *)
Theorem EditWorkoutPage_spec rt (w w1 : World) (user : users.row) (workoutId : string) :
  getCurrentUser rt w = (Returned (Some user), w1) ->
  (forall wd w',
     EditWorkoutPage rt workoutId w = (Returned (Rendered wd), w') ->
     wd_row wd ∈ tbl_workouts (db w)
     ∧ workouts.id (wd_row wd) = workoutId
     ∧ workouts.userId (wd_row wd) = users.id user)
  ∧ ((forall r, r ∈ tbl_workouts (db w) ->
                ¬ (workouts.id r = workoutId ∧ workouts.userId r = users.id user)) ->
     EditWorkoutPage rt workoutId w = (Returned NotFoundPage, withCall w1 QueryWorkouts))
  ∧ (wfDb (db w) ->
     forall W, W ∈ tbl_workouts (db w) -> workouts.id W = workoutId ->
               workouts.userId W = users.id user ->
               exists wd,
                 EditWorkoutPage rt workoutId w
                   = (Returned (Rendered wd), withCall w1 QueryWorkouts)
                 ∧ wd_row wd = W).
Proof.
  intros Hrun.
  destruct (getCurrentUser_tables rt w) as (Htbl & _ & _).
  rewrite Hrun in Htbl. cbn [snd] in Htbl.
  rewrite EditWorkoutPage_unfold, Hrun. split_and!.
  - intros wd w'. unfold getWorkoutById. step. rewrite Htbl.
    destruct (head (filter _ (tbl_workouts (db w)))) as [r|] eqn:Hhead;
      cbn [fmap option_fmap option_map]; [|discriminate].
    intros [= <- _]. cbn [wd_row withData].
    now apply head_filter_elem in Hhead as [? [? ?]].
  - intros Hnone. rewrite getWorkoutById_unmatched; [reflexivity|]. now rewrite Htbl.
  - intros Hwf W HW <- Hu. exists (withData (db w1) W).
    unfold getWorkoutById. step. rewrite Htbl, <- Hu.
    rewrite (filter_owned_singleton _ W (pk_workouts _ Hwf) HW). split; reflexivity.
Qed.

Lemma EditWorkoutPage_spec_witness :
  EditWorkoutPage Demo.runtime Demo.bobsId Demo.world
  = (Returned NotFoundPage, withCall (withCall Demo.world SelectUsers) QueryWorkouts)
  ∧ EditWorkoutPage Demo.runtime Demo.unusedId Demo.world
    = (Returned NotFoundPage, withCall (withCall Demo.world SelectUsers) QueryWorkouts).
Proof.
  assert (Hrun : getCurrentUser Demo.runtime Demo.world
                 = (Returned (Some Demo.alice), withCall Demo.world SelectUsers))
    by (vm_compute; reflexivity).
  split.
  - apply (EditWorkoutPage_spec Demo.runtime Demo.world _ Demo.alice Demo.bobsId Hrun).
    apply (proj1 (Forall_forall _ _)). apply (bool_decide_unpack _). vm_compute. exact I.
  - apply (EditWorkoutPage_spec Demo.runtime Demo.world _ Demo.alice Demo.unusedId Hrun).
    apply (proj1 (Forall_forall _ _)). apply (bool_decide_unpack _). vm_compute. exact I.
Defined.

(** ** The login endpoint *)

Section LoginFacts.

Variable bcrypt_compare : string -> string -> bool.
Variable pgText : JsValue -> string.

Lemma POST_unfold body w :
  POST bcrypt_compare pgText (Some body) w =
  if negb (truthy (prop body "username")) || negb (truthy (prop body "password"))
  then (Returned (mkResponse 400 false "Username and password are required" None), w)
  else
    match head (filter (fun u => users.username u = pgText (prop body "username"))
                  (tbl_users (db w))) with
    | None =>
        (Returned (mkResponse 401 false "Invalid username or password" None),
         withCall w SelectUsers)
    | Some user0 =>
        match prop body "password" with
        | JString p =>
            if bcrypt_compare p (users.passwordHash user0)
            then (Returned (mkResponse 200 true "Login successful"
                              (Some (mkLoginUser (users.id user0) (users.username user0)
                                       (users.email user0)))),
                  withCall w SelectUsers)
            else (Returned (mkResponse 401 false "Invalid username or password" None),
                  withCall w SelectUsers)
        | _ =>
            (Returned (mkResponse 500 false "An error occurred during login" None),
             withCall w SelectUsers)
        end
    end.
Proof.
  unfold POST, tryCatch.
  destruct (negb (truthy (prop body "username")) || negb (truthy (prop body "password")));
    [reflexivity|].
  unfold selectUsers. step.
  destruct (filter _ (tbl_users (db w))) as [|user0 rest]; [reflexivity|].
  cbn [take head].
  destruct (prop body "password") as [| |b|n|p|t]; try reflexivity.
  step. destruct (bcrypt_compare p (users.passwordHash user0)); reflexivity.
Qed.

(** X19. A login request without a username or without a password, the
    empty string included, is answered with status 400 before the database
    is consulted: no statement is sent and the world is unchanged. *)
Theorem login_requires_both_fields (body : gmap string JsValue) (w : World) :
  truthy (prop body "username") = false ∨ truthy (prop body "password") = false ->
  POST bcrypt_compare pgText (Some body) w
  = (Returned (mkResponse 400 false "Username and password are required" None), w).
Proof.
  intros Hmissing. rewrite POST_unfold.
  destruct Hmissing as [-> | ->]; [reflexivity|].
  now rewrite orb_true_r.
Qed.


(** X21. A successful login is earned.  The handler always answers and
    never throws or writes.  When the answer says success, the status is
    200, the body had a string password, some stored user has the requested
    username and a hash that the password verifies against, and the user
    data in the answer are that user's id, username and email.  When it does
    not say success, the status is 400, 401 or 500 and the answer carries no
    user data. *)
Theorem login_sound (body : option (gmap string JsValue)) (w : World) :
  exists resp w',
    POST bcrypt_compare pgText body w = (Returned resp, w')
    ∧ db w' = db w
    ∧ if res_success resp
      then exists b u p,
             body = Some b
             ∧ u ∈ tbl_users (db w)
             ∧ users.username u = pgText (prop b "username")
             ∧ prop b "password" = JString p
             ∧ bcrypt_compare p (users.passwordHash u) = true
             ∧ res_status resp = 200
             ∧ res_user resp
               = Some (mkLoginUser (users.id u) (users.username u) (users.email u))
      else res_user resp = None
           ∧ (res_status resp = 400 ∨ res_status resp = 401 ∨ res_status resp = 500).
Proof.
  destruct body as [b|].
  2:{ eexists _, _. split; [reflexivity|]. cbn. auto. }
  rewrite POST_unfold.
  destruct (negb (truthy (prop b "username")) || negb (truthy (prop b "password"))).
  { eexists _, _. split; [reflexivity|]. cbn. auto. }
  destruct (head _) as [user0|] eqn:Hhead.
  2:{ eexists _, _. split; [reflexivity|]. cbn. auto. }
  apply head_filter_elem in Hhead as [Hin Hname].
  destruct (prop b "password") as [| |x|n|p|t] eqn:Hp;
    try (eexists _, _; split; [reflexivity|]; cbn; auto).
  destruct (bcrypt_compare p (users.passwordHash user0)) eqn:Hc.
  - eexists _, _. split; [reflexivity|]. split; [reflexivity|].
    cbn [res_success]. exists b, user0, p. split_and!; auto.
  - eexists _, _. split; [reflexivity|]. cbn. auto.
Qed.

(** X22. A correct login succeeds.  When the first stored user with the
    requested username has a hash that the non-empty string password
    verifies against, the answer is status 200 with that user's id,
    username and email, after a single SELECT and without any write. *)
Theorem login_succeeds (body : gmap string JsValue) (w : World) (p : string)
    (u : users.row) :
  truthy (prop body "username") = true ->
  prop body "password" = JString p ->
  p ≠ ""%string ->
  head (filter (fun u => users.username u = pgText (prop body "username"))
          (tbl_users (db w))) = Some u ->
  bcrypt_compare p (users.passwordHash u) = true ->
  POST bcrypt_compare pgText (Some body) w
  = (Returned (mkResponse 200 true "Login successful"
                 (Some (mkLoginUser (users.id u) (users.username u) (users.email u)))),
     withCall w SelectUsers).
Proof.
  intros Hu Hp Hne Hhead Hok. rewrite POST_unfold, Hu, Hp. cbn [truthy].
  destruct (String.eqb_spec p ""); [contradiction|]. cbn [negb orb].
  now rewrite Hhead, Hok.
Qed.

End LoginFacts.

Lemma login_requires_both_fields_witness :
  POST Demo2.compare Demo2.pgText
    (Some (<["username" := JString "carol"]> (<["password" := JString ""]> ∅)))
    Demo2.loginWorld
  = (Returned (mkResponse 400 false "Username and password are required" None),
     Demo2.loginWorld).
Proof.
  apply login_requires_both_fields. right. vm_compute. reflexivity.
Defined.


Lemma login_succeeds_witness :
  POST Demo2.compare Demo2.pgText
    (Some (<["username" := JString "carol"]> (<["password" := JString "secret"]> ∅)))
    Demo2.loginWorld
  = (Returned (mkResponse 200 true "Login successful"
                 (Some (mkLoginUser Demo.unusedId "carol" "carol@example.com"))),
     withCall Demo2.loginWorld SelectUsers).
Proof.
  apply (login_succeeds Demo2.compare Demo2.pgText
           (<["username" := JString "carol"]> (<["password" := JString "secret"]> ∅))
           Demo2.loginWorld "secret" Demo2.carol).
  - vm_compute. reflexivity.
  - vm_compute. reflexivity.
  - discriminate.
  - vm_compute. reflexivity.
  - vm_compute. reflexivity.
Defined.

(** ** [createWorkoutAction], from request to stored row *)






(** ** Field-level reporting of the create schema *)

Lemma concat_checks_path {C} (check : C -> list ZodIssue) (p : list string) (cs : list C) :
  (forall c, Forall (fun i => path i = p) (check c)) ->
  Forall (fun i => path i = p) (concat (check <$> cs)).
Proof.
  intros Hc. induction cs as [|c cs IH]; [constructor|].
  rewrite fmap_cons. cbn [concat]. apply Forall_app. auto.
Qed.

Lemma z_string_issues checks p v issues :
  z_string checks p v = inl issues ->
  issues ≠ [] ∧ Forall (fun i => path i = p) issues.
Proof.
  unfold z_string.
  destruct v as [| |b|n|s|t]; try (intros [= <-]; split; [discriminate|repeat constructor]).
  pose proof (concat_checks_path (stringCheck p s) p checks) as Hpath.
  destruct (concat _) as [|i rest]; [discriminate|]. intros [= <-].
  split; [discriminate|]. apply Hpath.
  intros [n m|n m|test m]; cbn [stringCheck];
    [destruct (decide _)|destruct (decide _)|destruct (test s)]; repeat constructor.
Qed.

Lemma z_number_issues checks p v issues :
  z_number checks p v = inl issues ->
  issues ≠ [] ∧ Forall (fun i => path i = p) issues.
Proof.
  unfold z_number.
  assert (Hgen : forall n,
            match concat (numberCheck p n <$> checks) with
            | [] => inr n
            | i :: rest => inl (i :: rest)
            end = inl issues ->
            issues ≠ [] ∧ Forall (fun i => path i = p) issues).
  { intros n. pose proof (concat_checks_path (numberCheck p n) p checks) as Hpath.
    destruct (concat _) as [|i rest]; [discriminate|]. intros [= <-].
    split; [discriminate|]. apply Hpath.
    intros [|z|z]; cbn [numberCheck];
      [destruct (isInteger n)|destruct (numLt n z)|destruct (numGt n z)];
      repeat constructor. }
  destruct v as [| |b|[z|f| |neg]|s|t];
    try (intros [= <-]; split; [discriminate|repeat constructor]); apply Hgen.
Qed.

Lemma optional_issues {A} (s : Schema A) p v issues :
  (forall issues, s p v = inl issues ->
                  issues ≠ [] ∧ Forall (fun i => path i = p) issues) ->
  optional s p v = inl issues ->
  issues ≠ [] ∧ Forall (fun i => path i = p) issues.
Proof.
  intros Hs. unfold optional.
  destruct v; try discriminate; destruct (s p _) as [i|a] eqn:E; try discriminate;
    intros [= <-]; now apply Hs.
Qed.

Lemma z_coerce_date_issues rt p v issues :
  z_coerce_date rt p v = inl issues ->
  issues ≠ [] ∧ Forall (fun i => path i = p) issues.
Proof.
  unfold z_coerce_date. destruct (newDate rt v); [discriminate|].
  intros [= <-]. split; [discriminate|repeat constructor].
Qed.

Lemma issues_at_path {A} (r : list ZodIssue + A) (p q : list string) :
  (forall issues, r = inl issues -> issues ≠ [] ∧ Forall (fun i => path i = p) issues) ->
  ((exists i, i ∈ issuesOf r ∧ path i = p) <-> ¬ exists a, r = inr a)
  ∧ (p ≠ q -> ¬ exists i, i ∈ issuesOf r ∧ path i = q).
Proof.
  intros Hr. destruct r as [issues|a]; cbn [issuesOf].
  - destruct (Hr issues eq_refl) as [Hne Hall]. rewrite Forall_forall in Hall. split.
    + split; [intros _ [a Ha]; discriminate|intros _].
      destruct issues as [|i rest]; [contradiction|].
      exists i. split; [left|apply Hall; left].
    + intros Hpq (i & Hi & Hq). apply Hpq. rewrite <- Hq. symmetry. now apply Hall.
  - split.
    + split; [intros (i & Hi & _); inversion Hi|intros Hn; exfalso; apply Hn; eauto].
    + intros _ (i & Hi & _). inversion Hi.
Qed.

(** X25. A rejected create input is reported field by field.  The issues of
    the thrown [ZodError] contain an issue at path [name] exactly when the
    name is not a string of 1 to 255 characters, one at path [date] exactly
    when the date does not coerce to a valid date, one at path [notes]
    exactly when notes is neither absent nor a string of at most 1000
    characters, and one at path [durationMinutes] exactly when it is
    neither absent nor an integer from 1 to 600. *)
Theorem createWorkoutSchema_reports_each_field rt (input : gmap string JsValue)
    (issues : list ZodIssue) :
  createWorkoutSchema rt input = inl issues ->
  ((exists i, i ∈ issues ∧ path i = ["name"%string])
   <-> ¬ exists n, prop input "name" = JString n ∧ (1 <= String.length n <= 255)%nat)
  ∧ ((exists i, i ∈ issues ∧ path i = ["date"%string])
     <-> newDate rt (prop input "date") = None)
  ∧ ((exists i, i ∈ issues ∧ path i = ["notes"%string])
     <-> ¬ (prop input "notes" = JUndefined
            ∨ exists s, prop input "notes" = JString s ∧ (String.length s <= 1000)%nat))
  ∧ ((exists i, i ∈ issues ∧ path i = ["durationMinutes"%string])
     <-> ¬ (prop input "durationMinutes" = JUndefined
            ∨ exists z, prop input "durationMinutes" = JNumber (NInt z) ∧ 1 <= z <= 600)).
Proof.
  intros Hs. unfold createWorkoutSchema, field in Hs.
  set (r1 := z_string _ ["name"%string] _) in Hs.
  set (r2 := z_coerce_date rt ["date"%string] _) in Hs.
  set (r3 := optional (z_string _) ["notes"%string] _) in Hs.
  set (r4 := optional (z_number _) ["durationMinutes"%string] _) in Hs.
  assert (Hissues : issues = issuesOf r1 ++ issuesOf r2 ++ issuesOf r3 ++ issuesOf r4).
  { destruct r1, r2, r3, r4; try discriminate; now injection Hs as <-. }
  clear Hs.
  pose proof (issues_at_path r1 ["name"%string]) as H1.
  pose proof (issues_at_path r2 ["date"%string]) as H2.
  pose proof (issues_at_path r3 ["notes"%string]) as H3.
  pose proof (issues_at_path r4 ["durationMinutes"%string]) as H4.
  assert (W1 : forall issues, r1 = inl issues ->
                 issues ≠ [] ∧ Forall (fun i => path i = ["name"%string]) issues)
    by (intros ?; apply z_string_issues).
  assert (W2 : forall issues, r2 = inl issues ->
                 issues ≠ [] ∧ Forall (fun i => path i = ["date"%string]) issues)
    by (intros ?; apply z_coerce_date_issues).
  assert (W3 : forall issues, r3 = inl issues ->
                 issues ≠ [] ∧ Forall (fun i => path i = ["notes"%string]) issues)
    by (intros ?; apply optional_issues; intros ?; apply z_string_issues).
  assert (W4 : forall issues, r4 = inl issues ->
                 issues ≠ [] ∧ Forall (fun i => path i = ["durationMinutes"%string]) issues)
    by (intros ?; apply optional_issues; intros ?; apply z_number_issues).
  assert (Hsplit : forall q,
            (exists i, i ∈ issues ∧ path i = q)
            <-> (exists i, i ∈ issuesOf r1 ∧ path i = q)
                ∨ (exists i, i ∈ issuesOf r2 ∧ path i = q)
                ∨ (exists i, i ∈ issuesOf r3 ∧ path i = q)
                ∨ (exists i, i ∈ issuesOf r4 ∧ path i = q)).
  { intros q. rewrite Hissues. split.
    - intros (i & Hi & Hq). rewrite !elem_of_app in Hi.
      destruct Hi as [?|[?|[?|?]]]; eauto 6.
    - intros [(i & ? & ?)|[(i & ? & ?)|[(i & ? & ?)|(i & ? & ?)]]];
        exists i; rewrite !elem_of_app; auto. }
  assert (A1 : (exists a, r1 = inr a)
               <-> exists n, prop input "name" = JString n
                             ∧ (1 <= String.length n <= 255)%nat).
  { subst r1. split.
    - intros [a Ha]. apply z_string_min_max_inr in Ha. eauto.
    - intros (n & Hn & Hl). exists n. apply z_string_min_max_inr. auto. }
  assert (A2 : (exists a, r2 = inr a) <-> newDate rt (prop input "date") ≠ None).
  { subst r2. unfold z_coerce_date. destruct (newDate rt _); split.
    - discriminate.
    - eauto.
    - intros [a Ha]. discriminate.
    - intros Hn. contradiction. }
  assert (A3 : (exists a, r3 = inr a)
               <-> prop input "notes" = JUndefined
                   ∨ exists s, prop input "notes" = JString s
                               ∧ (String.length s <= 1000)%nat).
  { subst r3. split.
    - intros [a Ha]. apply optional_inr in Ha as [[? _]|(_ & s & _ & Ha)]; [now left|].
      right. apply z_string_max_inr in Ha. eauto.
    - intros [Hu|(s & Hs & Hl)].
      + exists None. rewrite Hu. reflexivity.
      + exists (Some s). apply optional_inr. right. split; [rewrite Hs; discriminate|].
        exists s. split; [reflexivity|]. apply z_string_max_inr. auto. }
  assert (A4 : (exists a, r4 = inr a)
               <-> prop input "durationMinutes" = JUndefined
                   ∨ exists z, prop input "durationMinutes" = JNumber (NInt z)
                               ∧ 1 <= z <= 600).
  { subst r4. split.
    - intros [a Ha]. apply optional_inr in Ha as [[? _]|(_ & n & _ & Ha)]; [now left|].
      right. apply z_number_int_range_inr in Ha as (z & ? & _ & ?). eauto.
    - intros [Hu|(z & Hz & Hl)].
      + exists None. rewrite Hu. reflexivity.
      + exists (Some (NInt z)). apply optional_inr. right.
        split; [rewrite Hz; discriminate|].
        exists (NInt z). split; [reflexivity|]. apply z_number_int_range_inr. eauto. }
  destruct (H1 ["date"%string] W1) as [_ N12]. destruct (H1 ["notes"%string] W1) as [_ N13].
  destruct (H1 ["durationMinutes"%string] W1) as [E1 N14].
  destruct (H2 ["name"%string] W2) as [_ N21]. destruct (H2 ["notes"%string] W2) as [_ N23].
  destruct (H2 ["durationMinutes"%string] W2) as [E2 N24].
  destruct (H3 ["name"%string] W3) as [_ N31]. destruct (H3 ["date"%string] W3) as [_ N32].
  destruct (H3 ["durationMinutes"%string] W3) as [E3 N34].
  destruct (H4 ["name"%string] W4) as [_ N41]. destruct (H4 ["date"%string] W4) as [_ N42].
  destruct (H4 ["notes"%string] W4) as [E4 N43].
  specialize (N12 ltac:(discriminate)). specialize (N13 ltac:(discriminate)).
  specialize (N14 ltac:(discriminate)). specialize (N21 ltac:(discriminate)).
  specialize (N23 ltac:(discriminate)). specialize (N24 ltac:(discriminate)).
  specialize (N31 ltac:(discriminate)). specialize (N32 ltac:(discriminate)).
  specialize (N34 ltac:(discriminate)). specialize (N41 ltac:(discriminate)).
  specialize (N42 ltac:(discriminate)). specialize (N43 ltac:(discriminate)).
  rewrite !Hsplit. rewrite <- A1, <- A3, <- A4.
  split_and!.
  - tauto.
  - destruct (newDate rt (prop input "date")) eqn:Hd.
    + split; [|discriminate]. intros [?|[Hx|[?|?]]]; try tauto.
      exfalso. apply E2 in Hx. apply Hx, A2. discriminate.
    + split; [reflexivity|]. intros _. right. left. apply E2.
      intros Ha. apply A2 in Ha. now apply Ha.
  - tauto.
  - tauto.
Qed.

Lemma createWorkoutSchema_reports_each_field_witness :
  (exists i,
     i ∈ [mkIssue ["name"%string] too_small (Some "Name is required"%string);
          mkIssue ["durationMinutes"%string] too_big None]
     ∧ path i = ["durationMinutes"%string])
  ∧ ¬ exists i,
        i ∈ [mkIssue ["name"%string] too_small (Some "Name is required"%string);
             mkIssue ["durationMinutes"%string] too_big None]
        ∧ path i = ["notes"%string].
Proof.
  destruct (createWorkoutSchema_reports_each_field Demo.runtime
              (<["name" := JString ""]>
                 (<["date" := JNumber (NInt Demo.midnight)]>
                    (<["durationMinutes" := JNumber (NInt 601)]> ∅)))
              [mkIssue ["name"%string] too_small (Some "Name is required"%string);
               mkIssue ["durationMinutes"%string] too_big None])
    as (_ & _ & Hnotes & Hdur).
  - vm_compute. reflexivity.
  - split.
    + apply Hdur. intros [Hu|(z & Hz & Hr)].
      * vm_compute in Hu. discriminate.
      * vm_compute in Hz. injection Hz as <-. lia.
    + intros Hi. apply Hnotes in Hi. apply Hi. left. vm_compute. reflexivity.
Defined.

(** ** Integrity, and a served update *)

(** X26. Consistency of the store is an invariant of the whole layer: if the
    workout identifiers are unique and every foreign key resolves, the same
    holds after [createWorkout], [updateWorkout], [deleteWorkout],
    [getCurrentUser], [createWorkoutAction] and [updateWorkoutAction],
    whether they return or throw. *)
Theorem integrity_is_preserved rt (w : World) (workoutId userId : Uuid)
    (new : NewWorkout) (upd : WorkoutUpdate) (input : gmap string JsValue) :
  wfDb (db w) ->
  wfDb (db (snd (createWorkout rt userId new w)))
  ∧ wfDb (db (snd (updateWorkout rt workoutId userId upd w)))
  ∧ wfDb (db (snd (deleteWorkout workoutId userId w)))
  ∧ wfDb (db (snd (getCurrentUser rt w)))
  ∧ wfDb (db (snd (createWorkoutAction rt input w)))
  ∧ wfDb (db (snd (updateWorkoutAction rt input w))).
Proof.
  intros Hwf. split_and!.
  - now apply createWorkout_wf.
  - now apply updateWorkout_wf.
  - now apply deleteWorkout_wf.
  - now apply getCurrentUser_wf.
  - now apply createWorkoutAction_wf.
  - now apply updateWorkoutAction_wf.
Qed.

Lemma integrity_is_preserved_witness :
  wfDb (db (snd (deleteWorkout Demo.legDayId Demo.aliceId Demo.world)))
  ∧ wfDb (db (snd (createWorkoutAction Demo.runtime
                     (<["name" := JString "Push Day"]>
                        (<["date" := JNumber (NInt Demo.midnight)]> ∅)) Demo.world))).
Proof.
  destruct (integrity_is_preserved Demo.runtime Demo.world Demo.legDayId Demo.aliceId
              (mkNew "x" 0 None None) (mkUpd None None None None)
              (<["name" := JString "Push Day"]>
                 (<["date" := JNumber (NInt Demo.midnight)]> ∅)))
    as (_ & _ & Hdel & _ & Hact & _).
  - exact wfDb_demo.
  - split; [exact Hdel|exact Hact].
Defined.





